(** * peanut: user-account backend (service, repository and handler layers)

    A shallow embedding of the Go sources

      - [internal/model/user.go]        the [User] record and the request types,
      - the GORM-backed [UserRepository] (the one wired by [cmd/server/main.go]),
      - the earlier pgx-backed [UserRepository] (hand-written SQL),
      - [UserService] (package [service]),
      - [UserHandler], [HealthHandler] and package [response],
      - the connection strings of package [config].

    The relational engine is external to the repository.  It is modelled as a
    table keyed by the primary key, a sequence for [BIGSERIAL], a clock, a
    script of driver faults and a log of the statements issued so far.  The
    script gives, statement by statement, what the driver reports instead of
    executing: a lost connection, or what a concurrent writer makes the
    engine answer (a unique violation after a check that passed), or a
    value refused for its column type.  The table enforces the primary key
    and the two UNIQUE constraints of the migration; the widths of its
    columns are not part of it.  Go's [int] is a 64-bit integer; its
    wrap-around is written out in [wrap64].

    Layout: the model (packages in dependency order), the vocabulary of the
    properties and the stores they are run on, then the properties. *)

From Stdlib Require Import ZArith Lia Ascii String.
From stdpp Require Import base option list gmap strings sorting pretty.

#[local] Set Warnings "-register-all".
#[local] Set Warnings "-notation-overridden".
#[local] Set Warnings "-ambiguous-paths".

Local Open Scope Z_scope.

(** ** Go values *)

(** [int] on the 64-bit targets the server is built for. *)
Definition min_int64 : Z := - 2 ^ 63.
Definition max_int64 : Z := 2 ^ 63 - 1.

Definition wrap64 (z : Z) : Z := (z + 2 ^ 63) mod 2 ^ 64 - 2 ^ 63.

Definition int64_range (z : Z) : Prop := min_int64 <= z <= max_int64.

(** Results of Go functions returning [(T, error)]. *)
Inductive outcome (E A : Type) : Type :=
| Done (a : A)
| Fail (e : E).
Arguments Done {E A} a.
Arguments Fail {E A} e.

(** ** Errors

    Package-level error variables have an identity ([errors.Is] compares
    them by [==]); a value built by [fmt.Errorf] without [%w] is fresh and
    equal to no variable; [%w] wraps a cause. *)

Inductive ErrVar : Type :=
| VarErrUserNotFound
| VarErrUserAlreadyExists
| VarErrEmailAlreadyUsed
| VarErrInvalidPassword
| VarGormErrRecordNotFound
| VarPgxErrNoRows.

#[global] Instance ErrVar_eq_dec : EqDecision ErrVar.
Proof. solve_decision. Defined.

(** What the database driver can report for a statement. *)
Inductive DriverError : Type :=
| ConnFailure                         (* connection refused, timeout, cancelled context *)
| UniqueViolation (constraint : string) (* SQLSTATE 23505 *)
| InvalidRowCount                     (* SQLSTATE 2201W / 2201X: negative LIMIT or OFFSET *)
| DataException.                      (* SQLSTATE 22001 / 22003: a value its column cannot hold *)

Inductive error : Type :=
| ErrorsNew (v : ErrVar) (msg : string)   (* var X = errors.New(msg) *)
| Errorf (msg : string)                   (* fmt.Errorf(msg) *)
| Wrapf (msg : string) (cause : error)    (* fmt.Errorf(msg + ": %w", cause) *)
| Driver (e : DriverError)
| BcryptErr (msg : string).

Fixpoint errors_Is (err : error) (target : ErrVar) : bool :=
  match err with
  | ErrorsNew v _ => bool_decide (v = target)
  | Wrapf _ cause => errors_Is cause target
  | Errorf _ | Driver _ | BcryptErr _ => false
  end.

(** The innermost cause of an error chain. *)
Fixpoint root_cause (err : error) : error :=
  match err with
  | Wrapf _ cause => root_cause cause
  | _ => err
  end.

Definition result (A : Type) : Type := outcome error A.

(** ** package model *)

Record BaseModel : Type := mkBaseModel {
  ID : Z;
  CreatedAt : Z;
  UpdatedAt : Z
}.

Record User : Type := mkUser {
  Base : BaseModel;
  Username : string;
  Email : string;
  Password : string;
  Status : Z
}.

Definition UserStatusInactive : Z := 0.
Definition UserStatusActive : Z := 1.
Definition UserStatusBanned : Z := 2.

Record CreateUserRequest : Type := mkCreateUserRequest {
  create_Username : string;
  create_Email : string;
  create_Password : string
}.

Record UpdateUserRequest : Type := mkUpdateUserRequest {
  update_Username : string;
  update_Email : string;
  update_Status : option Z
}.

Record UserQueryParams : Type := mkUserQueryParams {
  query_Username : string;
  query_Email : string;
  query_Status : option Z;
  Page : Z;
  PageSize : Z
}.

Definition User_ID (u : User) : Z := ID (Base u).
Definition User_CreatedAt (u : User) : Z := CreatedAt (Base u).
Definition User_UpdatedAt (u : User) : Z := UpdatedAt (Base u).

Definition set_ID (u : User) (v : Z) : User :=
  mkUser (mkBaseModel v (User_CreatedAt u) (User_UpdatedAt u))
         (Username u) (Email u) (Password u) (Status u).
Definition set_CreatedAt (u : User) (v : Z) : User :=
  mkUser (mkBaseModel (User_ID u) v (User_UpdatedAt u))
         (Username u) (Email u) (Password u) (Status u).
Definition set_UpdatedAt (u : User) (v : Z) : User :=
  mkUser (mkBaseModel (User_ID u) (User_CreatedAt u) v)
         (Username u) (Email u) (Password u) (Status u).
Definition set_Username (u : User) (v : string) : User :=
  mkUser (Base u) v (Email u) (Password u) (Status u).
Definition set_Email (u : User) (v : string) : User :=
  mkUser (Base u) (Username u) v (Password u) (Status u).
Definition set_Password (u : User) (v : string) : User :=
  mkUser (Base u) (Username u) (Email u) v (Status u).
Definition set_Status (u : User) (v : Z) : User :=
  mkUser (Base u) (Username u) (Email u) (Password u) v.

(** ** The relational engine (table [users]) *)

Record Row : Type := mkRow {
  col_username : string;
  col_email : string;
  col_password : string;
  col_status : Z;
  col_created_at : Z;
  col_updated_at : Z
}.

(** Conditions of a WHERE clause; a query carries their conjunction. *)
Inductive Cond : Type :=
| IdEq (id : Z)
| UsernameEq (s : string)
| EmailEq (s : string)
| UsernameLike (pattern : string)
| EmailLike (pattern : string)
| StatusEq (s : Z).

Inductive Order : Type := OrderIdAsc | OrderIdDesc.

(** Assignments of an UPDATE ... SET list. *)
Inductive Assign : Type :=
| SetUsername (v : string)
| SetEmail (v : string)
| SetPassword (v : string)
| SetStatus (v : Z)
| SetCreatedAt (v : Z)
| SetUpdatedAt (v : Z).

Definition assign (a : Assign) (r : Row) : Row :=
  match a with
  | SetUsername v =>
      mkRow v (col_email r) (col_password r) (col_status r) (col_created_at r) (col_updated_at r)
  | SetEmail v =>
      mkRow (col_username r) v (col_password r) (col_status r) (col_created_at r) (col_updated_at r)
  | SetPassword v =>
      mkRow (col_username r) (col_email r) v (col_status r) (col_created_at r) (col_updated_at r)
  | SetStatus v =>
      mkRow (col_username r) (col_email r) (col_password r) v (col_created_at r) (col_updated_at r)
  | SetCreatedAt v =>
      mkRow (col_username r) (col_email r) (col_password r) (col_status r) v (col_updated_at r)
  | SetUpdatedAt v =>
      mkRow (col_username r) (col_email r) (col_password r) (col_status r) (col_created_at r) v
  end.

Definition assign_all (sets : list Assign) (r : Row) : Row :=
  fold_left (fun acc a => assign a acc) sets r.

Inductive Stmt : Type :=
| QSelect (where_ : list Cond) (order : option Order) (limit offset : option Z)
| QCount (where_ : list Cond)
| QExists (where_ : list Cond)
| QInsert (id : option Z) (r : Row)
| QUpdate (id : Z) (sets : list Assign)
| QDelete (id : Z).

Record DB : Type := mkDB {
  table : gmap Z Row;                  (* primary key |-> columns *)
  users_id_seq : Z;                    (* next value of the id sequence *)
  now : Z;                             (* clock reading, NOW() / time.Now() *)
  faults : list (option DriverError);  (* per statement: None = it executes *)
  log : list Stmt                      (* statements issued, oldest first *)
}.

Definition with_table (d : DB) (t : gmap Z Row) : DB :=
  mkDB t (users_id_seq d) (now d) (faults d) (log d).
Definition with_seq (d : DB) (s : Z) : DB :=
  mkDB (table d) s (now d) (faults d) (log d).

(** A computation against the store. *)
Definition M (A : Type) : Type := DB -> A * DB.

Definition ret {A} (a : A) : M A := fun d => (a, d).
Definition bind {A B} (m : M A) (k : A -> M B) : M B :=
  fun d => let (a, d') := m d in k a d'.

Notation "'let*' x ':=' m 'in' k" := (bind m (fun x => k))
  (at level 10, x pattern, m at level 100, k at level 200).

(** Issue a statement: it is logged and takes the next entry of the fault
    script (an exhausted script means the statement executes). *)
Definition next_fault (d : DB) : option DriverError :=
  match faults d with
  | f :: _ => f
  | [] => None
  end.

Definition logged (s : Stmt) (d : DB) : DB :=
  mkDB (table d) (users_id_seq d) (now d) (tail (faults d)) (log d ++ [s]).

Definition issue (s : Stmt) : M (option DriverError) :=
  fun d => (next_fault d, logged s d).

Definition id_asc : relation (Z * Row) := fun x y => x.1 <= y.1.
Definition id_desc : relation (Z * Row) := fun x y => y.1 <= x.1.

#[global] Instance id_asc_dec : RelDecision id_asc.
Proof. intros x y; unfold id_asc; apply _. Defined.
#[global] Instance id_desc_dec : RelDecision id_desc.
Proof. intros x y; unfold id_desc; apply _. Defined.

Definition order_rows (o : option Order) (l : list (Z * Row)) : list (Z * Row) :=
  match o with
  | None => l
  | Some OrderIdAsc => merge_sort id_asc l
  | Some OrderIdDesc => merge_sort id_desc l
  end.

Definition window (limit offset : option Z) (l : list (Z * Row)) : list (Z * Row) :=
  let l1 := match offset with Some o => drop (Z.to_nat o) l | None => l end in
  match limit with Some n => take (Z.to_nat n) l1 | None => l1 end.

Definition negative (o : option Z) : bool :=
  match o with Some z => z <? 0 | None => false end.

Section Engine.

(** The engine's [LIKE] operator: pattern, then subject. *)
Variable sql_like : string -> string -> bool.

Definition eval_cond (c : Cond) (kr : Z * Row) : bool :=
  match c with
  | IdEq id => kr.1 =? id
  | UsernameEq s => String.eqb (col_username kr.2) s
  | EmailEq s => String.eqb (col_email kr.2) s
  | UsernameLike p => sql_like p (col_username kr.2)
  | EmailLike p => sql_like p (col_email kr.2)
  | StatusEq s => col_status kr.2 =? s
  end.

Definition satisfies (cs : list Cond) (kr : Z * Row) : bool :=
  forallb (fun c => eval_cond c kr) cs.

Definition matching (cs : list Cond) (t : gmap Z Row) : list (Z * Row) :=
  filter (fun kr => satisfies cs kr) (map_to_list t).

Definition db_select (cs : list Cond) (o : option Order) (limit offset : option Z)
  : M (outcome DriverError (list (Z * Row))) :=
  let* f := issue (QSelect cs o limit offset) in
  fun d =>
    match f with
    | Some e => (Fail e, d)
    | None =>
        if negative limit || negative offset then (Fail InvalidRowCount, d)
        else (Done (window limit offset (order_rows o (matching cs (table d)))), d)
    end.

Definition db_count (cs : list Cond) : M (outcome DriverError Z) :=
  let* f := issue (QCount cs) in
  fun d =>
    match f with
    | Some e => (Fail e, d)
    | None => (Done (Z.of_nat (length (matching cs (table d)))), d)
    end.

(** The UNIQUE constraints of the migration, checked against the rows
    of [t]. *)
Definition unique_conflict (t : gmap Z Row) (r : Row) : option string :=
  if existsb (fun kr => String.eqb (col_username kr.2) (col_username r)) (map_to_list t)
  then Some "users_username_key"%string
  else if existsb (fun kr => String.eqb (col_email kr.2) (col_email r)) (map_to_list t)
  then Some "users_email_key"%string
  else None.

(** INSERT ... RETURNING id.  Without an explicit id the sequence supplies
    one; a value taken from the sequence is not given back when the
    statement fails on a constraint.  The primary key and the UNIQUE
    constraints are checked here.  The column types (VARCHAR(64), VARCHAR(128),
    VARCHAR(256), SMALLINT) are not: a value that does not fit is refused by
    the engine, which is a [DataException] of the fault script. *)
Definition db_insert (id : option Z) (r : Row) : M (outcome DriverError Z) :=
  let* f := issue (QInsert id r) in
  fun d =>
    match f with
    | Some e => (Fail e, d)
    | None =>
        let k := match id with Some k => k | None => users_id_seq d end in
        let d1 := match id with Some _ => d | None => with_seq d (users_id_seq d + 1) end in
        match table d !! k with
        | Some _ => (Fail (UniqueViolation "users_pkey"), d1)
        | None =>
            match unique_conflict (table d) r with
            | Some c => (Fail (UniqueViolation c), d1)
            | None => (Done k, with_table d1 (<[k := r]> (table d)))
            end
        end
    end.

Definition db_exists (cs : list Cond) : M (outcome DriverError bool) :=
  let* f := issue (QExists cs) in
  fun d =>
    match f with
    | Some e => (Fail e, d)
    | None => (Done (negb (Nat.eqb (length (matching cs (table d))) 0)), d)
    end.

(** UPDATE users SET <sets> WHERE id = ?; the BEFORE UPDATE trigger of the
    migration then stamps [updated_at] with the clock.  The answer is the
    number of rows affected.  As for [db_insert], the UNIQUE constraints are
    checked here and a value that does not fit its column is a
    [DataException] of the fault script. *)
Definition db_update (id : Z) (sets : list Assign) : M (outcome DriverError Z) :=
  let* f := issue (QUpdate id sets) in
  fun d =>
    match f with
    | Some e => (Fail e, d)
    | None =>
        match table d !! id with
        | None => (Done 0, d)
        | Some r =>
            let r' := assign (SetUpdatedAt (now d)) (assign_all sets r) in
            match unique_conflict (delete id (table d)) r' with
            | Some c => (Fail (UniqueViolation c), d)
            | None => (Done 1, with_table d (<[id := r']> (table d)))
            end
        end
    end.

(** DELETE FROM users WHERE id = ?; answers the number of rows affected. *)
Definition db_delete (id : Z) : M (outcome DriverError Z) :=
  let* f := issue (QDelete id) in
  fun d =>
    match f with
    | Some e => (Fail e, d)
    | None =>
        match table d !! id with
        | None => (Done 0, d)
        | Some _ => (Done 1, with_table d (delete id (table d)))
        end
    end.

End Engine.

(** ** Scanning rows into [model.User] and back *)

Definition scan (kr : Z * Row) : User :=
  mkUser (mkBaseModel kr.1 (col_created_at kr.2) (col_updated_at kr.2))
         (col_username kr.2) (col_email kr.2) (col_password kr.2) (col_status kr.2).

Definition columns (u : User) : Row :=
  mkRow (Username u) (Email u) (Password u) (Status u)
        (User_CreatedAt u) (User_UpdatedAt u).

Definition lift_driver {A} (r : outcome DriverError A) : result A :=
  match r with
  | Done a => Done a
  | Fail e => Fail (Driver e)
  end.

(** The repository as the service sees it: the method set of
    [*repository.UserRepository].  [Create] and [Update] receive a pointer
    and write the generated columns through it; here they answer the struct
    as it is after the call (the service drops it when the call fails). *)
Record UserRepository : Type := mkUserRepository {
  repo_Create : User -> M (result User);
  repo_GetByID : Z -> M (result User);
  repo_GetByUsername : string -> M (result User);
  repo_GetByEmail : string -> M (result User);
  repo_List : UserQueryParams -> M (result (list User * Z));
  repo_Update : User -> M (result User);
  repo_Delete : Z -> M (option error);
  repo_ExistsByUsername : string -> M (result bool);
  repo_ExistsByEmail : string -> M (result bool)
}.

(** The WHERE clause both repositories build for [List]. *)
Definition list_conds (params : UserQueryParams) : list Cond :=
  (if String.eqb (query_Username params) "" then []
   else [UsernameLike ("%" +:+ query_Username params +:+ "%")]) ++
  (if String.eqb (query_Email params) "" then []
   else [EmailLike ("%" +:+ query_Email params +:+ "%")]) ++
  (match query_Status params with
   | None => []
   | Some s => [StatusEq s]
   end).

(** The pagination arithmetic both repositories share. *)
Definition list_page (params : UserQueryParams) : Z :=
  if Page params <? 1 then 1 else Page params.
Definition list_pageSize (params : UserQueryParams) : Z :=
  if PageSize params <? 1 then 10 else PageSize params.
Definition list_offset (params : UserQueryParams) : Z :=
  wrap64 (wrap64 (list_page params - 1) * list_pageSize params).

(** ** The GORM calls the repository makes *)

Module gorm.
Section Gorm.
Variable sql_like : string -> string -> bool.

Definition ErrRecordNotFound : error :=
  ErrorsNew VarGormErrRecordNotFound "record not found".

(** [db.Where(cs...).First(&user)]: ordered by primary key, LIMIT 1. *)
Definition First (cs : list Cond) : M (result User) :=
  let* r := db_select sql_like cs (Some OrderIdAsc) (Some 1) None in
  ret match r with
      | Fail e => Fail (Driver e)
      | Done [] => Fail ErrRecordNotFound
      | Done (kr :: _) => Done (scan kr)
      end.

(** [query.Count(&total)] *)
Definition Count (cs : list Cond) : M (result Z) :=
  let* r := db_count sql_like cs in ret (lift_driver r).

(** [Limit] and [Offset] reach the statement only when positive. *)
Definition clause (n : Z) : option Z := if 0 <? n then Some n else None.

(** [query.Order("id DESC").Limit(l).Offset(o).Find(&users)] *)
Definition Find (cs : list Cond) (o : Order) (limit offset : Z) : M (result (list User)) :=
  let* r := db_select sql_like cs (Some o) (clause limit) (clause offset) in
  ret match r with
      | Fail e => Fail (Driver e)
      | Done rows => Done (map scan rows)
      end.

(** [db.Create(user)]: zero timestamps are stamped with the clock, a zero
    primary key is left to the sequence; the generated key is written
    back. *)
Definition Create (user : User) : M (result User) :=
  fun d =>
    let u1 := if User_CreatedAt user =? 0 then set_CreatedAt user (now d) else user in
    let u2 := if User_UpdatedAt u1 =? 0 then set_UpdatedAt u1 (now d) else u1 in
    let key := if User_ID u2 =? 0 then None else Some (User_ID u2) in
    let (r, d') := db_insert key (columns u2) d in
    match r with
    | Fail e => (Fail (Driver e), d')
    | Done k => (Done (set_ID u2 k), d')
    end.

(** [db.Save(user)] as the service reaches it: for a record that has just
    been fetched, so that its primary key is set and its row is there.
    Every column is written, [UpdatedAt] is stamped with the clock; the
    answer is the struct and RowsAffected.  GORM has two more paths, which
    are not followed here: given a zero primary key [Save] creates the
    record, and when its UPDATE affects no row it goes on to insert the
    record.  Here an UPDATE that finds no row answers RowsAffected = 0. *)
Definition Save (user : User) : M (result (User * Z)) :=
  fun d =>
    let u1 := set_UpdatedAt user (now d) in
    let (r, d') :=
      db_update (User_ID u1)
        [SetCreatedAt (User_CreatedAt u1); SetUpdatedAt (User_UpdatedAt u1);
         SetUsername (Username u1); SetEmail (Email u1);
         SetPassword (Password u1); SetStatus (Status u1)] d in
    match r with
    | Fail e => (Fail (Driver e), d')
    | Done n => (Done (u1, n), d')
    end.

(** [db.Delete(&model.User{}, id)]: answers RowsAffected. *)
Definition Delete (id : Z) : M (result Z) :=
  let* r := db_delete id in ret (lift_driver r).

End Gorm.
End gorm.

(** ** package repository (GORM) *)

Module repository.
Section Repository.
Variable sql_like : string -> string -> bool.

Definition Create (user : User) : M (result User) :=
  let* r := gorm.Create user in
  ret match r with
      | Fail e => Fail (Wrapf "创建用户失败" e)
      | Done u => Done u
      end.

(** The three single-row fetches share their error handling. *)
Definition fetch (cs : list Cond) : M (result User) :=
  let* r := gorm.First sql_like cs in
  ret match r with
      | Fail e =>
          if errors_Is e VarGormErrRecordNotFound then Fail (Errorf "用户不存在")
          else Fail (Wrapf "获取用户失败" e)
      | Done u => Done u
      end.

Definition GetByID (id : Z) : M (result User) := fetch [IdEq id].
Definition GetByUsername (username : string) : M (result User) :=
  fetch [UsernameEq username].
Definition GetByEmail (email : string) : M (result User) :=
  fetch [EmailEq email].

Definition List (params : UserQueryParams) : M (result (list User * Z)) :=
  let cs := list_conds params in
  let* c := gorm.Count sql_like cs in
  match c with
  | Fail e => ret (Fail (Wrapf "统计用户数量失败" e))
  | Done total =>
      let pageSize := list_pageSize params in
      let offset := list_offset params in
      let* r := gorm.Find sql_like cs OrderIdDesc pageSize offset in
      ret match r with
          | Fail e => Fail (Wrapf "获取用户列表失败" e)
          | Done users => Done (users, total)
          end
  end.

Definition Update (user : User) : M (result User) :=
  let* r := gorm.Save user in
  ret match r with
      | Fail e => Fail (Wrapf "更新用户失败" e)
      | Done (u, rowsAffected) =>
          if rowsAffected =? 0 then Fail (Errorf "用户不存在") else Done u
      end.

Definition Delete (id : Z) : M (option error) :=
  let* r := gorm.Delete id in
  ret match r with
      | Fail e => Some (Wrapf "删除用户失败" e)
      | Done rowsAffected =>
          if rowsAffected =? 0 then Some (Errorf "用户不存在") else None
      end.

Definition ExistsByUsername (username : string) : M (result bool) :=
  let* r := gorm.Count sql_like [UsernameEq username] in
  ret match r with
      | Fail e => Fail (Wrapf "检查用户名失败" e)
      | Done count => Done (0 <? count)
      end.

Definition ExistsByEmail (email : string) : M (result bool) :=
  let* r := gorm.Count sql_like [EmailEq email] in
  ret match r with
      | Fail e => Fail (Wrapf "检查邮箱失败" e)
      | Done count => Done (0 <? count)
      end.

Definition NewUserRepository : UserRepository :=
  mkUserRepository Create GetByID GetByUsername GetByEmail List Update Delete
                   ExistsByUsername ExistsByEmail.

End Repository.
End repository.

(** ** package repository, pgx version (hand-written SQL) *)

Module pgx.
Section Pgx.
Variable sql_like : string -> string -> bool.

Definition ErrNoRows : error := ErrorsNew VarPgxErrNoRows "no rows in result set".

(** [db.QueryRow(ctx, "SELECT ... WHERE ...", args...).Scan(...)] *)
Definition QueryRow (cs : list Cond) : M (result User) :=
  let* r := db_select sql_like cs None None None in
  ret match r with
      | Fail e => Fail (Driver e)
      | Done [] => Fail ErrNoRows
      | Done (kr :: _) => Done (scan kr)
      end.

End Pgx.
End pgx.

Module repository_pgx.
Section Repository.
Variable sql_like : string -> string -> bool.

(** INSERT ... VALUES ($1, $2, $3, $4, NOW(), NOW())
    RETURNING id, created_at, updated_at *)
Definition Create (user : User) : M (result User) :=
  fun d =>
    let t := now d in
    let (r, d') :=
      db_insert None (mkRow (Username user) (Email user) (Password user)
                            (Status user) t t) d in
    match r with
    | Fail e => (Fail (Driver e), d')
    | Done k => (Done (set_UpdatedAt (set_CreatedAt (set_ID user k) t) t), d')
    end.

Definition fetch (cs : list Cond) : M (result User) :=
  let* r := pgx.QueryRow sql_like cs in
  ret match r with
      | Fail e => Fail (Wrapf "获取用户失败" e)
      | Done u => Done u
      end.

Definition GetByID (id : Z) : M (result User) := fetch [IdEq id].
Definition GetByUsername (username : string) : M (result User) :=
  fetch [UsernameEq username].
Definition GetByEmail (email : string) : M (result User) :=
  fetch [EmailEq email].

Definition List (params : UserQueryParams) : M (result (list User * Z)) :=
  let cs := list_conds params in
  let* c := db_count sql_like cs in
  match c with
  | Fail e => ret (Fail (Wrapf "统计用户数量失败" (Driver e)))
  | Done total =>
      let pageSize := list_pageSize params in
      let offset := list_offset params in
      let* r := db_select sql_like cs (Some OrderIdDesc) (Some pageSize) (Some offset) in
      ret match r with
          | Fail e => Fail (Wrapf "获取用户列表失败" (Driver e))
          | Done rows => Done (map scan rows, total)
          end
  end.

(** UPDATE users SET username = $1, email = $2, status = $3,
    updated_at = NOW() WHERE id = $4 RETURNING updated_at *)
Definition Update (user : User) : M (result User) :=
  fun d =>
    let t := now d in
    let (r, d') :=
      db_update (User_ID user)
        [SetUsername (Username user); SetEmail (Email user);
         SetStatus (Status user); SetUpdatedAt t] d in
    match r with
    | Fail e => (Fail (Driver e), d')
    | Done n => if n =? 0 then (Fail pgx.ErrNoRows, d')
                else (Done (set_UpdatedAt user t), d')
    end.

Definition Delete (id : Z) : M (option error) :=
  let* r := db_delete id in
  ret match r with
      | Fail e => Some (Driver e)
      | Done _ => None
      end.

Definition ExistsByUsername (username : string) : M (result bool) :=
  let* r := db_exists sql_like [UsernameEq username] in ret (lift_driver r).

Definition ExistsByEmail (email : string) : M (result bool) :=
  let* r := db_exists sql_like [EmailEq email] in ret (lift_driver r).

Definition NewUserRepository : UserRepository :=
  mkUserRepository Create GetByID GetByUsername GetByEmail List Update Delete
                   ExistsByUsername ExistsByEmail.

End Repository.
End repository_pgx.

(** ** golang.org/x/crypto/bcrypt *)

Module bcrypt.
Definition DefaultCost : Z := 10.
End bcrypt.

(** ** package service *)

Module service.

Definition ErrUserNotFound : error := ErrorsNew VarErrUserNotFound "用户不存在".
Definition ErrUserAlreadyExists : error := ErrorsNew VarErrUserAlreadyExists "用户已存在".
Definition ErrEmailAlreadyUsed : error := ErrorsNew VarErrEmailAlreadyUsed "邮箱已被使用".
Definition ErrInvalidPassword : error := ErrorsNew VarErrInvalidPassword "密码错误".

Section Service.
Variable repo : UserRepository.

(** [bcrypt.GenerateFromPassword(password, cost)]; the salt is drawn
    inside the library, the function stands for what the call answers. *)
Variable GenerateFromPassword : string -> Z -> result string.

Definition Create (req : CreateUserRequest) : M (result User) :=
  let* r := repo_ExistsByUsername repo (create_Username req) in
  match r with
  | Fail err => ret (Fail (Wrapf "检查用户名失败" err))
  | Done true => ret (Fail ErrUserAlreadyExists)
  | Done false =>
      let* r := repo_ExistsByEmail repo (create_Email req) in
      match r with
      | Fail err => ret (Fail (Wrapf "检查邮箱失败" err))
      | Done true => ret (Fail ErrEmailAlreadyUsed)
      | Done false =>
          match GenerateFromPassword (create_Password req) bcrypt.DefaultCost with
          | Fail err => ret (Fail (Wrapf "加密密码失败" err))
          | Done hashedPassword =>
              let user := mkUser (mkBaseModel 0 0 0) (create_Username req)
                                 (create_Email req) hashedPassword UserStatusActive in
              let* r := repo_Create repo user in
              ret match r with
                  | Fail err => Fail (Wrapf "创建用户失败" err)
                  | Done user => Done user
                  end
          end
      end
  end.

Definition GetByID (id : Z) : M (result User) :=
  let* r := repo_GetByID repo id in
  ret match r with
      | Fail _ => Fail ErrUserNotFound
      | Done user => Done user
      end.

Definition List (params : UserQueryParams) : M (result (list User * Z)) :=
  repo_List repo params.

(** [if req.Username != "" { ... user.Username = req.Username }] *)
Definition update_username (id : Z) (req : UpdateUserRequest) (user : User)
  : M (result User) :=
  if String.eqb (update_Username req) "" then ret (Done user)
  else
    let* r := repo_GetByUsername repo (update_Username req) in
    ret match r with
        | Done existingUser =>
            if negb (User_ID existingUser =? id) then Fail ErrUserAlreadyExists
            else Done (set_Username user (update_Username req))
        | Fail _ => Done (set_Username user (update_Username req))
        end.

(** [if req.Email != "" { ... user.Email = req.Email }] *)
Definition update_email (id : Z) (req : UpdateUserRequest) (user : User)
  : M (result User) :=
  if String.eqb (update_Email req) "" then ret (Done user)
  else
    let* r := repo_GetByEmail repo (update_Email req) in
    ret match r with
        | Done existingUser =>
            if negb (User_ID existingUser =? id) then Fail ErrEmailAlreadyUsed
            else Done (set_Email user (update_Email req))
        | Fail _ => Done (set_Email user (update_Email req))
        end.

(** [if req.Status != nil { user.Status = *req.Status }] *)
Definition update_status (req : UpdateUserRequest) (user : User) : User :=
  match update_Status req with
  | Some s => set_Status user s
  | None => user
  end.

Definition Update (id : Z) (req : UpdateUserRequest) : M (result User) :=
  let* r := repo_GetByID repo id in
  match r with
  | Fail _ => ret (Fail ErrUserNotFound)
  | Done user =>
      let* r := update_username id req user in
      match r with
      | Fail err => ret (Fail err)
      | Done user =>
          let* r := update_email id req user in
          match r with
          | Fail err => ret (Fail err)
          | Done user =>
              let user := update_status req user in
              let* r := repo_Update repo user in
              ret match r with
                  | Fail err => Fail (Wrapf "更新用户失败" err)
                  | Done user => Done user
                  end
          end
      end
  end.

Definition Delete (id : Z) : M (option error) :=
  let* r := repo_GetByID repo id in
  match r with
  | Fail _ => ret (Some ErrUserNotFound)
  | Done _ => repo_Delete repo id
  end.

End Service.
End service.

(** ** encoding/json, as far as the handlers use it *)

Inductive json : Type :=
| JNull
| JNum (n : Z)
| JStr (s : string)
| JTime (t : Z)
| JArr (xs : list json)
| JObj (members : list (string * json)).

(** A struct field with its [json] tag and the encoding of its value. *)
Record Field (T : Type) : Type := mkField {
  field_name : string;
  field_json : string;
  field_value : T -> json
}.
Arguments mkField {T} _ _ _.
Arguments field_name {T} _.
Arguments field_json {T} _.
Arguments field_value {T} _ _.

(** Fields of an embedded struct are promoted to the embedding one. *)
Definition embed {S T} (proj : T -> S) (f : Field S) : Field T :=
  mkField (field_name f) (field_json f) (fun v => field_value f (proj v)).

Definition BaseModel_fields : list (Field BaseModel) :=
  [ mkField "ID" "id" (fun b => JNum (ID b));
    mkField "CreatedAt" "created_at" (fun b => JTime (CreatedAt b));
    mkField "UpdatedAt" "updated_at" (fun b => JTime (UpdatedAt b)) ].

Definition User_fields : list (Field User) :=
  map (embed Base) BaseModel_fields ++
  [ mkField "Username" "username" (fun u => JStr (Username u));
    mkField "Email" "email" (fun u => JStr (Email u));
    mkField "Password" "-" (fun u => JStr (Password u));
    mkField "Status" "status" (fun u => JNum (Status u)) ].

(** [json.Marshal] of a struct: a field tagged ["-"] is skipped. *)
Definition marshal_struct {T} (fs : list (Field T)) (v : T) : json :=
  JObj (omap (fun f => if String.eqb (field_json f) "-" then None
                       else Some (field_json f, field_value f v)) fs).

Definition marshal_User (u : User) : json := marshal_struct User_fields u.

Definition json_keys (j : json) : list string :=
  match j with
  | JObj members => map fst members
  | _ => []
  end.

(** ** package response *)

Module response.

Record Response : Type := mkResponse {
  Code : Z;
  Message : string;
  Data : option json            (* [json:"data,omitempty"]; nil = None *)
}.

Record PageData : Type := mkPageData {
  List : json;
  Total : Z;
  Page : Z;
  PageSize : Z
}.

Definition marshal_PageData (p : PageData) : json :=
  JObj [("list"%string, List p); ("total"%string, JNum (Total p));
        ("page"%string, JNum (Page p)); ("page_size"%string, JNum (PageSize p))].

Definition CodeSuccess : Z := 0.
Definition CodeBadRequest : Z := 400.
Definition CodeUnauthorized : Z := 401.
Definition CodeForbidden : Z := 403.
Definition CodeNotFound : Z := 404.
Definition CodeServerError : Z := 500.

Definition StatusOK : Z := 200.
Definition StatusBadRequest : Z := 400.
Definition StatusNotFound : Z := 404.
Definition StatusInternalServerError : Z := 500.

(** What [c.JSON(status, body)] sends. *)
Definition Reply : Type := (Z * Response)%type.

Definition Success (data : option json) : Reply :=
  (StatusOK, mkResponse CodeSuccess "success" data).

Definition SuccessPage (list : json) (total page pageSize : Z) : Reply :=
  (StatusOK,
   mkResponse CodeSuccess "success"
              (Some (marshal_PageData (mkPageData list total page pageSize)))).

Definition Error (code : Z) (message : string) : Reply :=
  let httpStatus :=
    if (400 <=? code) && (code <? 500) then StatusBadRequest
    else if 500 <=? code then StatusInternalServerError
    else StatusOK in
  (httpStatus, mkResponse code message None).

Definition BadRequest (message : string) : Reply := Error CodeBadRequest message.

Definition NotFound (message : string) : Reply :=
  let message := if String.eqb message "" then "资源不存在"%string else message in
  (StatusNotFound, mkResponse CodeNotFound message None).

Definition ServerError (message : string) : Reply :=
  let message := if String.eqb message "" then "服务器内部错误"%string else message in
  (StatusInternalServerError, mkResponse CodeServerError message None).

Definition StatusUnauthorized : Z := 401.
Definition StatusForbidden : Z := 403.

Definition SuccessWithMessage (message : string) (data : option json) : Reply :=
  (StatusOK, mkResponse CodeSuccess message data).

(** [Unauthorized] and [Forbidden] send their reply and then call
    [c.Abort()]: the second component tells whether the rest of the
    handler chain is cut. *)
Definition Unauthorized (message : string) : Reply * bool :=
  let message := if String.eqb message "" then "未授权"%string else message in
  ((StatusUnauthorized, mkResponse CodeUnauthorized message None), true).

Definition Forbidden (message : string) : Reply * bool :=
  let message := if String.eqb message "" then "禁止访问"%string else message in
  ((StatusForbidden, mkResponse CodeForbidden message None), true).

(** [json.Marshal] of the envelope; [Data] is tagged [omitempty] and is
    left out when it is nil. *)
Definition marshal_Response (r : Response) : json :=
  JObj ([("code"%string, JNum (Code r)); ("message"%string, JStr (Message r))] ++
        match Data r with
        | Some data => [("data"%string, data)]
        | None => []
        end).

End response.

(** ** package handler

  Request decoding ([ShouldBindJSON], [ShouldBindQuery], [ParseInt]) belongs
  to the framework; a handler receives its outcome. *)

Module handler.
Section Handler.
Variable repo : UserRepository.
Variable GenerateFromPassword : string -> Z -> result string.

Definition Create (bound : outcome string CreateUserRequest) : M response.Reply :=
  match bound with
  | Fail err => ret (response.BadRequest ("请求参数错误: " +:+ err))
  | Done req =>
      let* r := service.Create repo GenerateFromPassword req in
      ret match r with
          | Fail err =>
              if errors_Is err VarErrUserAlreadyExists
              then response.BadRequest "用户名已存在"
              else if errors_Is err VarErrEmailAlreadyUsed
              then response.BadRequest "邮箱已被使用"
              else response.ServerError "创建用户失败"
          | Done user => response.Success (Some (marshal_User user))
          end
  end.

Definition Get (id : outcome string Z) : M response.Reply :=
  match id with
  | Fail _ => ret (response.BadRequest "无效的用户ID")
  | Done id =>
      let* r := service.GetByID repo id in
      ret match r with
          | Fail err =>
              if errors_Is err VarErrUserNotFound
              then response.NotFound "用户不存在"
              else response.ServerError "获取用户失败"
          | Done user => response.Success (Some (marshal_User user))
          end
  end.

Definition List (bound : outcome string UserQueryParams) : M response.Reply :=
  match bound with
  | Fail err => ret (response.BadRequest ("请求参数错误: " +:+ err))
  | Done params =>
      let* r := service.List repo params in
      ret match r with
          | Fail _ => response.ServerError "获取用户列表失败"
          | Done (users, total) =>
              let page := if Page params <? 1 then 1 else Page params in
              let pageSize := if PageSize params <? 1 then 10 else PageSize params in
              response.SuccessPage (JArr (map marshal_User users)) total page pageSize
          end
  end.

Definition Update (id : outcome string Z) (bound : outcome string UpdateUserRequest)
  : M response.Reply :=
  match id with
  | Fail _ => ret (response.BadRequest "无效的用户ID")
  | Done id =>
      match bound with
      | Fail err => ret (response.BadRequest ("请求参数错误: " +:+ err))
      | Done req =>
          let* r := service.Update repo id req in
          ret match r with
              | Fail err =>
                  if errors_Is err VarErrUserNotFound
                  then response.NotFound "用户不存在"
                  else if errors_Is err VarErrUserAlreadyExists
                  then response.BadRequest "用户名已存在"
                  else if errors_Is err VarErrEmailAlreadyUsed
                  then response.BadRequest "邮箱已被使用"
                  else response.ServerError "更新用户失败"
              | Done user => response.Success (Some (marshal_User user))
              end
      end
  end.

Definition Delete (id : outcome string Z) : M response.Reply :=
  match id with
  | Fail _ => ret (response.BadRequest "无效的用户ID")
  | Done id =>
      let* r := service.Delete repo id in
      ret match r with
          | Some err =>
              if errors_Is err VarErrUserNotFound
              then response.NotFound "用户不存在"
              else response.ServerError "删除用户失败"
          | None => response.Success None
          end
  end.

End Handler.

(** [HealthHandler]: the data is a [gin.H] with the one key [status]. *)
Definition Health : response.Reply :=
  response.SuccessWithMessage "ok" (Some (JObj [("status"%string, JStr "healthy")])).

Definition Ready : response.Reply :=
  response.SuccessWithMessage "ready" (Some (JObj [("status"%string, JStr "ready")])).

End handler.

(** ** package config *)

Module config.

Record DatabaseConfig : Type := mkDatabaseConfig {
  db_Host : string;
  db_Port : Z;
  db_User : string;
  db_Password : string;
  db_Name : string;
  db_SSLMode : string;
  db_MaxConns : Z;
  db_MinConns : Z;
  db_MaxConnLifetime : Z;
  db_MaxConnIdleTime : Z
}.

(** [fmt.Sprintf("host=%s port=%d user=%s password=%s dbname=%s sslmode=%s", ...)]:
    [%d] prints the decimal numeral, [%s] the string as it is. *)
Definition DSN (c : DatabaseConfig) : string :=
  "host=" +:+ db_Host c +:+ " port=" +:+ pretty (db_Port c) +:+
  " user=" +:+ db_User c +:+ " password=" +:+ db_Password c +:+
  " dbname=" +:+ db_Name c +:+ " sslmode=" +:+ db_SSLMode c.

Record RedisConfig : Type := mkRedisConfig {
  redis_Host : string;
  redis_Port : Z;
  redis_Password : string;
  redis_DB : Z;
  redis_PoolSize : Z
}.

(** [fmt.Sprintf("%s:%d", c.Host, c.Port)] *)
Definition Addr (c : RedisConfig) : string :=
  redis_Host c +:+ ":" +:+ pretty (redis_Port c).

End config.

(** ** Boundary validation declared on [UserQueryParams]

    [binding:"omitempty,min=1"] on [Page] and
    [binding:"omitempty,min=1,max=100"] on [PageSize]: a zero value is not
    validated, any other value must lie within the bounds. *)
Definition binding_UserQueryParams (params : UserQueryParams) : bool :=
  ((Page params =? 0) || (1 <=? Page params)) &&
  ((PageSize params =? 0) || ((1 <=? PageSize params) && (PageSize params <=? 100))).

(** ** A concrete [LIKE] for running the model

    PostgreSQL's operator on ASCII text: [%] matches any run of characters,
    [_] any one character, a backslash quotes the next pattern character. *)
Fixpoint like_match (p s : list Ascii.ascii) : bool :=
  match p with
  | [] => match s with [] => true | _ :: _ => false end
  | c :: p' =>
      if Ascii.eqb c "%"%char then
        (fix any (s : list Ascii.ascii) : bool :=
           like_match p' s || match s with [] => false | _ :: s' => any s' end) s
      else if Ascii.eqb c "_"%char then
        match s with [] => false | _ :: s' => like_match p' s' end
      else if Ascii.eqb c "\"%char then
        match p', s with
        | q :: p'', c' :: s' => Ascii.eqb q c' && like_match p'' s'
        | _, _ => false
        end
      else
        match s with [] => false | c' :: s' => Ascii.eqb c c' && like_match p' s' end
  end.

Definition pg_like (pattern subject : string) : bool :=
  like_match (list_ascii_of_string pattern) (list_ascii_of_string subject).

(** ** Paging through a listing

    The client of the pagination property: it asks for [n] consecutive
    pages of the same filter, starting at [page], one call after the other. *)
Definition with_page (params : UserQueryParams) (page pageSize : Z) : UserQueryParams :=
  mkUserQueryParams (query_Username params) (query_Email params)
                    (query_Status params) page pageSize.

Fixpoint fetch_pages (List : UserQueryParams -> M (result (list User * Z)))
    (params : UserQueryParams) (pageSize page : Z) (n : nat)
  : M (list (result (list User * Z))) :=
  match n with
  | O => ret []
  | S n' =>
      let* r := List (with_page params page pageSize) in
      let* rs := fetch_pages List params pageSize (page + 1) n' in
      ret (r :: rs)
  end.

Definition page_users (r : result (list User * Z)) : list User :=
  match r with
  | Done (users, _) => users
  | Fail _ => []
  end.

Definition page_total (r : result (list User * Z)) : option Z :=
  match r with
  | Done (_, total) => Some total
  | Fail _ => None
  end.

(** ceil(n / k) *)
Definition pages_needed (n : nat) (k : Z) : nat := Z.to_nat ((Z.of_nat n + k - 1) / k).

(** ** Vocabulary of the properties *)

(** The store executes every statement it is sent. *)
Definition healthy (d : DB) : Prop := faults d = [].

(** The rows a store holds under a username, an email. *)
Definition username_taken (name : string) (d : DB) : Prop :=
  exists id r, table d !! id = Some r /\ col_username r = name.
Definition email_taken (email : string) (d : DB) : Prop :=
  exists id r, table d !! id = Some r /\ col_email r = email.

(** What the UNIQUE constraints maintain. *)
Definition unique_rows (t : gmap Z Row) : Prop :=
  forall i j ri rj, t !! i = Some ri -> t !! j = Some rj -> i <> j ->
    col_username ri <> col_username rj /\ col_email ri <> col_email rj.

(** What the constraints, the sequence and the clock maintain: usernames
    and emails are unique, the sequence is ahead of every key, and no row
    was written later than the clock reads. *)
Definition consistent (d : DB) : Prop :=
  unique_rows (table d) /\
  (forall k, is_Some (table d !! k) -> k < users_id_seq d) /\
  (forall k r, table d !! k = Some r -> col_updated_at r <= now d).

(** A store with no account yet, its clock reading [t0]. *)
Definition empty_store (t0 : Z) : DB := mkDB ∅ 1 t0 [] [].

(** Time passing between two requests. *)
Definition tick (dt : Z) (d : DB) : DB :=
  mkDB (table d) (users_id_seq d) (now d + dt) (faults d) (log d).

(** The record as stored under a key. *)
Definition stored (d : DB) (id : Z) : option User :=
  (fun r => scan (id, r)) <$> table d !! id.

(** The same record with its password blanked. *)
Definition scrub (u : User) : User := set_Password u "".

Definition scrub_result (r : result User) : result User :=
  match r with
  | Done u => Done (scrub u)
  | Fail e => Fail e
  end.

Definition scrub_page (r : result (list User * Z)) : result (list User * Z) :=
  match r with
  | Done (users, total) => Done (map scrub users, total)
  | Fail e => Fail e
  end.

(** The filtered set in the order of the listing (ORDER BY id DESC). *)
Definition listing (sql_like : string -> string -> bool)
    (params : UserQueryParams) (d : DB) : list (Z * Row) :=
  merge_sort id_desc (matching sql_like (list_conds params) (table d)).

(** A [List] that, on a store executing its statements and holding the
    table [t], answers page [k] of size 10 of the listing and the size of
    the filtered set, and leaves the table alone. *)
Definition pages_well (sql_like : string -> string -> bool)
    (List : UserQueryParams -> M (result (list User * Z)))
    (flt : UserQueryParams) (t : gmap Z Row) : Prop :=
  forall k d, healthy d -> table d = t -> 1 <= k -> (k - 1) * 10 <= max_int64 ->
    exists d',
      List (with_page flt k 10) d =
        (Done (map scan (take 10 (drop (Z.to_nat ((k - 1) * 10))
                                    (merge_sort id_desc
                                       (matching sql_like (list_conds flt) t)))),
               Z.of_nat (length (matching sql_like (list_conds flt) t))), d')
      /\ healthy d' /\ table d' = t.

(** Errors whose innermost cause is the driver's: the spec's StoreError. *)
Definition is_store_error (e : error) : bool :=
  match root_cause e with
  | Driver _ => true
  | _ => false
  end.

(** The spec's AlreadyExists, in either of its two forms. *)
Definition is_AlreadyExists (e : error) : bool :=
  errors_Is e VarErrUserAlreadyExists || errors_Is e VarErrEmailAlreadyUsed.

(** The record [service.Create] hands to the repository. *)
Definition fresh_user (req : CreateUserRequest) (hashed : string) : User :=
  mkUser (mkBaseModel 0 0 0) (create_Username req) (create_Email req)
         hashed UserStatusActive.

(** The statements the GORM repository issues. *)
Definition by_id (id : Z) : Stmt :=
  QSelect [IdEq id] (Some OrderIdAsc) (Some 1) None.
Definition by_username (name : string) : Stmt :=
  QSelect [UsernameEq name] (Some OrderIdAsc) (Some 1) None.
Definition by_email (email : string) : Stmt :=
  QSelect [EmailEq email] (Some OrderIdAsc) (Some 1) None.
Definition save_stmt (u : User) (t : Z) : Stmt :=
  QUpdate (User_ID u)
    [SetCreatedAt (User_CreatedAt u); SetUpdatedAt t;
     SetUsername (Username u); SetEmail (Email u);
     SetPassword (Password u); SetStatus (Status u)].

(** How [service.Update] passes on what the repository's [Update] answers. *)
Definition wrap_update (x : result User * DB) : result User * DB :=
  (match x.1 with
   | Fail err => Fail (Wrapf "更新用户失败" err)
   | Done u => Done u
   end, x.2).

(** The record a successful update of [u0] by [req] at time [t] leaves. *)
Definition merged (req : UpdateUserRequest) (u0 : User) (t : Z) : User :=
  set_UpdatedAt
    (service.update_status req
       (let u1 := if String.eqb (update_Username req) "" then u0
                  else set_Username u0 (update_Username req) in
        if String.eqb (update_Email req) "" then u1
        else set_Email u1 (update_Email req))) t.

(** What no operation of the service does to a record that stays: change
    its creation time or its password, or move [updated_at] back. *)
Definition history_kept (d d' : DB) : Prop :=
  forall k r r', table d !! k = Some r -> table d' !! k = Some r' ->
    col_created_at r' = col_created_at r /\
    col_password r' = col_password r /\
    col_updated_at r <= col_updated_at r'.



(** The error is, or wraps, one of the service's error variables. *)
Definition is_sentinel (e : error) : bool :=
  errors_Is e VarErrUserNotFound || errors_Is e VarErrUserAlreadyExists ||
  errors_Is e VarErrEmailAlreadyUsed || errors_Is e VarErrInvalidPassword.




(** [q] is a prefix of [s]; [q] occurs in [s]. *)
Fixpoint starts_with (q s : string) : bool :=
  match q, s with
  | EmptyString, _ => true
  | String a q', String b s' => Ascii.eqb a b && starts_with q' s'
  | String _ _, EmptyString => false
  end.

Fixpoint contains (q s : string) : bool :=
  starts_with q s ||
  match s with
  | EmptyString => false
  | String _ s' => contains q s'
  end.

(** The filter of a listing as the API documents it, not as the
    repository builds it: the username contains [query_Username], the
    email contains [query_Email], the status equals [query_Status]; an
    absent field asks for nothing. *)
Definition spec_filter (flt : UserQueryParams) (r : Row) : bool :=
  contains (query_Username flt) (col_username r) &&
  contains (query_Email flt) (col_email r) &&
  match query_Status flt with
  | None => true
  | Some s => col_status r =? s
  end.

(** The records of a table that the documented filter selects. *)
Definition spec_filtered (flt : UserQueryParams) (t : gmap Z Row) : list (Z * Row) :=
  filter (fun kr => spec_filter flt kr.2) (map_to_list t).

(** The characters [LIKE] reads as pattern syntax, and the strings free
    of them. *)
Definition like_special (c : ascii) : bool :=
  Ascii.eqb c "%" || Ascii.eqb c "_" || Ascii.eqb c "\".

Fixpoint plain (q : string) : bool :=
  match q with
  | EmptyString => true
  | String c q' => negb (like_special c) && plain q'
  end.

(** An engine whose [LIKE], given [%q%] with nothing in [q] to interpret,
    tests whether the subject contains [q]. *)
Definition like_contains (sql_like : string -> string -> bool) : Prop :=
  forall q s, plain q = true -> sql_like ("%" +:+ q +:+ "%") s = contains q s.

(** What the three conditions of a listing ask of a row, in SQL:
    [username LIKE '%q%'], [email LIKE '%q%'], [status = s], each only when
    the request carries the field. *)
Definition like_filter (sql_like : string -> string -> bool)
    (params : UserQueryParams) (r : Row) : bool :=
  (String.eqb (query_Username params) "" ||
   sql_like ("%" +:+ query_Username params +:+ "%") (col_username r)) &&
  (String.eqb (query_Email params) "" ||
   sql_like ("%" +:+ query_Email params +:+ "%") (col_email r)) &&
  match query_Status params with
  | None => true
  | Some s => col_status r =? s
  end.

(** A row every value of which fits the column the migration declares for
    it: VARCHAR(64), VARCHAR(128), VARCHAR(256), SMALLINT.  Lengths are
    counted in bytes, which bounds the number of characters. *)
Definition fits_columns (r : Row) : bool :=
  (Z.of_nat (String.length (col_username r)) <=? 64) &&
  (Z.of_nat (String.length (col_email r)) <=? 128) &&
  (Z.of_nat (String.length (col_password r)) <=? 256) &&
  (-32768 <=? col_status r) && (col_status r <=? 32767).

(** Every key of a JSON value, at any depth. *)
Fixpoint all_keys (j : json) : list string :=
  match j with
  | JArr xs => flat_map all_keys xs
  | JObj members =>
      flat_map (fun m : string * json => let (k, v) := m in k :: all_keys v) members
  | _ => []
  end.

(** The keys the API documents for its bodies. *)
Definition reply_keys : list string :=
  ["code"; "message"; "data"; "list"; "total"; "page"; "page_size";
   "id"; "created_at"; "updated_at"; "username"; "email"; "status"]%string.

(** The body a reply puts on the wire. *)
Definition body (reply : response.Reply) : json := response.marshal_Response reply.2.

(** A body all of whose keys, at any depth, are documented ones. *)
Definition within_schema (reply : response.Reply) : Prop :=
  forall k, k ∈ all_keys (body reply) -> k ∈ reply_keys /\ k <> "password"%string.

(** A reply whose HTTP status and envelope agree: 200 with code 0, or an
    error status repeated as the code, with a message and no data. *)
Definition coherent (reply : response.Reply) : Prop :=
  (reply.1 = 200 /\ response.Code reply.2 = 0) \/
  ((reply.1 = 400 \/ reply.1 = 404 \/ reply.1 = 500) /\
   response.Code reply.2 = reply.1 /\
   response.Data reply.2 = None /\
   response.Message reply.2 <> ""%string).

(** Whether a character occurs in a string. *)
Fixpoint occurs (c : ascii) (s : string) : bool :=
  match s with
  | EmptyString => false
  | String a s' => Ascii.eqb a c || occurs c s'
  end.

(** A database configuration whose host, user, password and database
    name hold no space. *)
Definition spaceless (c : config.DatabaseConfig) : Prop :=
  occurs " " (config.db_Host c) = false /\
  occurs " " (config.db_User c) = false /\
  occurs " " (config.db_Password c) = false /\
  occurs " " (config.db_Name c) = false.

(** Deciding the constraints on a concrete table. *)
Definition unique_rowsb (t : gmap Z Row) : bool :=
  let rows := map_to_list t in
  forallb (fun a : Z * Row =>
    forallb (fun b : Z * Row =>
      (a.1 =? b.1) ||
      (negb (String.eqb (col_username a.2) (col_username b.2)) &&
       negb (String.eqb (col_email a.2) (col_email b.2)))) rows) rows.

Definition consistentb (d : DB) : bool :=
  unique_rowsb (table d) &&
  forallb (fun a : Z * Row => (a.1 <? users_id_seq d) && (col_updated_at a.2 <=? now d))
          (map_to_list (table d)).

(** ** Stores and requests the properties are run on *)

(** One account, created at time 100; the clock reads 200. *)
Definition alice_row : Row :=
  mkRow "alice" "a@x.com" "$2a$10$hash-of-secret1" 1 100 100.
Definition store1 : DB := mkDB {[ 1 := alice_row ]} 2 200 [] [].

(** A stand-in for bcrypt. *)
Definition toy_hash (password : string) (cost : Z) : result string :=
  Done ("$2a$10$hash-of-" +:+ password).

Definition bob_request : CreateUserRequest :=
  mkCreateUserRequest "bob" "b@x.com" "secret2".

(** [store1] losing a race: both existence checks execute, then the insert
    is refused by the unique index on [username]. *)
Definition racing_store : DB :=
  mkDB (table store1) 2 200
       [None; None; Some (UniqueViolation "users_username_key")] [].

(** [store1] behind a broken connection. *)
Definition outage_store : DB := mkDB (table store1) 2 200 [Some ConnFailure] [].

(** [store1] whose connection fails for the second statement only. *)
Definition flaky_store : DB := mkDB (table store1) 2 200 [None; Some ConnFailure] [].

(** 101 accounts with ids 1..101. *)
Definition numbered_row (i : Z) : Row :=
  mkRow ("user" +:+ pretty i) ("user" +:+ pretty i +:+ "@x.com") "$2a$10$hash" 1 i i.
Definition big_store : DB :=
  mkDB (list_to_map (map (fun i => (i, numbered_row i)) (seqZ 1 101))) 102 500 [] [].

Definition no_filter : UserQueryParams := mkUserQueryParams "" "" None 0 0.

(** The accounts of [big_store] whose username contains "user1": 1,
    10 to 19, 100 and 101. *)
Definition user1_filter : UserQueryParams := mkUserQueryParams "user1" "" None 0 0.

(** Two accounts, one with an underscore in its username, and a filter
    that holds an underscore. *)
Definition underscore_store : DB :=
  mkDB (<[2 := mkRow "alice" "a@x.com" "$2a$10$hash-of-secret1" 1 100 100]>
          {[ 1 := mkRow "al_ce" "u@x.com" "$2a$10$hash-of-secret3" 1 90 90 ]})
       3 200 [] [].

Definition underscore_filter : UserQueryParams := mkUserQueryParams "l_c" "" None 0 0.

(** Two accounts; the clock reads 300. *)
Definition bob_row : Row :=
  mkRow "bob" "b@x.com" "$2a$10$hash-of-secret2" 1 200 200.
Definition store2 : DB := mkDB (<[2 := bob_row]> {[ 1 := alice_row ]}) 3 300 [] [].

(** Two Redis configurations for the same server, and two database
    configurations that differ in their pool sizes only. *)
Definition redis_a : config.RedisConfig := config.mkRedisConfig "localhost" 6379 "" 0 10.
Definition redis_b : config.RedisConfig := config.mkRedisConfig "localhost" 6379 "pw" 1 20.
Definition database_a : config.DatabaseConfig :=
  config.mkDatabaseConfig "localhost" 5432 "postgres" "secret" "peanut" "disable"
                          10 2 3600 1800.
Definition database_b : config.DatabaseConfig :=
  config.mkDatabaseConfig "localhost" 5432 "postgres" "secret" "peanut" "disable"
                          20 4 7200 900.

(** * Properties *)

(** ** Lists and arithmetic *)

Lemma list_singleton_char {A} (l : list A) (a : A) :
  NoDup l -> (forall x, x ∈ l <-> x = a) -> l = [a].
Proof.
  intros Hnd Hin.
  destruct l as [|x l].
  - exfalso. assert (a ∈ @nil A) as H by (apply Hin; reflexivity). inversion H.
  - assert (x = a) as -> by (apply Hin; left).
    f_equal. destruct l as [|y l]; [reflexivity|].
    exfalso. assert (y = a) as -> by (apply Hin; right; left).
    apply NoDup_cons in Hnd as [Hn _]. apply Hn. left.
Qed.

Lemma list_nil_char {A} (l : list A) : (forall x, x ∉ l) -> l = [].
Proof.
  destruct l as [|x l]; [reflexivity|]. intros H. exfalso. apply (H x). left.
Qed.

Lemma filter_nonempty {A} (P : A -> Prop) `{forall x, Decision (P x)} (l : list A) :
  (0 <? Z.of_nat (length (filter P l))) = true <-> exists x, x ∈ l /\ P x.
Proof.
  rewrite Z.ltb_lt. split.
  - destruct (filter P l) as [|x l'] eqn:E; simpl; [lia|]. intros _.
    exists x. assert (x ∈ filter P l) as Hx by (rewrite E; left).
    apply list_elem_of_filter in Hx. tauto.
  - intros (x & Hx & HP).
    assert (x ∈ filter P l) as Hin by (apply list_elem_of_filter; tauto).
    destruct (filter P l); [inversion Hin | simpl; lia].
Qed.

Lemma existsb_false_iff {A} (f : A -> bool) (l : list A) :
  existsb f l = false <-> forall x, x ∈ l -> f x = false.
Proof.
  induction l as [|a l IH]; simpl.
  - split; [intros _ x Hx; inversion Hx | reflexivity].
  - rewrite orb_false_iff, IH. split.
    + intros [Ha Hl] x Hx. apply elem_of_cons in Hx as [->|Hx]; auto.
    + intros Hall. split; [apply Hall; left | intros x Hx; apply Hall; by right].
Qed.

Lemma not_true_false (b : bool) : ~ (b = true) -> b = false.
Proof. destruct b; congruence. Qed.

Lemma wrap64_id (z : Z) : int64_range z -> wrap64 z = z.
Proof.
  unfold int64_range, min_int64, max_int64, wrap64. intros H.
  rewrite Z.mod_small; lia.
Qed.

(** Go's multiplication does wrap: 2^62 * 4 is 0. *)
Example wrap64_overflow : wrap64 (2 ^ 62 * 4) = 0.
Proof. reflexivity. Qed.

#[local] Instance id_desc_trans : Transitive id_desc.
Proof. intros x y z; unfold id_desc; lia. Qed.
#[local] Instance id_desc_total : Total id_desc.
Proof. intros x y; unfold id_desc; lia. Qed.

Lemma StronglySorted_strict (l : list (Z * Row)) :
  StronglySorted id_desc l -> NoDup l.*1 ->
  StronglySorted (fun a b : User => User_ID b < User_ID a) (map scan l).
Proof.
  induction 1 as [|x l Hl IH Hall]; simpl; intros Hnd; [constructor|].
  apply NoDup_cons in Hnd as [Hx Hnd].
  constructor; [auto|].
  apply Forall_map. rewrite Forall_forall in Hall |- *.
  intros y Hy. specialize (Hall y Hy). unfold id_desc in Hall.
  unfold User_ID; simpl.
  assert (y.1 <> x.1).
  { intros E. apply Hx. rewrite <- E. apply list_elem_of_fmap. eauto. }
  lia.
Qed.

Lemma pages_cover (n : nat) :
  (n <= pages_needed n 10 * 10)%nat /\
  (1 + Z.of_nat (pages_needed n 10) - 2) * 10 <= Z.of_nat n.
Proof.
  unfold pages_needed.
  assert (0 <= (Z.of_nat n + 10 - 1) / 10) by (apply Z.div_pos; lia).
  pose proof (Z.mul_div_le (Z.of_nat n + 10 - 1) 10 ltac:(lia)).
  pose proof (Z.mul_succ_div_gt (Z.of_nat n + 10 - 1) 10 ltac:(lia)).
  split; lia.
Qed.

(** ** The fault script *)

Lemma healthy_next_fault d : healthy d -> next_fault d = None.
Proof. unfold healthy, next_fault. intros ->. reflexivity. Qed.

Lemma healthy_logged s d : healthy d -> healthy (logged s d).
Proof. unfold healthy, logged. simpl. intros ->. reflexivity. Qed.

(** ** Records and their rows *)

Lemma scan_columns u : scan (User_ID u, columns u) = u.
Proof. destruct u as [[i c up] n e p s]. reflexivity. Qed.

Lemma merged_ID req u0 t : User_ID (merged req u0 t) = User_ID u0.
Proof.
  unfold merged, service.update_status.
  destruct (update_Status req), (String.eqb (update_Email req) ""),
           (String.eqb (update_Username req) ""); reflexivity.
Qed.

Lemma marshal_User_scrub u : marshal_User (scrub u) = marshal_User u.
Proof. reflexivity. Qed.

Lemma marshal_scrubbed u1 u2 : scrub u1 = scrub u2 -> marshal_User u1 = marshal_User u2.
Proof.
  intros H. rewrite <- (marshal_User_scrub u1), <- (marshal_User_scrub u2), H.
  reflexivity.
Qed.

Lemma marshal_scrubbed_list us1 us2 :
  map scrub us1 = map scrub us2 -> map marshal_User us1 = map marshal_User us2.
Proof.
  revert us2. induction us1 as [|u us1 IH]; intros [|v us2] H;
    try discriminate; [reflexivity|].
  pose proof (f_equal head H) as Hu. pose proof (f_equal tail H) as Hus.
  simpl in Hu, Hus. apply (inj Some) in Hu.
  simpl. f_equal; [apply marshal_scrubbed, Hu | apply IH, Hus].
Qed.

(** ** The engine *)

Section EngineFacts.
Variable sql_like : string -> string -> bool.

(** The primary key selects at most one row. *)
Lemma matching_IdEq (id : Z) (t : gmap Z Row) :
  matching sql_like [IdEq id] t =
  match t !! id with Some r => [(id, r)] | None => [] end.
Proof.
  unfold matching.
  destruct (t !! id) as [r|] eqn:E.
  - apply list_singleton_char.
    + apply NoDup_filter, NoDup_map_to_list.
    + intros [k r']. rewrite list_elem_of_filter, elem_of_map_to_list.
      unfold satisfies; simpl. rewrite andb_true_r.
      split.
      * intros [Hk Hl]. apply Is_true_true, Z.eqb_eq in Hk. simpl in Hk.
        subst k. congruence.
      * intros [= -> ->]. split; [|assumption].
        apply Is_true_true, Z.eqb_eq. reflexivity.
  - apply list_nil_char. intros [k r'].
    rewrite list_elem_of_filter, elem_of_map_to_list.
    unfold satisfies; simpl. rewrite andb_true_r.
    intros [Hk Hl]. apply Is_true_true, Z.eqb_eq in Hk. simpl in Hk.
    subst k. congruence.
Qed.

Lemma NoDup_keys_matching cs (t : gmap Z Row) : NoDup (matching sql_like cs t).*1.
Proof.
  unfold matching.
  apply (sublist_NoDup _ (map_to_list t).*1).
  - apply NoDup_fst_map_to_list.
  - apply fmap_sublist, sublist_filter.
Qed.

Lemma count_username name d :
  (0 <? Z.of_nat (length (matching sql_like [UsernameEq name] (table d)))) = true
  <-> username_taken name d.
Proof.
  unfold matching. rewrite filter_nonempty. unfold username_taken. split.
  - intros ([k r] & Hin & HP). apply elem_of_map_to_list in Hin.
    unfold satisfies in HP; simpl in HP. rewrite andb_true_r in HP.
    apply Is_true_true, String.eqb_eq in HP. eauto.
  - intros (k & r & Hl & Hn). exists (k, r).
    split; [by apply elem_of_map_to_list|].
    unfold satisfies; simpl. rewrite andb_true_r.
    by apply Is_true_true, String.eqb_eq.
Qed.

Lemma count_email email d :
  (0 <? Z.of_nat (length (matching sql_like [EmailEq email] (table d)))) = true
  <-> email_taken email d.
Proof.
  unfold matching. rewrite filter_nonempty. unfold email_taken. split.
  - intros ([k r] & Hin & HP). apply elem_of_map_to_list in Hin.
    unfold satisfies in HP; simpl in HP. rewrite andb_true_r in HP.
    apply Is_true_true, String.eqb_eq in HP. eauto.
  - intros (k & r & Hl & Hn). exists (k, r).
    split; [by apply elem_of_map_to_list|].
    unfold satisfies; simpl. rewrite andb_true_r.
    by apply Is_true_true, String.eqb_eq.
Qed.

Lemma listing_Permutation flt d :
  listing sql_like flt d ≡ₚ matching sql_like (list_conds flt) (table d).
Proof. apply merge_sort_Permutation. Qed.

Lemma listing_sorted flt d :
  StronglySorted (fun a b : User => User_ID b < User_ID a)
                 (map scan (listing sql_like flt d)).
Proof.
  apply StronglySorted_strict.
  - apply StronglySorted_merge_sort; apply _.
  - rewrite listing_Permutation. apply NoDup_keys_matching.
Qed.

End EngineFacts.

Lemma unique_conflict_free (t : gmap Z Row) (r : Row) :
  (forall k r', t !! k = Some r' -> col_username r' <> col_username r) ->
  (forall k r', t !! k = Some r' -> col_email r' <> col_email r) ->
  unique_conflict t r = None.
Proof.
  intros Hu He. unfold unique_conflict.
  assert (existsb (fun kr : Z * Row => String.eqb (col_username kr.2) (col_username r))
                  (map_to_list t) = false) as ->.
  { apply existsb_false_iff. intros [k r'] Hin. apply elem_of_map_to_list in Hin.
    simpl. apply String.eqb_neq. eauto. }
  assert (existsb (fun kr : Z * Row => String.eqb (col_email kr.2) (col_email r))
                  (map_to_list t) = false) as ->.
  { apply existsb_false_iff. intros [k r'] Hin. apply elem_of_map_to_list in Hin.
    simpl. apply String.eqb_neq. eauto. }
  reflexivity.
Qed.

(** Rewriting a row with the username and the email it has meets no
    constraint. *)
Lemma unique_rows_self (t : gmap Z Row) (id : Z) (r0 r : Row) :
  unique_rows t -> t !! id = Some r0 ->
  col_username r = col_username r0 -> col_email r = col_email r0 ->
  unique_conflict (delete id t) r = None.
Proof.
  intros Hu Hrow Hn He. apply unique_conflict_free.
  - intros k r' Hk. apply lookup_delete_Some in Hk as [Hne Hk].
    rewrite Hn. apply (Hu k id r' r0 Hk Hrow). congruence.
  - intros k r' Hk. apply lookup_delete_Some in Hk as [Hne Hk].
    rewrite He. apply (Hu k id r' r0 Hk Hrow). congruence.
Qed.

(** Deciding whether a name or an address is taken, for running examples. *)
Lemma username_taken_decide name d :
  username_taken name d <->
  existsb (fun kr : Z * Row => String.eqb (col_username kr.2) name)
          (map_to_list (table d)) = true.
Proof.
  unfold username_taken. rewrite existsb_exists. split.
  - intros (k & r & Hl & Hn). exists (k, r). split.
    + apply list_elem_of_In, elem_of_map_to_list, Hl.
    + simpl. by apply String.eqb_eq.
  - intros ([k r] & Hin & Hn). apply list_elem_of_In, elem_of_map_to_list in Hin.
    apply String.eqb_eq in Hn. eauto.
Qed.

Lemma email_taken_decide email d :
  email_taken email d <->
  existsb (fun kr : Z * Row => String.eqb (col_email kr.2) email)
          (map_to_list (table d)) = true.
Proof.
  unfold email_taken. rewrite existsb_exists. split.
  - intros (k & r & Hl & Hn). exists (k, r). split.
    + apply list_elem_of_In, elem_of_map_to_list, Hl.
    + simpl. by apply String.eqb_eq.
  - intros ([k r] & Hin & Hn). apply list_elem_of_In, elem_of_map_to_list in Hin.
    apply String.eqb_eq in Hn. eauto.
Qed.

(** ** The repositories, statement by statement *)

Section RepositoryFacts.
Variable sql_like : string -> string -> bool.

Lemma fetch_state cs d :
  (repository.fetch sql_like cs d).2 =
  logged (QSelect cs (Some OrderIdAsc) (Some 1) None) d.
Proof.
  unfold repository.fetch, gorm.First, db_select, bind, issue, ret. simpl.
  destruct (next_fault d); reflexivity.
Qed.

Lemma fetch_fault cs d e :
  next_fault d = Some e ->
  repository.fetch sql_like cs d =
    (Fail (Wrapf "获取用户失败" (Driver e)),
     logged (QSelect cs (Some OrderIdAsc) (Some 1) None) d).
Proof.
  intros Hf. unfold repository.fetch, gorm.First, db_select, bind, issue, ret.
  simpl. rewrite Hf. reflexivity.
Qed.

Lemma GetByID_eq id d :
  repository.GetByID sql_like id d =
  (match next_fault d with
   | Some e => Fail (Wrapf "获取用户失败" (Driver e))
   | None => match table d !! id with
             | Some r => Done (scan (id, r))
             | None => Fail (Errorf "用户不存在")
             end
   end, logged (by_id id) d).
Proof.
  unfold repository.GetByID, repository.fetch, gorm.First, db_select,
    bind, issue, ret, by_id. simpl.
  destruct (next_fault d); [reflexivity|]. simpl.
  rewrite matching_IdEq. destruct (table d !! id); reflexivity.
Qed.

Lemma pgx_GetByID_eq id d :
  repository_pgx.GetByID sql_like id d =
  (match next_fault d with
   | Some e => Fail (Wrapf "获取用户失败" (Driver e))
   | None => match table d !! id with
             | Some r => Done (scan (id, r))
             | None => Fail (Wrapf "获取用户失败" pgx.ErrNoRows)
             end
   end, logged (QSelect [IdEq id] None None None) d).
Proof.
  unfold repository_pgx.GetByID, repository_pgx.fetch, pgx.QueryRow, db_select,
    bind, issue, ret.
  simpl. destruct (next_fault d); [reflexivity|]. simpl.
  rewrite matching_IdEq. destruct (table d !! id); reflexivity.
Qed.

Lemma ExistsByUsername_eq name d :
  repository.ExistsByUsername sql_like name d =
  (match next_fault d with
   | Some e => Fail (Wrapf "检查用户名失败" (Driver e))
   | None =>
       Done (0 <? Z.of_nat (length (matching sql_like [UsernameEq name] (table d))))
   end, logged (QCount [UsernameEq name]) d).
Proof.
  unfold repository.ExistsByUsername, gorm.Count, db_count, bind, issue, ret.
  simpl. destruct (next_fault d); reflexivity.
Qed.

Lemma ExistsByEmail_eq email d :
  repository.ExistsByEmail sql_like email d =
  (match next_fault d with
   | Some e => Fail (Wrapf "检查邮箱失败" (Driver e))
   | None =>
       Done (0 <? Z.of_nat (length (matching sql_like [EmailEq email] (table d))))
   end, logged (QCount [EmailEq email]) d).
Proof.
  unfold repository.ExistsByEmail, gorm.Count, db_count, bind, issue, ret.
  simpl. destruct (next_fault d); reflexivity.
Qed.

End RepositoryFacts.

Lemma repository_Create_fresh req h d :
  repository.Create (fresh_user req h) d =
  let row := mkRow (create_Username req) (create_Email req) h UserStatusActive
                   (now d) (now d) in
  let d1 := logged (QInsert None row) d in
  match next_fault d with
  | Some e => (Fail (Wrapf "创建用户失败" (Driver e)), d1)
  | None =>
      let d2 := with_seq d1 (users_id_seq d + 1) in
      match table d !! users_id_seq d with
      | Some _ =>
          (Fail (Wrapf "创建用户失败" (Driver (UniqueViolation "users_pkey"))), d2)
      | None =>
          match unique_conflict (table d) row with
          | Some c => (Fail (Wrapf "创建用户失败" (Driver (UniqueViolation c))), d2)
          | None =>
              (Done (mkUser (mkBaseModel (users_id_seq d) (now d) (now d))
                            (create_Username req) (create_Email req) h
                            UserStatusActive),
               with_table d2 (<[users_id_seq d := row]> (table d)))
          end
      end
  end.
Proof.
  unfold repository.Create, gorm.Create, db_insert, bind, issue, ret, fresh_user.
  simpl. destruct (next_fault d); [reflexivity|]. simpl.
  destruct (table d !! users_id_seq d); [reflexivity|].
  destruct (unique_conflict _ _); reflexivity.
Qed.

Lemma repository_Update_eq u d :
  repository.Update u d =
  let u1 := set_UpdatedAt u (now d) in
  let d1 := logged (save_stmt u (now d)) d in
  match next_fault d with
  | Some e => (Fail (Wrapf "更新用户失败" (Driver e)), d1)
  | None =>
      match table d !! User_ID u with
      | None => (Fail (Errorf "用户不存在"), d1)
      | Some _ =>
          match unique_conflict (delete (User_ID u) (table d)) (columns u1) with
          | Some c => (Fail (Wrapf "更新用户失败" (Driver (UniqueViolation c))), d1)
          | None => (Done u1, with_table d1 (<[User_ID u := columns u1]> (table d)))
          end
      end
  end.
Proof.
  unfold repository.Update, gorm.Save, db_update, bind, issue, ret, save_stmt.
  destruct u as [[i c up] n e p s].
  unfold columns, set_UpdatedAt, User_ID, User_CreatedAt, User_UpdatedAt. simpl.
  destruct (next_fault d); [reflexivity|]. simpl.
  destruct (table d !! i); [|reflexivity]. simpl.
  destruct (unique_conflict _ _); reflexivity.
Qed.

Lemma repository_Delete_eq id d :
  repository.Delete id d =
  (match next_fault d with
   | Some e => Some (Wrapf "删除用户失败" (Driver e))
   | None => match table d !! id with
             | Some _ => None
             | None => Some (Errorf "用户不存在")
             end
   end,
   match next_fault d, table d !! id with
   | None, Some _ => with_table (logged (QDelete id) d) (delete id (table d))
   | _, _ => logged (QDelete id) d
   end).
Proof.
  unfold repository.Delete, gorm.Delete, db_delete, bind, issue, ret. simpl.
  destruct (next_fault d); [reflexivity|].
  destruct (table d !! id); reflexivity.
Qed.

(** The pgx version does not look at the number of rows deleted. *)
Lemma pgx_Delete_eq id d :
  repository_pgx.Delete id d =
  (match next_fault d with
   | Some e => Some (Driver e)
   | None => None
   end,
   match next_fault d, table d !! id with
   | None, Some _ => with_table (logged (QDelete id) d) (delete id (table d))
   | _, _ => logged (QDelete id) d
   end).
Proof.
  unfold repository_pgx.Delete, db_delete, bind, issue, ret. simpl.
  destruct (next_fault d); [reflexivity|].
  destruct (table d !! id); reflexivity.
Qed.

(** ** Store invariants *)

Lemma consistent_empty t0 : consistent (empty_store t0).
Proof.
  split; [|split].
  - intros i j ri rj Hi. simpl in Hi. rewrite lookup_empty in Hi. discriminate.
  - intros k [r Hk]. simpl in Hk. rewrite lookup_empty in Hk. discriminate.
  - intros k r Hk. simpl in Hk. rewrite lookup_empty in Hk. discriminate.
Qed.

Lemma consistent_same d d' :
  table d' = table d -> users_id_seq d <= users_id_seq d' -> now d <= now d' ->
  consistent d -> consistent d'.
Proof.
  intros Ht Hs Hn (Hu & Hk & Hc). split; [|split]; rewrite Ht; [exact Hu| |].
  - intros k Hsome. specialize (Hk k Hsome). lia.
  - intros k r Hr. specialize (Hc k r Hr). lia.
Qed.

Lemma unique_conflict_None (t : gmap Z Row) (r : Row) :
  unique_conflict t r = None ->
  forall k r', t !! k = Some r' ->
    col_username r' <> col_username r /\ col_email r' <> col_email r.
Proof.
  unfold unique_conflict. intros H k r' Hk.
  destruct (existsb _ _) eqn:E1; [discriminate|].
  destruct (existsb (fun kr : Z * Row => String.eqb (col_email kr.2) (col_email r)) _) eqn:E2;
    [discriminate|].
  rewrite existsb_false_iff in E1, E2.
  assert ((k, r') ∈ map_to_list t) as Hin by (by apply elem_of_map_to_list).
  specialize (E1 _ Hin). specialize (E2 _ Hin). simpl in E1, E2.
  apply String.eqb_neq in E1, E2. auto.
Qed.

Lemma unique_rows_insert (t : gmap Z Row) (k : Z) (r : Row) :
  unique_rows t -> unique_conflict (delete k t) r = None ->
  unique_rows (<[k := r]> t).
Proof.
  intros Hu Hc i j ri rj Hi Hj Hne.
  pose proof (unique_conflict_None _ _ Hc) as Hfree.
  apply lookup_insert_Some in Hi as [[<- <-] | [Hik Hi]];
  apply lookup_insert_Some in Hj as [[<- <-] | [Hjk Hj]].
  - congruence.
  - destruct (Hfree j rj) as [H1 H2]; [apply lookup_delete_Some; auto|].
    split; congruence.
  - destruct (Hfree i ri) as [H1 H2]; [apply lookup_delete_Some; auto|].
    split; congruence.
  - exact (Hu i j ri rj Hi Hj Hne).
Qed.

Lemma unique_rows_delete (t : gmap Z Row) (k : Z) :
  unique_rows t -> unique_rows (delete k t).
Proof.
  intros Hu i j ri rj Hi Hj Hne.
  apply lookup_delete_Some in Hi as [_ Hi]. apply lookup_delete_Some in Hj as [_ Hj].
  exact (Hu i j ri rj Hi Hj Hne).
Qed.

Section EngineInvariant.
Variable sql_like : string -> string -> bool.

Lemma db_select_consistent cs o l f d :
  consistent d -> consistent (db_select sql_like cs o l f d).2.
Proof.
  intros H. unfold db_select, bind, issue. simpl.
  destruct (next_fault d); [|destruct (_ || _)]; simpl;
    (eapply consistent_same; [| | |exact H]; simpl; [reflexivity|lia|lia]).
Qed.

Lemma db_count_consistent cs d :
  consistent d -> consistent (db_count sql_like cs d).2.
Proof.
  intros H. unfold db_count, bind, issue. simpl.
  destruct (next_fault d); simpl;
    (eapply consistent_same; [| | |exact H]; simpl; [reflexivity|lia|lia]).
Qed.

Lemma db_insert_consistent r d :
  col_updated_at r <= now d ->
  consistent d -> consistent (db_insert None r d).2.
Proof.
  intros Hr (Hu & Hk & Hc). unfold db_insert, bind, issue. simpl.
  destruct (next_fault d); simpl; [split; [|split]; assumption|].
  destruct (table d !! users_id_seq d) eqn:E; simpl.
  { split; [exact Hu|]. split; [|exact Hc].
    simpl. intros k Hs. specialize (Hk k Hs). lia. }
  destruct (unique_conflict (table d) r) eqn:Hcf; simpl.
  { split; [exact Hu|]. split; [|exact Hc].
    simpl. intros k Hs. specialize (Hk k Hs). lia. }
  split; [|split]; simpl.
  - apply unique_rows_insert; [exact Hu|].
    rewrite delete_id by exact E. exact Hcf.
  - intros k Hs. apply lookup_insert_is_Some in Hs as [<- | [_ Hs]]; [lia|].
    specialize (Hk k Hs). lia.
  - intros k r' Hr'. apply lookup_insert_Some in Hr' as [[<- <-] | [_ Hr']];
      [exact Hr | exact (Hc k r' Hr')].
Qed.

Lemma db_update_consistent id sets d :
  consistent d -> consistent (db_update id sets d).2.
Proof.
  intros (Hu & Hk & Hc). unfold db_update, bind, issue. simpl.
  destruct (next_fault d); simpl; [split; [|split]; assumption|].
  destruct (table d !! id) eqn:E; simpl; [|split; [|split]; assumption].
  destruct (unique_conflict _ _) eqn:Hcf; simpl; [split; [|split]; assumption|].
  split; [|split]; simpl.
  - apply unique_rows_insert; assumption.
  - intros k Hs. apply lookup_insert_is_Some in Hs as [<- | [_ Hs]];
      [apply Hk; eauto | apply Hk, Hs].
  - intros k r' Hr'. apply lookup_insert_Some in Hr' as [[<- <-] | [_ Hr']];
      [simpl; lia | exact (Hc k r' Hr')].
Qed.

Lemma db_delete_consistent id d :
  consistent d -> consistent (db_delete id d).2.
Proof.
  intros (Hu & Hk & Hc). unfold db_delete, bind, issue. simpl.
  destruct (next_fault d); simpl; [split; [|split]; assumption|].
  destruct (table d !! id) eqn:E; simpl; [|split; [|split]; assumption].
  split; [|split]; simpl.
  - apply unique_rows_delete, Hu.
  - intros k Hs. apply Hk. destruct Hs as [r1 Hs].
    apply lookup_delete_Some in Hs as [_ Hs]. eauto.
  - intros k r' Hr'. apply lookup_delete_Some in Hr' as [_ Hr'].
    exact (Hc k r' Hr').
Qed.

End EngineInvariant.

Lemma consistent_seq_free d : consistent d -> table d !! users_id_seq d = None.
Proof.
  intros (_ & Hk & _). destruct (table d !! users_id_seq d) eqn:E; [|reflexivity].
  exfalso. assert (users_id_seq d < users_id_seq d) by (apply Hk; eauto). lia.
Qed.

Lemma consistent_tick dt d : 0 <= dt -> consistent d -> consistent (tick dt d).
Proof.
  intros Hdt H. apply (consistent_same d); [reflexivity|simpl; lia|simpl; lia|exact H].
Qed.

(** Once time has passed, the clock reads later than every stored
    [updated_at]. *)
Lemma clock_past_stored dt d id u :
  consistent d -> 0 < dt -> stored (tick dt d) id = Some u ->
  User_UpdatedAt u < now (tick dt d).
Proof.
  intros (_ & _ & Hc) Hdt. unfold stored. simpl.
  destruct (table d !! id) as [r|] eqn:E; [|discriminate].
  intros [= <-]. specialize (Hc id r E). unfold User_UpdatedAt. simpl. lia.
Qed.

Section ServiceInvariant.
Variable sql_like : string -> string -> bool.
Variable GenerateFromPassword : string -> Z -> result string.
#[local] Abbreviation repo := (repository.NewUserRepository sql_like).

Lemma fetch_consistent cs d :
  consistent d -> consistent (repository.fetch sql_like cs d).2.
Proof.
  intros H. unfold repository.fetch, gorm.First, bind, ret.
  pose proof (db_select_consistent sql_like cs (Some OrderIdAsc) (Some 1) None d H) as H'.
  destruct (db_select _ _ _ _ _ d) as [r d']. exact H'.
Qed.

Lemma Count_consistent cs d :
  consistent d -> consistent (gorm.Count sql_like cs d).2.
Proof.
  intros H. unfold gorm.Count, bind, ret.
  pose proof (db_count_consistent sql_like cs d H) as H'.
  destruct (db_count _ _ d) as [r d']. exact H'.
Qed.

Lemma repository_Create_consistent req h d :
  consistent d -> consistent (repository.Create (fresh_user req h) d).2.
Proof.
  intros H. unfold repository.Create, gorm.Create, bind, ret, fresh_user. simpl.
  match goal with |- context [db_insert None ?r d] =>
    pose proof (db_insert_consistent r d (Z.le_refl _) H) as H';
    destruct (db_insert None r d) as [[k|e] d'] end; exact H'.
Qed.

Lemma repository_Update_consistent u d :
  consistent d -> consistent (repository.Update u d).2.
Proof.
  intros H. unfold repository.Update, gorm.Save, bind, ret.
  match goal with |- context [db_update ?i ?s d] =>
    pose proof (db_update_consistent i s d H) as H';
    destruct (db_update i s d) as [[k|e] d'] end; exact H'.
Qed.

Lemma repository_Delete_consistent id d :
  consistent d -> consistent (repository.Delete id d).2.
Proof.
  intros H. unfold repository.Delete, gorm.Delete, bind, ret.
  pose proof (db_delete_consistent id d H) as H'.
  destruct (db_delete id d) as [r d']. exact H'.
Qed.

Lemma repository_List_consistent params d :
  consistent d -> consistent (repository.List sql_like params d).2.
Proof.
  intros H. unfold repository.List, bind, ret.
  pose proof (Count_consistent (list_conds params) d H) as H1.
  destruct (gorm.Count sql_like _ d) as [[total|e] d1]; [|exact H1].
  unfold gorm.Find, bind, ret.
  match goal with |- context [db_select sql_like ?cs ?o ?l ?f d1] =>
    pose proof (db_select_consistent sql_like cs o l f d1 H1) as H2;
    destruct (db_select sql_like cs o l f d1) as [r d2] end.
  exact H2.
Qed.

(** X23: every operation of the service keeps the store consistent:
    usernames and emails stay unique, the id sequence stays ahead of every
    key, and no row carries an [updated_at] later than the clock.  Whatever
    the store does. *)
Theorem service_keeps_consistent (d : DB) :
  consistent d ->
  (forall req, consistent (service.Create repo GenerateFromPassword req d).2) /\
  (forall id, consistent (service.GetByID repo id d).2) /\
  (forall params, consistent (service.List repo params d).2) /\
  (forall id req, consistent (service.Update repo id req d).2) /\
  (forall id, consistent (service.Delete repo id d).2).
Proof.
  intros H. split; [|split; [|split; [|split]]].
  - intros req. unfold service.Create, bind, ret. simpl.
    unfold repository.ExistsByUsername, bind, ret.
    pose proof (Count_consistent [UsernameEq (create_Username req)] d H) as H1.
    destruct (gorm.Count sql_like _ d) as [[c|e] d1]; [|exact H1].
    destruct (0 <? c); [exact H1|].
    unfold repository.ExistsByEmail, bind, ret.
    pose proof (Count_consistent [EmailEq (create_Email req)] d1 H1) as H2.
    destruct (gorm.Count sql_like _ d1) as [[c2|e] d2]; [|exact H2].
    destruct (0 <? c2); [exact H2|].
    destruct (GenerateFromPassword _ _) as [h|e]; [|exact H2].
    change (mkUser _ _ _ _ _) with (fresh_user req h).
    pose proof (repository_Create_consistent req h d2 H2) as H3.
    destruct (repository.Create _ d2) as [r d3]. exact H3.
  - intros id. unfold service.GetByID, bind, ret. simpl. unfold repository.GetByID.
    pose proof (fetch_consistent [IdEq id] d H) as H1.
    destruct (repository.fetch sql_like _ d) as [r d1]. exact H1.
  - intros params. apply repository_List_consistent, H.
  - intros id req. unfold service.Update, bind, ret. simpl. unfold repository.GetByID.
    pose proof (fetch_consistent [IdEq id] d H) as H1.
    destruct (repository.fetch sql_like _ d) as [[user|e] d1]; [|exact H1].
    assert (forall u, consistent (service.update_username repo id req u d1).2) as Hn.
    { intros u. unfold service.update_username, bind, ret.
      destruct (String.eqb _ _); [exact H1|]. simpl. unfold repository.GetByUsername.
      pose proof (fetch_consistent [UsernameEq (update_Username req)] d1 H1) as H2.
      destruct (repository.fetch sql_like _ d1) as [r d2]. exact H2. }
    specialize (Hn user).
    destruct (service.update_username repo id req user d1) as [[u1|e] d2]; [|exact Hn].
    assert (forall u, consistent (service.update_email repo id req u d2).2) as He.
    { intros u. unfold service.update_email, bind, ret.
      destruct (String.eqb _ _); [exact Hn|]. simpl. unfold repository.GetByEmail.
      pose proof (fetch_consistent [EmailEq (update_Email req)] d2 Hn) as H2.
      destruct (repository.fetch sql_like _ d2) as [r d3]. exact H2. }
    specialize (He u1).
    destruct (service.update_email repo id req u1 d2) as [[u2|e] d3]; [|exact He].
    pose proof (repository_Update_consistent (service.update_status req u2) d3 He) as H4.
    destruct (repository.Update _ d3) as [r d4]. exact H4.
  - intros id. unfold service.Delete, bind, ret. simpl. unfold repository.GetByID.
    pose proof (fetch_consistent [IdEq id] d H) as H1.
    destruct (repository.fetch sql_like _ d) as [[user|e] d1]; [|exact H1].
    apply repository_Delete_consistent, H1.
Qed.
End ServiceInvariant.

(** The scenario of the spec, run from an empty store. *)
Example scenario :
  let repo := repository.NewUserRepository pg_like in
  let d0 := empty_store 1000 in
  let (a, d1) := service.Create repo toy_hash
                   (mkCreateUserRequest "alice" "a@x.com" "secret1") d0 in
  let (b, d2) := service.Create repo toy_hash
                   (mkCreateUserRequest "alice" "b@x.com" "secret2") (tick 5 d1) in
  let (c, d3) := service.Update repo 1 (mkUpdateUserRequest "" "" (Some 2)) (tick 5 d2) in
  let (e, d4) := service.Delete repo 1 (tick 5 d3) in
  let (g, d5) := service.GetByID repo 1 (tick 5 d4) in
  a = Done (mkUser (mkBaseModel 1 1000 1000) "alice" "a@x.com"
                   "$2a$10$hash-of-secret1" UserStatusActive) /\
  b = Fail service.ErrUserAlreadyExists /\
  c = Done (mkUser (mkBaseModel 1 1000 1010) "alice" "a@x.com"
                   "$2a$10$hash-of-secret1" UserStatusBanned) /\
  e = None /\
  g = Fail service.ErrUserNotFound.
Proof. vm_compute. repeat split. Qed.

(** ** Listing: pagination and totals *)

Lemma list_conds_with_page flt p s : list_conds (with_page flt p s) = list_conds flt.
Proof. reflexivity. Qed.

Lemma clause_not_negative n : negative (gorm.clause n) = false.
Proof.
  unfold gorm.clause. destruct (0 <? n) eqn:E; simpl; [|reflexivity].
  apply Z.ltb_lt in E. apply Z.ltb_ge. lia.
Qed.

Lemma window_clause (limit offset : Z) (l : list (Z * Row)) :
  0 < limit ->
  window (gorm.clause limit) (gorm.clause offset) l =
  take (Z.to_nat limit) (drop (Z.to_nat offset) l).
Proof.
  intros Hl. unfold window, gorm.clause.
  apply Z.ltb_lt in Hl. rewrite Hl.
  destruct (0 <? offset) eqn:E; [reflexivity|].
  apply Z.ltb_ge in E. replace (Z.to_nat offset) with 0%nat by lia. reflexivity.
Qed.

Lemma list_pageSize_pos params : 1 <= list_pageSize params.
Proof.
  unfold list_pageSize. destruct (PageSize params <? 1) eqn:E; [lia|].
  apply Z.ltb_ge in E. lia.
Qed.

Lemma list_page_pos params : 1 <= list_page params.
Proof.
  unfold list_page. destruct (Page params <? 1) eqn:E; [lia|].
  apply Z.ltb_ge in E. lia.
Qed.

Lemma list_offset_exact params :
  int64_range (Page params) ->
  (list_page params - 1) * list_pageSize params <= max_int64 ->
  list_offset params = (list_page params - 1) * list_pageSize params.
Proof.
  intros Hp Hfit. unfold list_offset.
  pose proof (list_page_pos params) as H1.
  pose proof (list_pageSize_pos params) as H2.
  assert (int64_range (list_page params - 1)) as Hr.
  { unfold list_page in *. unfold int64_range, min_int64, max_int64 in *.
    destruct (Page params <? 1); lia. }
  rewrite (wrap64_id _ Hr). apply wrap64_id.
  unfold int64_range, min_int64, max_int64 in *. nia.
Qed.

Lemma offset_page flt k :
  1 <= k -> (k - 1) * 10 <= max_int64 ->
  list_offset (with_page flt k 10) = (k - 1) * 10.
Proof.
  intros Hk Hfit.
  rewrite list_offset_exact.
  - unfold list_page, list_pageSize; simpl.
    replace (k <? 1) with false by (symmetry; apply Z.ltb_ge; lia). reflexivity.
  - simpl. unfold int64_range, min_int64, max_int64 in *. lia.
  - unfold list_page, list_pageSize; simpl.
    replace (k <? 1) with false by (symmetry; apply Z.ltb_ge; lia).
    simpl. exact Hfit.
Qed.

Section ListFacts.
Variable sql_like : string -> string -> bool.

Lemma repository_List_healthy params d :
  healthy d ->
  repository.List sql_like params d =
  (Done (map scan (take (Z.to_nat (list_pageSize params))
                        (drop (Z.to_nat (list_offset params))
                              (listing sql_like params d))),
         Z.of_nat (length (matching sql_like (list_conds params) (table d)))),
   logged (QSelect (list_conds params) (Some OrderIdDesc)
                   (gorm.clause (list_pageSize params))
                   (gorm.clause (list_offset params)))
     (logged (QCount (list_conds params)) d)).
Proof.
  intros Hh.
  unfold repository.List, gorm.Count, gorm.Find, db_count, db_select,
    bind, issue, ret. simpl.
  rewrite (healthy_next_fault _ Hh). simpl.
  rewrite (healthy_next_fault _ (healthy_logged _ _ Hh)). simpl.
  rewrite !clause_not_negative. simpl.
  rewrite window_clause by (pose proof (list_pageSize_pos params); lia).
  reflexivity.
Qed.

Lemma pgx_List_healthy params d :
  healthy d ->
  0 <= list_offset params ->
  repository_pgx.List sql_like params d =
  (Done (map scan (take (Z.to_nat (list_pageSize params))
                        (drop (Z.to_nat (list_offset params))
                              (listing sql_like params d))),
         Z.of_nat (length (matching sql_like (list_conds params) (table d)))),
   logged (QSelect (list_conds params) (Some OrderIdDesc)
                   (Some (list_pageSize params)) (Some (list_offset params)))
     (logged (QCount (list_conds params)) d)).
Proof.
  intros Hh Hoff.
  unfold repository_pgx.List, db_count, db_select, bind, issue, ret. simpl.
  rewrite (healthy_next_fault _ Hh). simpl.
  rewrite (healthy_next_fault _ (healthy_logged _ _ Hh)). simpl.
  pose proof (list_pageSize_pos params).
  replace (list_pageSize params <? 0) with false by (symmetry; apply Z.ltb_ge; lia).
  replace (list_offset params <? 0) with false by (symmetry; apply Z.ltb_ge; lia).
  reflexivity.
Qed.


End ListFacts.



(** The handler's binding rule is what keeps such a request out. *)
Example binding_rejects_101 :
  binding_UserQueryParams (mkUserQueryParams "" "" None 1 101) = false.
Proof. reflexivity. Qed.

(** The product of the offset is Go's: page 2^62 + 1 with page size 4 passes
    the binding rule and wraps to offset 0. *)
Example list_offset_wraps :
  binding_UserQueryParams (with_page no_filter (2 ^ 62 + 1) 4) = true /\
  list_offset (with_page no_filter (2 ^ 62 + 1) 4) = 0.
Proof. split; reflexivity. Qed.

(** ** Listing: the filter *)

Lemma starts_with_empty s : starts_with "" s = true.
Proof. destruct s; reflexivity. Qed.

Lemma contains_empty s : contains "" s = true.
Proof. destruct s; reflexivity. Qed.

Lemma list_ascii_of_string_app a b :
  list_ascii_of_string (a +:+ b) = list_ascii_of_string a ++ list_ascii_of_string b.
Proof. induction a as [|c a IH]; simpl; [reflexivity|by rewrite IH]. Qed.

Lemma like_match_percent s : like_match ["%"%char] s = true.
Proof. induction s as [|c s IH]; [reflexivity|]. simpl in *. exact IH. Qed.

(** A pattern [q%] with nothing to interpret in [q] matches the subjects
    that start with [q]. *)
Lemma like_match_plain q s :
  plain q = true ->
  like_match (list_ascii_of_string q ++ ["%"%char]) (list_ascii_of_string s)
  = starts_with q s.
Proof.
  revert s. induction q as [|c q IH]; intros s Hp.
  - rewrite starts_with_empty. apply like_match_percent.
  - simpl in Hp. apply andb_true_iff in Hp as [Hc Hq].
    apply negb_true_iff in Hc. unfold like_special in Hc.
    apply orb_false_iff in Hc as [Hc H3]. apply orb_false_iff in Hc as [H1 H2].
    cbn [list_ascii_of_string app like_match]. rewrite H1, H2, H3.
    destruct s as [|c' s]; [reflexivity|].
    cbn [list_ascii_of_string starts_with]. by rewrite IH.
Qed.

(** [pg_like] on [%q%], with nothing to interpret in [q], is containment. *)
Lemma pg_like_contains : like_contains pg_like.
Proof.
  intros q s Hp. unfold pg_like.
  change ("%" +:+ q +:+ "%")%string with (String "%" (q +:+ "%")).
  cbn [list_ascii_of_string]. rewrite list_ascii_of_string_app.
  change (list_ascii_of_string "%") with ["%"%char].
  pose proof (fun s => like_match_plain q s Hp) as H.
  induction s as [|c s IH].
  - specialize (H ""%string). cbn [list_ascii_of_string] in H.
    cbn [list_ascii_of_string like_match]. change (Ascii.eqb "%" "%") with true.
    cbv iota. rewrite H. simpl. by rewrite orb_false_r.
  - specialize (H (String c s)). cbn [list_ascii_of_string] in H.
    cbn [list_ascii_of_string like_match contains] in *.
    change (Ascii.eqb "%" "%") with true in *. cbv iota in *.
    rewrite <- IH, <- H. reflexivity.
Qed.

Lemma columns_scan kr : columns (scan kr) = kr.2.
Proof. destruct kr as [k [n e p s c u]]. reflexivity. Qed.

Lemma elem_of_spec_filtered flt (t : gmap Z Row) k r :
  (k, r) ∈ spec_filtered flt t <-> t !! k = Some r /\ spec_filter flt r = true.
Proof.
  unfold spec_filtered. rewrite list_elem_of_filter, elem_of_map_to_list.
  simpl. rewrite Is_true_true. tauto.
Qed.

Section FilterFacts.
Variable sql_like : string -> string -> bool.

(** The WHERE clause the repositories build asks what [like_filter] says. *)
Lemma satisfies_like_filter params kr :
  satisfies sql_like (list_conds params) kr = like_filter sql_like params kr.2.
Proof.
  unfold satisfies, list_conds, like_filter. rewrite !forallb_app.
  destruct (String.eqb (query_Username params) ""),
           (String.eqb (query_Email params) ""),
           (query_Status params); simpl; rewrite ?andb_true_r, ?andb_assoc; reflexivity.
Qed.

Lemma matching_like_filter params t :
  matching sql_like (list_conds params) t =
  filter (fun kr => like_filter sql_like params kr.2) (map_to_list t).
Proof.
  unfold matching. apply list_filter_iff. intros kr.
  by rewrite satisfies_like_filter.
Qed.

(** For a filter with nothing for [LIKE] to interpret, the conditions of
    the listing select what the documented filter selects. *)
Lemma like_filter_spec flt r :
  like_contains sql_like ->
  plain (query_Username flt) = true -> plain (query_Email flt) = true ->
  like_filter sql_like flt r = spec_filter flt r.
Proof.
  intros Hl Hu He. unfold like_filter, spec_filter.
  rewrite (Hl _ _ Hu), (Hl _ _ He).
  destruct (String.eqb (query_Username flt) "") eqn:E1.
  - apply String.eqb_eq in E1. rewrite E1, contains_empty. simpl.
    destruct (String.eqb (query_Email flt) "") eqn:E2; [|reflexivity].
    apply String.eqb_eq in E2. rewrite E2, contains_empty. reflexivity.
  - simpl. destruct (String.eqb (query_Email flt) "") eqn:E2; [|reflexivity].
    apply String.eqb_eq in E2. rewrite E2, contains_empty. reflexivity.
Qed.

Lemma matching_spec_filtered flt t :
  like_contains sql_like ->
  plain (query_Username flt) = true -> plain (query_Email flt) = true ->
  matching sql_like (list_conds flt) t = spec_filtered flt t.
Proof.
  intros Hl Hu He. rewrite matching_like_filter. unfold spec_filtered.
  apply list_filter_iff. intros kr. by rewrite like_filter_spec.
Qed.

End FilterFacts.

(** ** Listing: paging through the whole filtered set *)

Section PagingFacts.
Variable sql_like : string -> string -> bool.

Lemma gorm_pages_well flt t : pages_well sql_like (repository.List sql_like) flt t.
Proof.
  intros k d Hh Ht Hk Hfit.
  rewrite (repository_List_healthy sql_like _ d Hh).
  eexists. split; [|split].
  - rewrite (offset_page flt k Hk Hfit). unfold listing.
    rewrite list_conds_with_page, Ht. reflexivity.
  - apply healthy_logged, healthy_logged, Hh.
  - exact Ht.
Qed.

Lemma pgx_pages_well flt t : pages_well sql_like (repository_pgx.List sql_like) flt t.
Proof.
  intros k d Hh Ht Hk Hfit.
  rewrite (pgx_List_healthy sql_like _ d Hh)
    by (rewrite (offset_page flt k Hk Hfit); lia).
  eexists. split; [|split].
  - rewrite (offset_page flt k Hk Hfit). unfold listing.
    rewrite list_conds_with_page, Ht. reflexivity.
  - apply healthy_logged, healthy_logged, Hh.
  - exact Ht.
Qed.

(** [n] consecutive pages from page [k] on: their concatenation is a
    segment of the listing. *)
Lemma fetch_pages_concat List flt t :
  pages_well sql_like List flt t ->
  forall n k d, healthy d -> table d = t -> 1 <= k ->
    (k + Z.of_nat n - 2) * 10 <= max_int64 ->
    exists rs d',
      fetch_pages List flt 10 k n d = (rs, d') /\
      table d' = t /\
      length rs = n /\
      Forall (fun r => page_total r =
                Some (Z.of_nat (length (matching sql_like (list_conds flt) t)))) rs /\
      concat (map page_users rs) =
        map scan (take (n * 10)
                    (drop (Z.to_nat ((k - 1) * 10))
                       (merge_sort id_desc (matching sql_like (list_conds flt) t)))).
Proof.
  intros Hwell. induction n as [|n IH]; intros k d Hh Ht Hk Hfit.
  - exists [], d. simpl. repeat split; auto.
  - simpl. unfold bind.
    destruct (Hwell k d Hh Ht Hk) as (d1 & E1 & Hh1 & Ht1); [lia|].
    rewrite E1.
    destruct (IH (k + 1) d1 Hh1 Ht1) as (rs & d2 & E2 & Ht2 & Hlen & Hall & Hcat);
      [lia|lia|].
    rewrite E2. unfold ret.
    eexists _, _. split; [reflexivity|]. split; [exact Ht2|].
    split; [simpl; congruence|].
    split; [constructor; [reflexivity|exact Hall]|].
    simpl. rewrite Hcat, <- map_app. f_equal.
    replace (Z.to_nat ((k + 1 - 1) * 10)) with (Z.to_nat ((k - 1) * 10) + 10)%nat
      by lia.
    rewrite <- drop_drop. apply take_take_drop.
Qed.

(** The pages 1 .. ceil(N/10) of size 10 partition the rows the WHERE
    clause of the listing selects, N of them. *)
Lemma pages_partition_matching (flt : UserQueryParams) (d : DB) :
  healthy d ->
  let rows := matching sql_like (list_conds flt) (table d) in
  let N := length rows in
  Z.of_nat N <= max_int64 ->
  forall List,
    List = repository.List sql_like \/ List = repository_pgx.List sql_like ->
    exists rs d',
      fetch_pages List flt 10 1 (pages_needed N 10) d = (rs, d') /\
      Forall (fun r => page_total r = Some (Z.of_nat N)) rs /\
      let users := concat (map page_users rs) in
      length users = N /\
      NoDup (map User_ID users) /\
      (forall u, u ∈ users <-> exists kr, kr ∈ rows /\ u = scan kr) /\
      StronglySorted (fun a b => User_ID b < User_ID a) users.
Proof.
  intros Hh rows N HN List HList.
  assert (pages_well sql_like List flt (table d)) as Hwell.
  { destruct HList as [-> | ->]; [apply gorm_pages_well | apply pgx_pages_well]. }
  destruct (pages_cover N) as [Hcov Hlast].
  destruct (fetch_pages_concat List flt (table d) Hwell (pages_needed N 10) 1 d
              Hh eq_refl)
    as (rs & d' & E & Ht & Hlen & Hall & Hcat);
    [lia | exact (Z.le_trans _ _ _ Hlast HN) |].
  exists rs, d'. split; [exact E|]. split; [exact Hall|].
  simpl. rewrite Hcat. simpl. rewrite drop_0.
  change (merge_sort id_desc (matching sql_like (list_conds flt) (table d)))
    with (listing sql_like flt d).
  assert (length (listing sql_like flt d) = N) as HlenL.
  { unfold N, rows. rewrite listing_Permutation. reflexivity. }
  rewrite take_ge by lia.
  split; [by rewrite length_map|].
  split.
  - replace (map User_ID (map scan (listing sql_like flt d)))
      with (listing sql_like flt d).*1 by (rewrite map_map; reflexivity).
    rewrite listing_Permutation. apply NoDup_keys_matching.
  - split; [|apply listing_sorted].
    intros u. unfold rows. rewrite list_elem_of_fmap. split.
    + intros (kr & -> & Hin). exists kr. split; [|reflexivity].
      by rewrite <- listing_Permutation.
    + intros (kr & Hin & ->). exists kr. split; [reflexivity|].
      by rewrite listing_Permutation.
Qed.

(** C5: take a filter whose username and email parts hold none of the
    characters [LIKE] interprets, and let N be the number of stored records
    it matches in the documented sense (the username contains the one, the
    email contains the other, the status equals the third).  On a store
    that executes its statements, the pages 1 .. ceil(N/10) of size 10,
    requested one after the other and concatenated, hold exactly N records
    with N distinct ids: every stored record that matches and nothing else,
    in strictly descending order of id; every page reports the total N.
    This holds for both repositories (N within Go's int). *)
Theorem List_pages_partition (flt : UserQueryParams) (d : DB) :
  healthy d ->
  like_contains sql_like ->
  plain (query_Username flt) = true -> plain (query_Email flt) = true ->
  let N := length (spec_filtered flt (table d)) in
  Z.of_nat N <= max_int64 ->
  forall List,
    List = repository.List sql_like \/ List = repository_pgx.List sql_like ->
    exists rs d',
      fetch_pages List flt 10 1 (pages_needed N 10) d = (rs, d') /\
      Forall (fun r => page_total r = Some (Z.of_nat N)) rs /\
      let users := concat (map page_users rs) in
      length users = N /\
      NoDup (map User_ID users) /\
      (forall u, u ∈ users <->
         stored d (User_ID u) = Some u /\ spec_filter flt (columns u) = true) /\
      StronglySorted (fun a b => User_ID b < User_ID a) users.
Proof.
  intros Hh Hl Hu He N HN List HList.
  pose proof (pages_partition_matching flt d Hh) as H. cbv zeta in H.
  rewrite (matching_spec_filtered sql_like flt (table d) Hl Hu He) in H.
  destruct (H HN List HList) as (rs & d' & E & Hall & Hlen & Hnd & Hmem & Hsort).
  exists rs, d'. split; [exact E|]. split; [exact Hall|].
  cbv zeta. split; [exact Hlen|]. split; [exact Hnd|]. split; [|exact Hsort].
  intros u. rewrite Hmem. split.
  - intros ([k r] & Hin & ->). apply elem_of_spec_filtered in Hin as [Hk Hs].
    rewrite columns_scan. split; [|exact Hs].
    unfold stored, User_ID. simpl. by rewrite Hk.
  - intros [Hst Hs]. unfold stored in Hst.
    destruct (table d !! User_ID u) as [r|] eqn:Hk; [|discriminate].
    simpl in Hst. injection Hst as Hu'.
    exists (User_ID u, r). split; [|by rewrite Hu'].
    apply elem_of_spec_filtered. split; [exact Hk|].
    rewrite <- Hu', columns_scan in Hs. exact Hs.
Qed.

End PagingFacts.

(** C5, a run: the 13 accounts of [big_store] whose username contains
    "user1" come back on 2 pages. *)
Lemma List_pages_partition_witness :
  length (spec_filtered user1_filter (table big_store)) = 13%nat /\
  pages_needed 13 10 = 2%nat /\
  exists rs d',
    fetch_pages (repository.List pg_like) user1_filter 10 1 2 big_store = (rs, d') /\
    Forall (fun r => page_total r = Some 13) rs /\
    map User_ID (concat (map page_users rs)) =
      [101; 100; 19; 18; 17; 16; 15; 14; 13; 12; 11; 10; 1] /\
    NoDup (map User_ID (concat (map page_users rs))) /\
    StronglySorted (fun a b => User_ID b < User_ID a) (concat (map page_users rs)).
Proof.
  assert (length (spec_filtered user1_filter (table big_store)) = 13%nat)
    as HN by (vm_compute; reflexivity).
  split; [exact HN|]. split; [reflexivity|].
  pose proof (List_pages_partition pg_like user1_filter big_store eq_refl
                pg_like_contains eq_refl eq_refl) as H.
  cbv zeta in H. rewrite HN in H.
  destruct (H ltac:(vm_compute; discriminate) (repository.List pg_like)
              (or_introl eq_refl))
    as (rs & d' & E & Hall & Hlen & Hnd & _ & Hsort).
  change (pages_needed 13 10) with 2%nat in E.
  exists rs, d'. split; [exact E|]. split; [exact Hall|].
  split; [|split; assumption].
  assert ((fetch_pages (repository.List pg_like) user1_filter 10 1 2 big_store).1 = rs)
    as Hrs by (rewrite E; reflexivity).
  rewrite <- Hrs. vm_compute. reflexivity.
Defined.

(** A filter that holds an underscore is read as a pattern: "l_c" is
    contained in one username of [underscore_store], so that N = 1 and one
    page is asked for, and that page holds two records, "alice" among them,
    and reports a total of 2.  Both repositories do so. *)
Lemma List_wildcard_filter_overmatches :
  spec_filtered underscore_filter (table underscore_store) =
    [(1, mkRow "al_ce" "u@x.com" "$2a$10$hash-of-secret3" 1 90 90)] /\
  pages_needed 1 10 = 1%nat /\
  (fetch_pages (repository.List pg_like) underscore_filter 10 1 1 underscore_store).1 =
    [Done ([mkUser (mkBaseModel 2 100 100) "alice" "a@x.com" "$2a$10$hash-of-secret1" 1;
            mkUser (mkBaseModel 1 90 90) "al_ce" "u@x.com" "$2a$10$hash-of-secret3" 1],
           2)] /\
  (fetch_pages (repository_pgx.List pg_like) underscore_filter 10 1 1
     underscore_store).1 =
  (fetch_pages (repository.List pg_like) underscore_filter 10 1 1 underscore_store).1 /\
  contains "l_c" "alice" = false.
Proof. vm_compute. repeat split. Qed.

(** ** Create *)

Section CreateFacts.
Variable sql_like : string -> string -> bool.
Variable GenerateFromPassword : string -> Z -> result string.

(** C4: on a store that executes its statements, [Create] first counts the
    rows with the requested username and, if there is one, fails with
    [ErrUserAlreadyExists] having issued nothing else; otherwise it counts
    the rows with the requested email and, if there is one, fails with
    [ErrEmailAlreadyUsed]; otherwise it hashes the password with bcrypt at
    [bcrypt.DefaultCost] (10), builds the record with status active and
    hands it to the repository's [Create], whose answer it passes on; on a
    consistent store the record is stored under the next id of the
    sequence.  (That bcrypt is salted and one-way is the library's
    business.) *)
Theorem Create_sequence (d : DB) (req : CreateUserRequest) :
  healthy d ->
  let repo := repository.NewUserRepository sql_like in
  let q1 := QCount [UsernameEq (create_Username req)] in
  let q2 := QCount [EmailEq (create_Email req)] in
  (username_taken (create_Username req) d ->
     service.Create repo GenerateFromPassword req d =
       (Fail service.ErrUserAlreadyExists, logged q1 d)) /\
  (~ username_taken (create_Username req) d ->
   email_taken (create_Email req) d ->
     service.Create repo GenerateFromPassword req d =
       (Fail service.ErrEmailAlreadyUsed, logged q2 (logged q1 d))) /\
  (~ username_taken (create_Username req) d ->
   ~ email_taken (create_Email req) d ->
   forall hashed,
     GenerateFromPassword (create_Password req) bcrypt.DefaultCost = Done hashed ->
     bcrypt.DefaultCost = 10 /\
     Status (fresh_user req hashed) = UserStatusActive /\
     (service.Create repo GenerateFromPassword req d =
        let (r, d') := repo_Create repo (fresh_user req hashed)
                                   (logged q2 (logged q1 d)) in
        (match r with
         | Fail err => Fail (Wrapf "创建用户失败" err)
         | Done u => Done u
         end, d')) /\
     (consistent d ->
        exists d',
          service.Create repo GenerateFromPassword req d =
            (Done (mkUser (mkBaseModel (users_id_seq d) (now d) (now d))
                          (create_Username req) (create_Email req)
                          hashed UserStatusActive), d') /\
          stored d' (users_id_seq d) =
            Some (mkUser (mkBaseModel (users_id_seq d) (now d) (now d))
                         (create_Username req) (create_Email req)
                         hashed UserStatusActive))).
Proof.
  intros Hh repo q1 q2.
  pose proof (healthy_next_fault _ Hh) as Hf.
  pose proof (healthy_next_fault _ (healthy_logged q1 _ Hh)) as Hf1.
  pose proof (healthy_next_fault _ (healthy_logged q2 _ (healthy_logged q1 _ Hh)))
    as Hf2.
  subst repo q1 q2.
  split; [|split].
  - intros Hu. unfold service.Create, bind, ret; simpl.
    rewrite ExistsByUsername_eq, Hf.
    apply (count_username sql_like) in Hu. rewrite Hu. reflexivity.
  - intros Hu He. unfold service.Create, bind, ret; simpl.
    rewrite ExistsByUsername_eq, Hf.
    rewrite <- (count_username sql_like) in Hu. apply not_true_false in Hu.
    rewrite Hu. rewrite ExistsByEmail_eq, Hf1.
    apply (count_email sql_like) in He. simpl. rewrite He. reflexivity.
  - intros Hu He hashed Hhash.
    split; [reflexivity|]. split; [reflexivity|].
    assert (service.Create (repository.NewUserRepository sql_like)
              GenerateFromPassword req d =
            let (r, d') :=
              repository.Create (fresh_user req hashed)
                (logged (QCount [EmailEq (create_Email req)])
                   (logged (QCount [UsernameEq (create_Username req)]) d)) in
            (match r with
             | Fail err => Fail (Wrapf "创建用户失败" err)
             | Done u => Done u
             end, d')) as Heq.
    { unfold service.Create, bind, ret; simpl.
      rewrite ExistsByUsername_eq, Hf.
      pose proof Hu as Hu'. rewrite <- (count_username sql_like) in Hu'.
      apply not_true_false in Hu'. rewrite Hu'.
      rewrite ExistsByEmail_eq, Hf1.
      pose proof He as He'. rewrite <- (count_email sql_like) in He'.
      apply not_true_false in He'. simpl. rewrite He'.
      rewrite Hhash. reflexivity. }
    split; [exact Heq|].
    intros Hcons. pose proof (consistent_seq_free d Hcons) as Hfree. rewrite Heq.
    rewrite repository_Create_fresh. simpl. rewrite Hf2. simpl. rewrite Hfree.
    rewrite unique_conflict_free.
    + eexists. split; [reflexivity|]. unfold stored. simpl.
      rewrite lookup_insert_eq. reflexivity.
    + intros k r' Hk Heq'. apply Hu. exists k, r'. auto.
    + intros k r' Hk Heq'. apply He. exists k, r'. auto.
Qed.

(** C1 (as amended): when both existence checks pass and the insert is then
    refused for a uniqueness violation, [Create] answers the store's error
    wrapped twice in "创建用户失败"; it is neither [ErrUserAlreadyExists] nor
    [ErrEmailAlreadyUsed], nothing is stored, and the handler replies with
    the internal error (500). *)
Theorem Create_constraint_violation_is_generic (d : DB) (req : CreateUserRequest)
    (c hashed : string) (fs : list (option DriverError)) :
  faults d = None :: None :: Some (UniqueViolation c) :: fs ->
  ~ username_taken (create_Username req) d ->
  ~ email_taken (create_Email req) d ->
  GenerateFromPassword (create_Password req) bcrypt.DefaultCost = Done hashed ->
  let repo := repository.NewUserRepository sql_like in
  let err := Wrapf "创建用户失败" (Wrapf "创建用户失败" (Driver (UniqueViolation c))) in
  (exists d', service.Create repo GenerateFromPassword req d = (Fail err, d') /\
              table d' = table d /\ faults d' = fs) /\
  is_AlreadyExists err = false /\
  is_store_error err = true /\
  (handler.Create repo GenerateFromPassword (Done req) d).1 =
    response.ServerError "创建用户失败".
Proof.
  intros Hf Hu He Hhash repo err. subst repo err.
  rewrite <- (count_username sql_like) in Hu. apply not_true_false in Hu.
  rewrite <- (count_email sql_like) in He. apply not_true_false in He.
  assert (service.Create (repository.NewUserRepository sql_like)
            GenerateFromPassword req d =
          (Fail (Wrapf "创建用户失败"
                   (Wrapf "创建用户失败" (Driver (UniqueViolation c)))),
           logged (QInsert None (mkRow (create_Username req) (create_Email req)
                                       hashed UserStatusActive (now d) (now d)))
             (logged (QCount [EmailEq (create_Email req)])
                (logged (QCount [UsernameEq (create_Username req)]) d)))) as Heq.
  { unfold service.Create, bind, ret; simpl.
    rewrite ExistsByUsername_eq. unfold next_fault at 1. rewrite Hf, Hu.
    rewrite ExistsByEmail_eq. unfold next_fault at 1, logged at 1. simpl.
    rewrite Hf. simpl. rewrite He, Hhash.
    change (mkUser _ _ _ _ _) with (fresh_user req hashed).
    rewrite repository_Create_fresh. unfold next_fault, logged. simpl.
    rewrite Hf. reflexivity. }
  split; [|split; [|split]].
  - eexists. split; [exact Heq|]. unfold logged; simpl. rewrite Hf.
    split; reflexivity.
  - reflexivity.
  - reflexivity.
  - unfold handler.Create, bind, ret. rewrite Heq. reflexivity.
Qed.

End CreateFacts.

Lemma alice_is_taken :
  username_taken "alice" store1 /\ email_taken "a@x.com" store1.
Proof. split; exists 1, alice_row; split; reflexivity. Qed.

Lemma bob_is_new :
  forall d, table d = table store1 ->
    ~ username_taken "bob" d /\ ~ email_taken "b@x.com" d /\
    ~ username_taken "zed" d.
Proof.
  intros d Ht. repeat split.
  - rewrite username_taken_decide, Ht. vm_compute. discriminate.
  - rewrite email_taken_decide, Ht. vm_compute. discriminate.
  - rewrite username_taken_decide, Ht. vm_compute. discriminate.
Qed.

Lemma consistent_store1 :
  forall d, table d = table store1 -> users_id_seq d = 2 -> now d = 200 ->
    consistent d.
Proof.
  intros d Ht Hs Hn. split; [|split]; rewrite Ht.
  - intros i j ri rj Hi Hj Hne. simpl in Hi, Hj.
    apply lookup_singleton_Some in Hi as [<- _].
    apply lookup_singleton_Some in Hj as [<- _].
    congruence.
  - intros k [r Hk]. simpl in Hk. apply lookup_singleton_Some in Hk as [<- _].
    rewrite Hs. lia.
  - intros k r Hk. simpl in Hk. apply lookup_singleton_Some in Hk as [_ <-].
    rewrite Hn. simpl. lia.
Qed.

(** C4, three runs on [store1]: a taken username, a taken email under a new
    username, and a new account. *)
Lemma Create_sequence_witness :
  let repo := repository.NewUserRepository pg_like in
  service.Create repo toy_hash (mkCreateUserRequest "alice" "b@x.com" "secret2") store1
    = (Fail service.ErrUserAlreadyExists,
       logged (QCount [UsernameEq "alice"]) store1) /\
  service.Create repo toy_hash (mkCreateUserRequest "zed" "a@x.com" "secret3") store1
    = (Fail service.ErrEmailAlreadyUsed,
       logged (QCount [EmailEq "a@x.com"]) (logged (QCount [UsernameEq "zed"]) store1)) /\
  exists d',
    service.Create repo toy_hash bob_request store1
      = (Done (mkUser (mkBaseModel 2 200 200) "bob" "b@x.com"
                      "$2a$10$hash-of-secret2" UserStatusActive), d') /\
    stored d' 2 = Some (mkUser (mkBaseModel 2 200 200) "bob" "b@x.com"
                               "$2a$10$hash-of-secret2" UserStatusActive).
Proof.
  destruct (bob_is_new store1 eq_refl) as (Hbob & Hmail & Hzed).
  split; [|split].
  - exact (proj1 (Create_sequence pg_like toy_hash store1
                    (mkCreateUserRequest "alice" "b@x.com" "secret2") eq_refl)
                 (proj1 alice_is_taken)).
  - exact (proj1 (proj2 (Create_sequence pg_like toy_hash store1
                    (mkCreateUserRequest "zed" "a@x.com" "secret3") eq_refl))
                 Hzed (proj2 alice_is_taken)).
  - exact (proj2 (proj2 (proj2
             (proj2 (proj2 (Create_sequence pg_like toy_hash store1 bob_request eq_refl))
                    Hbob Hmail "$2a$10$hash-of-secret2"%string eq_refl)))
             (consistent_store1 store1 eq_refl eq_refl eq_refl)).
Defined.

(** C1, a run: "bob" is new to [racing_store], the insert loses the race. *)
Lemma Create_constraint_violation_witness :
  let repo := repository.NewUserRepository pg_like in
  let err := Wrapf "创建用户失败"
               (Wrapf "创建用户失败" (Driver (UniqueViolation "users_username_key"))) in
  (exists d', service.Create repo toy_hash bob_request racing_store = (Fail err, d') /\
              table d' = table racing_store /\ faults d' = []) /\
  is_AlreadyExists err = false /\
  is_store_error err = true /\
  (handler.Create repo toy_hash (Done bob_request) racing_store).1 =
    response.ServerError "创建用户失败".
Proof.
  destruct (bob_is_new racing_store eq_refl) as (Hbob & Hmail & _).
  exact (Create_constraint_violation_is_generic pg_like toy_hash racing_store
           bob_request "users_username_key" "$2a$10$hash-of-secret2" []
           eq_refl Hbob Hmail eq_refl).
Defined.

(** C1 as stated fails: the checks pass, the insert is refused by the
    unique index, and what [Create] answers is not an AlreadyExists error;
    the caller gets a 500. *)
Lemma Create_constraint_violation_not_AlreadyExists :
  let repo := repository.NewUserRepository pg_like in
  ~ username_taken (create_Username bob_request) racing_store /\
  ~ email_taken (create_Email bob_request) racing_store /\
  exists err d',
    service.Create repo toy_hash bob_request racing_store = (Fail err, d') /\
    root_cause err = Driver (UniqueViolation "users_username_key") /\
    err <> service.ErrUserAlreadyExists /\
    err <> service.ErrEmailAlreadyUsed /\
    errors_Is err VarErrUserAlreadyExists = false /\
    errors_Is err VarErrEmailAlreadyUsed = false /\
    (handler.Create repo toy_hash (Done bob_request) racing_store).1.1 = 500.
Proof.
  destruct (bob_is_new racing_store eq_refl) as (Hbob & Hmail & _).
  split; [exact Hbob|]. split; [exact Hmail|].
  eexists _, _. split; [vm_compute; reflexivity|].
  repeat split; discriminate.
Qed.

(** The pre-check, for comparison: the same request against a store that
    already holds "bob" is answered [ErrUserAlreadyExists] and a 400. *)
Example Create_precheck_reply :
  let repo := repository.NewUserRepository pg_like in
  (handler.Create repo toy_hash
     (Done (mkCreateUserRequest "alice" "b@x.com" "secret2")) store1).1
  = response.BadRequest "用户名已存在".
Proof. reflexivity. Qed.

(** ** GetByID *)

(** Whatever the repository reports, the service says [ErrUserNotFound]. *)
Lemma GetByID_error_is_NotFound repo id d :
  match (service.GetByID repo id d).1 with
  | Done _ => True
  | Fail e => e = service.ErrUserNotFound
  end.
Proof.
  unfold service.GetByID, bind, ret.
  destruct (repo_GetByID repo id d) as [[u|e] d']; simpl; auto.
Qed.

(** The direction of C2 that holds: no row, no fault, [ErrUserNotFound]. *)
Lemma GetByID_no_row sql_like id d :
  next_fault d = None -> table d !! id = None ->
  (repository.GetByID sql_like id d).1 = Fail (Errorf "用户不存在") /\
  (service.GetByID (repository.NewUserRepository sql_like) id d).1
    = Fail service.ErrUserNotFound.
Proof.
  intros Hf Hrow. unfold service.GetByID, bind, ret. simpl.
  rewrite GetByID_eq, Hf, Hrow. split; reflexivity.
Qed.

(** C2, where the code departs from it: account 1 exists, the connection
    is down; the repository reports a store failure ("获取用户失败", not its
    "用户不存在"), the service turns it into [ErrUserNotFound] and the
    handler replies 404. *)
Theorem GetByID_outage_reported_NotFound :
  let repo := repository.NewUserRepository pg_like in
  stored outage_store 1 = Some (scan (1, alice_row)) /\
  (repository.GetByID pg_like 1 outage_store).1
    = Fail (Wrapf "获取用户失败" (Driver ConnFailure)) /\
  is_store_error (Wrapf "获取用户失败" (Driver ConnFailure)) = true /\
  (service.GetByID repo 1 outage_store).1 = Fail service.ErrUserNotFound /\
  (handler.Get repo (Done 1) outage_store).1 = response.NotFound "用户不存在".
Proof. repeat split. Qed.

(** ** Delete *)

Section DeleteFacts.
Variable sql_like : string -> string -> bool.

(** What holds of the claim about deleting a missing id.  For an id with
    no record, the service's [Delete] answers [ErrUserNotFound] (never a
    store error), over either repository and whatever the connection does;
    it issues no DELETE and the table is untouched.  The GORM repository's
    own delete, when its statement executes, answers success after removing
    the row, or its not-found error "用户不存在" when no row was deleted. *)
Lemma Delete_nonexistent_NotFound (d : DB) (id : Z) :
  table d !! id = None ->
  (forall repo, repo = repository.NewUserRepository sql_like \/
                repo = repository_pgx.NewUserRepository sql_like ->
     let (r, d') := service.Delete repo id d in
     r = Some service.ErrUserNotFound /\
     is_store_error service.ErrUserNotFound = false /\
     table d' = table d /\
     Forall (fun s => s <> QDelete id) (drop (length (log d)) (log d'))) /\
  (next_fault d = None ->
     let (r, d') := repository.Delete id d in
     r = Some (Errorf "用户不存在") /\
     is_store_error (Errorf "用户不存在") = false /\
     table d' = table d) /\
  (forall d0 id0, next_fault d0 = None ->
     let (r, d') := repository.Delete id0 d0 in
     (r = None /\ is_Some (table d0 !! id0) /\ table d' = delete id0 (table d0)) \/
     (r = Some (Errorf "用户不存在") /\ table d0 !! id0 = None /\
      table d' = table d0)).
Proof.
  intros Hnone. split; [|split].
  - intros repo [-> | ->]; unfold service.Delete, bind, ret; simpl.
    + rewrite GetByID_eq, Hnone. destruct (next_fault d); simpl;
        (repeat split; [rewrite drop_app_length; repeat constructor; discriminate]).
    + rewrite pgx_GetByID_eq, Hnone. destruct (next_fault d); simpl;
        (repeat split; [rewrite drop_app_length; repeat constructor; discriminate]).
  - intros Hf. rewrite repository_Delete_eq, Hf, Hnone. repeat split.
  - intros d0 id0 Hf. rewrite repository_Delete_eq, Hf.
    destruct (table d0 !! id0) eqn:E.
    + left. repeat split. eauto.
    + right. repeat split.
Qed.

End DeleteFacts.

(** A run: account 7 does not exist in [store1]. *)
Lemma Delete_nonexistent_NotFound_run :
  (service.Delete (repository.NewUserRepository pg_like) 7 store1).1
    = Some service.ErrUserNotFound /\
  (service.Delete (repository_pgx.NewUserRepository pg_like) 7 store1).1
    = Some service.ErrUserNotFound /\
  (repository.Delete 7 store1).1 = Some (Errorf "用户不存在").
Proof.
  destruct (Delete_nonexistent_NotFound pg_like store1 7 eq_refl)
    as (Hsvc & Hrepo & _).
  pose proof (Hsvc _ (or_introl eq_refl)) as H1.
  pose proof (Hsvc _ (or_intror eq_refl)) as H2.
  specialize (Hrepo eq_refl).
  destruct (service.Delete (repository.NewUserRepository pg_like) 7 store1).
  destruct (service.Delete (repository_pgx.NewUserRepository pg_like) 7 store1).
  destruct (repository.Delete 7 store1).
  repeat split; [apply H1 | apply H2 | apply Hrepo].
Defined.

(** C7: the pgx repository's [Delete] does not look at the command tag.
    Account 7 does not exist in [store1]; the DELETE executes and removes
    nothing, and the call answers nil, that is success, where the GORM
    repository's [Delete] answers its not-found error.  The service, which
    fetches the record first, answers [ErrUserNotFound] over the pgx
    repository too. *)
Theorem pgx_Delete_missing_row :
  table store1 !! 7 = None /\
  repository_pgx.Delete 7 store1 = (None, logged (QDelete 7) store1) /\
  (repository.Delete 7 store1).1 = Some (Errorf "用户不存在") /\
  (service.Delete (repository_pgx.NewUserRepository pg_like) 7 store1).1
    = Some service.ErrUserNotFound.
Proof. repeat split. Qed.

(** Deleting an account, then asking for it. *)
Example delete_then_get :
  let repo := repository.NewUserRepository pg_like in
  let (r, d1) := service.Delete repo 1 store1 in
  r = None /\ (service.GetByID repo 1 d1).1 = Fail service.ErrUserNotFound.
Proof. vm_compute. split; reflexivity. Qed.

(** ** Update *)

(** Any failed lookup counts as "no conflict", whatever the repository and
    whatever the error. *)
Lemma update_username_lookup_failed repo id req user d err d1 :
  update_Username req <> ""%string ->
  repo_GetByUsername repo (update_Username req) d = (Fail err, d1) ->
  service.update_username repo id req user d =
    (Done (set_Username user (update_Username req)), d1).
Proof.
  intros Hne Hl. unfold service.update_username, bind, ret.
  apply String.eqb_neq in Hne. rewrite Hne, Hl. reflexivity.
Qed.

Lemma update_email_lookup_failed repo id req user d err d1 :
  update_Email req <> ""%string ->
  repo_GetByEmail repo (update_Email req) d = (Fail err, d1) ->
  service.update_email repo id req user d =
    (Done (set_Email user (update_Email req)), d1).
Proof.
  intros Hne Hl. unfold service.update_email, bind, ret.
  apply String.eqb_neq in Hne. rewrite Hne, Hl. reflexivity.
Qed.

Section UpdateFacts.
Variable sql_like : string -> string -> bool.
#[local] Abbreviation repo := (repository.NewUserRepository sql_like).

Lemma update_username_cases id req user d :
  let (r, d1) := service.update_username repo id req user d in
  (r = Fail service.ErrUserAlreadyExists \/
   r = Done (if String.eqb (update_Username req) "" then user
             else set_Username user (update_Username req))) /\
  table d1 = table d /\ now d1 = now d.
Proof.
  unfold service.update_username, bind, ret.
  destruct (String.eqb (update_Username req) ""); [auto|].
  simpl. unfold repository.GetByUsername.
  pose proof (fetch_state sql_like [UsernameEq (update_Username req)] d) as Hs.
  destruct (repository.fetch sql_like _ d) as [r d1]. simpl in Hs. subst d1.
  split; [|auto].
  destruct r as [existing|err]; [|auto].
  destruct (negb (User_ID existing =? id)); auto.
Qed.

Lemma update_email_cases id req user d :
  let (r, d1) := service.update_email repo id req user d in
  (r = Fail service.ErrEmailAlreadyUsed \/
   r = Done (if String.eqb (update_Email req) "" then user
             else set_Email user (update_Email req))) /\
  table d1 = table d /\ now d1 = now d.
Proof.
  unfold service.update_email, bind, ret.
  destruct (String.eqb (update_Email req) ""); [auto|].
  simpl. unfold repository.GetByEmail.
  pose proof (fetch_state sql_like [EmailEq (update_Email req)] d) as Hs.
  destruct (repository.fetch sql_like _ d) as [r d1]. simpl in Hs. subst d1.
  split; [|auto].
  destruct r as [existing|err]; [|auto].
  destruct (negb (User_ID existing =? id)); auto.
Qed.

(** What a successful update answers, and leaves in the store. *)
Lemma Update_success id req d u0 u' d' :
  stored d id = Some u0 ->
  service.Update repo id req d = (Done u', d') ->
  u' = merged req u0 (now d) /\ stored d' id = Some u'.
Proof.
  unfold stored. intros Hst Hup.
  destruct (table d !! id) as [r0|] eqn:Hrow; [|discriminate]. simpl in Hst.
  injection Hst as <-.
  unfold service.Update, bind, ret in Hup. simpl in Hup.
  rewrite GetByID_eq in Hup.
  destruct (next_fault d); [discriminate|]. rewrite Hrow in Hup.
  pose proof (update_username_cases id req (scan (id, r0)) (logged (by_id id) d))
    as H1.
  destruct (service.update_username repo id req _ _) as [r1 d1].
  destruct H1 as ([-> | ->] & Ht1 & Hn1); [discriminate|].
  match type of Hup with context [service.update_email _ _ _ ?u _] =>
    pose proof (update_email_cases id req u d1) as H2 end.
  destruct (service.update_email repo id req _ _) as [r2 d2].
  destruct H2 as ([-> | ->] & Ht2 & Hn2); [discriminate|].
  rewrite repository_Update_eq in Hup. cbv zeta in Hup.
  assert (now d2 = now d) as Hnow by (rewrite Hn2, Hn1; reflexivity).
  rewrite Hnow in Hup.
  change (set_UpdatedAt (service.update_status req _) (now d))
    with (merged req (scan (id, r0)) (now d)) in Hup.
  change (User_ID (service.update_status req _))
    with (User_ID (merged req (scan (id, r0)) 0)) in Hup.
  rewrite merged_ID in Hup. change (User_ID (scan (id, r0))) with id in Hup.
  destruct (next_fault d2); [discriminate|].
  destruct (table d2 !! id); [|discriminate].
  destruct (unique_conflict _ _); [discriminate|].
  injection Hup as <- <-.
  split; [reflexivity|]. simpl. rewrite lookup_insert_eq. simpl. f_equal.
  rewrite <- (scan_columns (merged req (scan (id, r0)) (now d))) at 2.
  rewrite merged_ID. reflexivity.
Qed.

Lemma repository_Update_failure u d e d' :
  repository.Update u d = (Fail e, d') -> table d' = table d.
Proof.
  rewrite repository_Update_eq. cbv zeta.
  destruct (next_fault d); [intros [= <- <-]; reflexivity|].
  destruct (table d !! User_ID u); [|intros [= <- <-]; reflexivity].
  destruct (unique_conflict _ _); [intros [= <- <-]; reflexivity|].
  discriminate.
Qed.

(** A failed update writes nothing. *)
Lemma Update_failure id req d e d' :
  service.Update repo id req d = (Fail e, d') -> table d' = table d.
Proof.
  unfold service.Update, bind, ret. simpl.
  rewrite GetByID_eq.
  destruct (match next_fault d with Some _ => _ | None => _ end) as [user|e0];
    [|intros [= <- <-]; reflexivity].
  pose proof (update_username_cases id req user (logged (by_id id) d)) as H1.
  destruct (service.update_username repo id req _ _) as [r1 d1].
  destruct H1 as (Hr1 & Ht1 & _).
  destruct r1 as [u1|e1]; [|intros [= <- <-]; exact Ht1].
  pose proof (update_email_cases id req u1 d1) as H2.
  destruct (service.update_email repo id req _ _) as [r2 d2].
  destruct H2 as (Hr2 & Ht2 & _).
  destruct r2 as [u2|e2]; [|intros [= <- <-]; rewrite Ht2, Ht1; reflexivity].
  destruct (repository.Update _ d2) as [[u3|e3] d3] eqn:E; [discriminate|].
  intros [= <- <-]. apply repository_Update_failure in E. simpl.
  rewrite E, Ht2, Ht1. reflexivity.
Qed.

(** C10: an update answers either a failure, and then has written nothing,
    or a record whose username is the requested one when the request
    carries a non-empty one and the stored one otherwise (an empty string
    means "no change"), and likewise the email, so that neither can be set
    to the empty string; its status is the requested one whenever one is
    supplied (0 included) and the stored one otherwise.  Id, password and
    creation time stay, and the store holds the record that is answered. *)
Theorem Update_partial (id : Z) (req : UpdateUserRequest) (d : DB) (u0 : User) :
  stored d id = Some u0 ->
  forall r d', service.Update repo id req d = (r, d') ->
    match r with
    | Done u' =>
        Username u' = (if String.eqb (update_Username req) "" then Username u0
                       else update_Username req) /\
        Email u' = (if String.eqb (update_Email req) "" then Email u0
                    else update_Email req) /\
        Status u' = (match update_Status req with
                     | Some s => s
                     | None => Status u0
                     end) /\
        (Username u0 <> ""%string -> Username u' <> ""%string) /\
        (Email u0 <> ""%string -> Email u' <> ""%string) /\
        User_ID u' = id /\ Password u' = Password u0 /\
        User_CreatedAt u' = User_CreatedAt u0 /\
        stored d' id = Some u'
    | Fail _ => table d' = table d
    end.
Proof.
  intros Hst r d' Hup.
  destruct r as [u'|e]; [|exact (Update_failure id req d e d' Hup)].
  assert (User_ID u0 = id) as Hid0.
  { unfold stored in Hst. destruct (table d !! id); [|discriminate].
    injection Hst as <-. reflexivity. }
  destruct (Update_success id req d u0 u' d' Hst Hup) as [-> Hst'].
  split; [|split; [|split; [|split; [|split; [|split; [|split; [|split]]]]]]].
  - unfold merged, service.update_status.
    destruct (update_Status req), (String.eqb (update_Email req) ""),
             (String.eqb (update_Username req) ""); reflexivity.
  - unfold merged, service.update_status.
    destruct (update_Status req), (String.eqb (update_Email req) ""),
             (String.eqb (update_Username req) ""); reflexivity.
  - unfold merged, service.update_status.
    destruct (update_Status req), (String.eqb (update_Email req) ""),
             (String.eqb (update_Username req) ""); reflexivity.
  - intros Hne. unfold merged, service.update_status.
    destruct (String.eqb (update_Username req) "") eqn:E;
      [|apply String.eqb_neq in E];
      destruct (update_Status req), (String.eqb (update_Email req) ""); assumption.
  - intros Hne. unfold merged, service.update_status.
    destruct (String.eqb (update_Email req) "") eqn:E;
      [|apply String.eqb_neq in E];
      destruct (update_Status req), (String.eqb (update_Username req) "");
      assumption.
  - rewrite merged_ID. exact Hid0.
  - unfold merged, service.update_status.
    destruct (update_Status req), (String.eqb (update_Email req) ""),
             (String.eqb (update_Username req) ""); reflexivity.
  - unfold merged, service.update_status.
    destruct (update_Status req), (String.eqb (update_Email req) ""),
             (String.eqb (update_Username req) ""); reflexivity.
  - exact Hst'.
Qed.

Lemma Update_status_only_eq id s d r0 :
  table d !! id = Some r0 ->
  service.Update repo id (mkUpdateUserRequest "" "" (Some s)) d =
  match next_fault d with
  | Some _ => (Fail service.ErrUserNotFound, logged (by_id id) d)
  | None =>
      let (r, d') :=
        repository.Update (set_Status (scan (id, r0)) s) (logged (by_id id) d) in
      (match r with
       | Fail err => Fail (Wrapf "更新用户失败" err)
       | Done u => Done u
       end, d')
  end.
Proof.
  intros Hrow. unfold service.Update, bind, ret. simpl.
  rewrite GetByID_eq. destruct (next_fault d); [reflexivity|].
  rewrite Hrow. reflexivity.
Qed.

(** C6: for an existing record, an update that supplies only the status
    answers a record with the stored username and email and the new status,
    and stores it; its [updated_at] is the clock reading at the time of the
    update.  It is therefore strictly greater than the previous value
    exactly when the clock reads later than that value, and it is never
    smaller on a consistent store (where no record is stamped ahead of the
    clock).  When the update fails the stored record is untouched.  On a
    consistent store that executes its statements the update does succeed,
    for an id other than zero (which GORM takes for a record not yet
    stored) and a status that fits the SMALLINT column. *)
Theorem Update_status_only (id s : Z) (d : DB) (u0 : User) :
  stored d id = Some u0 ->
  let req := mkUpdateUserRequest "" "" (Some s) in
  (forall r d', service.Update repo id req d = (r, d') ->
     match r with
     | Done u' =>
         Username u' = Username u0 /\ Email u' = Email u0 /\ Status u' = s /\
         User_UpdatedAt u' = now d /\
         (User_UpdatedAt u0 < User_UpdatedAt u' <-> User_UpdatedAt u0 < now d) /\
         (consistent d -> User_UpdatedAt u0 <= User_UpdatedAt u') /\
         stored d' id = Some u'
     | Fail _ => stored d' id = Some u0
     end) /\
  (healthy d -> consistent d -> id <> 0 -> -32768 <= s <= 32767 ->
     exists u' d', service.Update repo id req d = (Done u', d')).
Proof.
  intros Hst req. unfold stored in *.
  destruct (table d !! id) as [r0|] eqn:Hrow; [|discriminate]. simpl in Hst.
  injection Hst as <-.
  subst req. rewrite (Update_status_only_eq id s d r0 Hrow). cbv zeta.
  rewrite repository_Update_eq. cbv zeta.
  change (User_ID (set_Status (scan (id, r0)) s)) with id. simpl table.
  rewrite Hrow.
  split.
  - intros r d' Heq.
    destruct (next_fault d).
    { injection Heq as <- <-. simpl. rewrite Hrow. reflexivity. }
    destruct (next_fault (logged _ d)).
    { injection Heq as <- <-. simpl. rewrite Hrow. reflexivity. }
    destruct (unique_conflict _ _).
    { injection Heq as <- <-. simpl. rewrite Hrow. reflexivity. }
    injection Heq as <- <-. simpl. rewrite lookup_insert_eq.
    repeat split; try tauto.
    intros (_ & _ & Hclock). exact (Hclock id r0 Hrow).
  - intros Hh [Huniq _] _ _.
    rewrite (healthy_next_fault _ Hh).
    rewrite (healthy_next_fault _ (healthy_logged _ _ Hh)).
    rewrite (unique_rows_self _ _ r0) by (assumption || reflexivity).
    eauto.
Qed.

(** C9: in [Update], a username (or email) lookup that fails, with whatever
    error and over whatever repository, counts as "no conflict": the new
    value is assigned.  End to end on the GORM repository: when the
    connection fails for the lookup (the statement after the fetch by id),
    the update goes on to the repository's [Update] with the new value, and
    what the caller gets is that call's answer, not the lookup's error; on
    a consistent store where the new username is free it is stored. *)
Theorem Update_lookup_error_ignored :
  (forall (r : UserRepository) id req user d err d1,
     update_Username req <> ""%string ->
     repo_GetByUsername r (update_Username req) d = (Fail err, d1) ->
     service.update_username r id req user d =
       (Done (set_Username user (update_Username req)), d1)) /\
  (forall (r : UserRepository) id req user d err d1,
     update_Email req <> ""%string ->
     repo_GetByEmail r (update_Email req) d = (Fail err, d1) ->
     service.update_email r id req user d =
       (Done (set_Email user (update_Email req)), d1)) /\
  (forall d id r0 name status e fs,
     table d !! id = Some r0 -> name <> ""%string ->
     faults d = None :: Some e :: fs ->
     service.Update repo id (mkUpdateUserRequest name "" status) d =
       wrap_update
         (repository.Update
            (service.update_status (mkUpdateUserRequest name "" status)
               (set_Username (scan (id, r0)) name))
            (logged (by_username name) (logged (by_id id) d)))) /\
  (forall d id r0 email status e fs,
     table d !! id = Some r0 -> email <> ""%string ->
     faults d = None :: Some e :: fs ->
     service.Update repo id (mkUpdateUserRequest "" email status) d =
       wrap_update
         (repository.Update
            (service.update_status (mkUpdateUserRequest "" email status)
               (set_Email (scan (id, r0)) email))
            (logged (by_email email) (logged (by_id id) d)))) /\
  (forall d id r0 name e,
     table d !! id = Some r0 -> name <> ""%string ->
     faults d = [None; Some e] ->
     ~ username_taken name d -> consistent d ->
     exists d',
       service.Update repo id (mkUpdateUserRequest name "" None) d =
         (Done (set_UpdatedAt (set_Username (scan (id, r0)) name) (now d)), d') /\
       stored d' id =
         Some (set_UpdatedAt (set_Username (scan (id, r0)) name) (now d))).
Proof.
  split; [exact update_username_lookup_failed|].
  split; [exact update_email_lookup_failed|].
  assert (forall d id r0 name status e fs,
     table d !! id = Some r0 -> name <> ""%string ->
     faults d = None :: Some e :: fs ->
     service.Update repo id (mkUpdateUserRequest name "" status) d =
       wrap_update
         (repository.Update
            (service.update_status (mkUpdateUserRequest name "" status)
               (set_Username (scan (id, r0)) name))
            (logged (by_username name) (logged (by_id id) d)))) as Hname.
  { intros d id r0 name status e fs Hrow Hne Hf.
    unfold service.Update, bind, ret. simpl.
    rewrite GetByID_eq. unfold next_fault at 1. rewrite Hf, Hrow.
    rewrite (update_username_lookup_failed repo id _ _ _
               (Wrapf "获取用户失败" (Driver e))
               (logged (by_username name) (logged (by_id id) d))); [|exact Hne|].
    - unfold service.update_email. simpl. unfold ret, wrap_update.
      destruct (repository.Update _ _) as [[u|err] d']; reflexivity.
    - simpl. unfold repository.GetByUsername. apply fetch_fault.
      unfold next_fault, logged. simpl. rewrite Hf. reflexivity. }
  split; [exact Hname|]. split.
  - intros d id r0 email status e fs Hrow Hne Hf.
    unfold service.Update, bind, ret. simpl.
    rewrite GetByID_eq. unfold next_fault at 1. rewrite Hf, Hrow.
    unfold service.update_username. simpl. unfold ret.
    rewrite (update_email_lookup_failed repo id _ _ _
               (Wrapf "获取用户失败" (Driver e))
               (logged (by_email email) (logged (by_id id) d))); [|exact Hne|].
    + unfold wrap_update.
      destruct (repository.Update _ _) as [[u|err] d']; reflexivity.
    + simpl. unfold repository.GetByEmail. apply fetch_fault.
      unfold next_fault, logged. simpl. rewrite Hf. reflexivity.
  - intros d id r0 name e Hrow Hne Hf Hfree [Huniq _].
    rewrite (Hname d id r0 name None e [] Hrow Hne Hf).
    unfold wrap_update. rewrite repository_Update_eq. cbv zeta.
    unfold service.update_status. simpl update_Status. cbv iota.
    change (User_ID (set_Username (scan (id, r0)) name)) with id.
    assert (next_fault (logged (by_username name) (logged (by_id id) d)) = None)
      as -> by (unfold next_fault, logged; simpl; rewrite Hf; reflexivity).
    simpl table. rewrite Hrow.
    rewrite unique_conflict_free.
    + simpl. eexists. split; [reflexivity|].
      unfold stored; simpl. rewrite lookup_insert_eq. reflexivity.
    + intros k r' Hk. apply lookup_delete_Some in Hk as [_ Hk].
      simpl. intros Heq. apply Hfree. exists k, r'. auto.
    + intros k r' Hk. apply lookup_delete_Some in Hk as [Hk' Hk].
      simpl. apply (Huniq k id r' r0 Hk Hrow). congruence.
Qed.

End UpdateFacts.

(** C10, a run: only a status, and it is 0. *)
Lemma Update_partial_witness :
  exists u' d',
    service.Update (repository.NewUserRepository pg_like) 1
      (mkUpdateUserRequest "" "" (Some 0)) store1 = (Done u', d') /\
    Username u' = "alice"%string /\ Email u' = "a@x.com"%string /\ Status u' = 0 /\
    stored d' 1 = Some u'.
Proof.
  eexists _, _.
  assert (service.Update (repository.NewUserRepository pg_like) 1
            (mkUpdateUserRequest "" "" (Some 0)) store1
          = (Done (mkUser (mkBaseModel 1 100 200) "alice" "a@x.com"
                          "$2a$10$hash-of-secret1" 0),
             (service.Update (repository.NewUserRepository pg_like) 1
                (mkUpdateUserRequest "" "" (Some 0)) store1).2)) as E
    by (vm_compute; reflexivity).
  split; [exact E|].
  destruct (Update_partial pg_like 1 (mkUpdateUserRequest "" "" (Some 0)) store1
              (scan (1, alice_row)) eq_refl _ _ E)
    as (Hn & He & Hs & _ & _ & _ & _ & _ & Hst).
  repeat split; assumption.
Defined.

(** C6, a run: account 1 of [store1], written at 100, banned at 200. *)
Lemma Update_status_only_witness :
  exists u' d',
    service.Update (repository.NewUserRepository pg_like) 1
      (mkUpdateUserRequest "" "" (Some UserStatusBanned)) store1 = (Done u', d') /\
    Username u' = "alice"%string /\ Email u' = "a@x.com"%string /\
    Status u' = UserStatusBanned /\ User_UpdatedAt u' = 200 /\
    (100 < User_UpdatedAt u' <-> 100 < 200) /\
    stored d' 1 = Some u'.
Proof.
  destruct (Update_status_only pg_like 1 UserStatusBanned store1
              (scan (1, alice_row)) eq_refl) as [Hframe Hsucc].
  destruct (Hsucc eq_refl (consistent_store1 store1 eq_refl eq_refl eq_refl)
              ltac:(discriminate) ltac:(unfold UserStatusBanned; lia))
    as (u' & d' & E).
  exists u', d'. split; [exact E|].
  destruct (Hframe _ _ E) as (H1 & H2 & H3 & H4 & H5 & _ & H7).
  repeat split; try assumption; apply H5.
Defined.

(** An account created and then banned within one reading of the clock:
    both calls succeed, and [updated_at] is 100 before the update and 100
    after it. *)
Lemma Update_status_same_instant :
  exists u0 d1 u' d2,
    service.Create (repository.NewUserRepository pg_like) toy_hash bob_request
      (empty_store 100) = (Done u0, d1) /\
    stored d1 1 = Some u0 /\
    service.Update (repository.NewUserRepository pg_like) 1
      (mkUpdateUserRequest "" "" (Some UserStatusBanned)) d1 = (Done u', d2) /\
    User_UpdatedAt u0 = 100 /\ User_UpdatedAt u' = 100 /\
    ~ (User_UpdatedAt u0 < User_UpdatedAt u').
Proof.
  eexists _, _, _, _.
  split; [vm_compute; reflexivity|].
  split; [vm_compute; reflexivity|].
  split; [vm_compute; reflexivity|].
  split; [reflexivity|]. split; [reflexivity|].
  unfold User_UpdatedAt. cbn [UpdatedAt Base]. lia.
Qed.

(** C9, a run: the connection fails for the username lookup, the rename
    goes through. *)
Lemma Update_lookup_error_ignored_witness :
  exists d',
    service.Update (repository.NewUserRepository pg_like) 1
      (mkUpdateUserRequest "alicia" "" None) flaky_store
    = (Done (mkUser (mkBaseModel 1 100 200) "alicia" "a@x.com"
                    "$2a$10$hash-of-secret1" 1), d') /\
    stored d' 1 = Some (mkUser (mkBaseModel 1 100 200) "alicia" "a@x.com"
                               "$2a$10$hash-of-secret1" 1).
Proof.
  assert (~ username_taken "alicia" flaky_store) as Hfree.
  { rewrite username_taken_decide. vm_compute. discriminate. }
  exact (proj2 (proj2 (proj2 (proj2 (Update_lookup_error_ignored pg_like))))
           flaky_store 1 alice_row "alicia"%string ConnFailure
           eq_refl ltac:(discriminate) eq_refl Hfree
           (consistent_store1 flaky_store eq_refl eq_refl eq_refl)).
Defined.

(** With the lookup failing, a name that is in fact taken is only stopped
    by the unique index: the caller gets the store's error, not
    [ErrUserAlreadyExists]. *)
Example Update_lookup_failed_conflict :
  let d := mkDB (<[2 := mkRow "bob" "b@x.com" "$2a$10$h" 1 150 150]> (table store1))
                3 200 [None; Some ConnFailure] [] in
  (service.Update (repository.NewUserRepository pg_like) 1
     (mkUpdateUserRequest "bob" "" None) d).1
  = Fail (Wrapf "更新用户失败"
            (Wrapf "更新用户失败" (Driver (UniqueViolation "users_username_key")))).
Proof. vm_compute. reflexivity. Qed.

(** ** Responses *)

(** The record a successful [Create] answers, over either repository. *)
Lemma service_Create_Done sql_like hash repo req d u d' :
  repo = repository.NewUserRepository sql_like \/
  repo = repository_pgx.NewUserRepository sql_like ->
  service.Create repo hash req d = (Done u, d') ->
  exists hashed,
    hash (create_Password req) bcrypt.DefaultCost = Done hashed /\
    u = mkUser (mkBaseModel (users_id_seq d) (now d) (now d))
               (create_Username req) (create_Email req) hashed UserStatusActive.
Proof.
  intros [-> | ->]; unfold service.Create, bind, ret; simpl.
  - rewrite ExistsByUsername_eq.
    destruct (next_fault d); [discriminate|].
    destruct (0 <? _); [discriminate|].
    rewrite ExistsByEmail_eq.
    destruct (next_fault _); [discriminate|].
    destruct (0 <? _); [discriminate|].
    destruct (hash _ _) as [h|e3]; [|discriminate].
    change (mkUser (mkBaseModel 0 0 0) _ _ h _) with (fresh_user req h).
    rewrite repository_Create_fresh. cbv zeta.
    destruct (next_fault _); [discriminate|].
    destruct (table _ !! _); [discriminate|].
    destruct (unique_conflict _ _); [discriminate|].
    intros [= <- <-]. eauto.
  - unfold repository_pgx.ExistsByUsername, repository_pgx.ExistsByEmail,
      repository_pgx.Create, db_exists, db_insert, bind, issue, ret. simpl.
    destruct (next_fault d); [discriminate|]. simpl.
    destruct (Nat.eqb _ 0); [|discriminate]. simpl.
    destruct (next_fault _); [discriminate|]. simpl.
    destruct (Nat.eqb _ 0); [|discriminate]. simpl.
    destruct (hash _ _) as [h|e3]; [|discriminate]. simpl.
    destruct (next_fault _); [discriminate|]. simpl.
    destruct (table _ !! _); [discriminate|].
    destruct (unique_conflict _ _); [discriminate|].
    intros [= <- <-]. eauto.
Qed.

(** C8: no reply carries password material.  The JSON of a user has the
    keys id, created_at, updated_at, username, email and status, is the
    same whatever the password field holds, and for a stored row it is made
    of the row's key and of its columns other than the password.  The
    replies of the create, get, update and list handlers are determined by
    the service's answer with the passwords blanked, whatever the request
    was: two answers that differ only in password hashes get the same
    reply.  The password of a create request reaches nothing but the hash
    function: two requests with the same username and email, and passwords
    that hash to the same, run alike.  The reply to a successful create is
    made of the id from the sequence, the clock reading, the username and
    the email of the request and the active status; the reply to a failed
    create is one of three fixed messages.  A reply to a failed call carries
    no data at all. *)
Theorem responses_omit_password :
  (forall u p, marshal_User (set_Password u p) = marshal_User u) /\
  (forall u, json_keys (marshal_User u) =
             ["id"; "created_at"; "updated_at"; "username"; "email"; "status"]%string) /\
  (forall kr, marshal_User (scan kr) =
     JObj [("id", JNum kr.1); ("created_at", JTime (col_created_at kr.2));
           ("updated_at", JTime (col_updated_at kr.2));
           ("username", JStr (col_username kr.2)); ("email", JStr (col_email kr.2));
           ("status", JNum (col_status kr.2))]%string) /\
  (forall repo1 repo2 hash1 hash2 req1 req2 d1 d2,
     scrub_result (service.Create repo1 hash1 req1 d1).1 =
     scrub_result (service.Create repo2 hash2 req2 d2).1 ->
     (handler.Create repo1 hash1 (Done req1) d1).1 =
     (handler.Create repo2 hash2 (Done req2) d2).1) /\
  (forall repo hash1 hash2 req1 req2 d,
     create_Username req1 = create_Username req2 ->
     create_Email req1 = create_Email req2 ->
     hash1 (create_Password req1) bcrypt.DefaultCost =
     hash2 (create_Password req2) bcrypt.DefaultCost ->
     service.Create repo hash1 req1 d = service.Create repo hash2 req2 d /\
     handler.Create repo hash1 (Done req1) d = handler.Create repo hash2 (Done req2) d) /\
  (forall sql_like hash repo req d u d',
     repo = repository.NewUserRepository sql_like \/
     repo = repository_pgx.NewUserRepository sql_like ->
     service.Create repo hash req d = (Done u, d') ->
     (handler.Create repo hash (Done req) d).1 =
     response.Success
       (Some (JObj [("id", JNum (users_id_seq d)); ("created_at", JTime (now d));
                    ("updated_at", JTime (now d));
                    ("username", JStr (create_Username req));
                    ("email", JStr (create_Email req));
                    ("status", JNum UserStatusActive)]%string))) /\
  (forall repo hash req d e,
     (service.Create repo hash req d).1 = Fail e ->
     (handler.Create repo hash (Done req) d).1 = response.BadRequest "用户名已存在" \/
     (handler.Create repo hash (Done req) d).1 = response.BadRequest "邮箱已被使用" \/
     (handler.Create repo hash (Done req) d).1 = response.ServerError "创建用户失败") /\
  (forall repo1 repo2 id d1 d2,
     scrub_result (service.GetByID repo1 id d1).1 =
     scrub_result (service.GetByID repo2 id d2).1 ->
     (handler.Get repo1 (Done id) d1).1 = (handler.Get repo2 (Done id) d2).1) /\
  (forall repo1 repo2 id req d1 d2,
     scrub_result (service.Update repo1 id req d1).1 =
     scrub_result (service.Update repo2 id req d2).1 ->
     (handler.Update repo1 (Done id) (Done req) d1).1 =
     (handler.Update repo2 (Done id) (Done req) d2).1) /\
  (forall repo1 repo2 params d1 d2,
     scrub_page (service.List repo1 params d1).1 =
     scrub_page (service.List repo2 params d2).1 ->
     (handler.List repo1 (Done params) d1).1 =
     (handler.List repo2 (Done params) d2).1) /\
  (forall repo hash req id upd params d e,
     ((service.Create repo hash req d).1 = Fail e ->
        response.Data (handler.Create repo hash (Done req) d).1.2 = None) /\
     ((service.GetByID repo id d).1 = Fail e ->
        response.Data (handler.Get repo (Done id) d).1.2 = None) /\
     ((service.Update repo id upd d).1 = Fail e ->
        response.Data (handler.Update repo (Done id) (Done upd) d).1.2 = None) /\
     ((service.List repo params d).1 = Fail e ->
        response.Data (handler.List repo (Done params) d).1.2 = None)).
Proof.
  split; [reflexivity|]. split; [reflexivity|]. split; [reflexivity|].
  split; [|split; [|split; [|split; [|split; [|split; [|split]]]]]].
  - intros repo1 repo2 hash1 hash2 req1 req2 d1 d2. unfold handler.Create, bind, ret.
    destruct (service.Create repo1 hash1 req1 d1) as [[u1|e1] d1'],
             (service.Create repo2 hash2 req2 d2) as [[u2|e2] d2']; simpl;
      intros H; try discriminate.
    + assert (scrub u1 = scrub u2) as Hs by congruence.
      by rewrite (marshal_scrubbed u1 u2 Hs).
    + assert (e1 = e2) as -> by congruence. reflexivity.
  - intros repo hash1 hash2 req1 req2 d Hn He Hh.
    assert (service.Create repo hash1 req1 d = service.Create repo hash2 req2 d) as Hs.
    { unfold service.Create. rewrite Hn, He, Hh. reflexivity. }
    split; [exact Hs|]. unfold handler.Create, bind. rewrite Hs. reflexivity.
  - intros sql_like hash repo req d u d' Hrepo E.
    destruct (service_Create_Done sql_like hash repo req d u d' Hrepo E)
      as (h & _ & ->).
    unfold handler.Create, bind, ret. rewrite E. reflexivity.
  - intros repo hash req d e. unfold handler.Create, bind, ret.
    destruct (service.Create repo hash req d) as [[u|e'] d']; simpl;
      intros H; [discriminate|].
    destruct (errors_Is e' VarErrUserAlreadyExists); [by left|].
    destruct (errors_Is e' VarErrEmailAlreadyUsed); [right; by left|right; by right].
  - intros repo1 repo2 id d1 d2. unfold handler.Get, bind, ret.
    destruct (service.GetByID repo1 id d1) as [[u1|e1] d1'],
             (service.GetByID repo2 id d2) as [[u2|e2] d2']; simpl;
      intros H; try discriminate.
    + assert (scrub u1 = scrub u2) as Hs by congruence.
      by rewrite (marshal_scrubbed u1 u2 Hs).
    + assert (e1 = e2) as -> by congruence. reflexivity.
  - intros repo1 repo2 id req d1 d2. unfold handler.Update, bind, ret.
    destruct (service.Update repo1 id req d1) as [[u1|e1] d1'],
             (service.Update repo2 id req d2) as [[u2|e2] d2']; simpl;
      intros H; try discriminate.
    + assert (scrub u1 = scrub u2) as Hs by congruence.
      by rewrite (marshal_scrubbed u1 u2 Hs).
    + assert (e1 = e2) as -> by congruence. reflexivity.
  - intros repo1 repo2 params d1 d2. unfold handler.List, bind, ret.
    destruct (service.List repo1 params d1) as [[[us1 t1]|e1] d1'],
             (service.List repo2 params d2) as [[[us2 t2]|e2] d2']; simpl;
      intros H; try discriminate.
    + assert (map scrub us1 = map scrub us2) as Hs by congruence.
      assert (t1 = t2) as -> by congruence.
      by rewrite (marshal_scrubbed_list us1 us2 Hs).
    + reflexivity.
  - intros repo hash req id upd params d e.
    unfold handler.Create, handler.Get, handler.Update, handler.List, bind, ret.
    repeat split.
    + destruct (service.Create repo hash req d) as [[u|e'] d']; simpl;
        intros H; [discriminate|].
      destruct (errors_Is e' VarErrUserAlreadyExists); [reflexivity|].
      destruct (errors_Is e' VarErrEmailAlreadyUsed); reflexivity.
    + destruct (service.GetByID repo id d) as [[u|e'] d']; simpl;
        intros H; [discriminate|].
      destruct (errors_Is e' VarErrUserNotFound); reflexivity.
    + destruct (service.Update repo id upd d) as [[u|e'] d']; simpl;
        intros H; [discriminate|].
      destruct (errors_Is e' VarErrUserNotFound); [reflexivity|].
      destruct (errors_Is e' VarErrUserAlreadyExists); [reflexivity|].
      destruct (errors_Is e' VarErrEmailAlreadyUsed); reflexivity.
    + destruct (service.List repo params d) as [[[us t]|e'] d']; simpl;
        intros H; [discriminate|reflexivity].
Qed.

(** Two create requests that differ in their passwords, and so in their
    hashes, get the same reply. *)
Example Create_reply_password_free :
  (handler.Create (repository.NewUserRepository pg_like) toy_hash
     (Done (mkCreateUserRequest "bob" "b@x.com" "secret2")) store1).1 =
  (handler.Create (repository.NewUserRepository pg_like) toy_hash
     (Done (mkCreateUserRequest "bob" "b@x.com" "another-password")) store1).1.
Proof. vm_compute. reflexivity. Qed.

(** What a caller sees of account 1. *)
Example Get_reply :
  (handler.Get (repository.NewUserRepository pg_like) (Done 1) store1).1 =
  response.Success
    (Some (JObj [("id", JNum 1); ("created_at", JTime 100); ("updated_at", JTime 100);
                 ("username", JStr "alice"); ("email", JStr "a@x.com");
                 ("status", JNum 1)]%string)).
Proof. reflexivity. Qed.

(** * Further properties of the code *)

(** ** Lookups after writes (repository) *)

Section LookupFacts.
Variable sql_like : string -> string -> bool.

(** A condition met by exactly one row selects that row. *)
Lemma matching_unique cs (t : gmap Z Row) k r :
  t !! k = Some r -> satisfies sql_like cs (k, r) = true ->
  (forall k' r', t !! k' = Some r' -> satisfies sql_like cs (k', r') = true -> k' = k) ->
  matching sql_like cs t = [(k, r)].
Proof.
  intros Hk Hs Hu. unfold matching. apply list_singleton_char.
  - apply NoDup_filter, NoDup_map_to_list.
  - intros [k' r']. rewrite list_elem_of_filter, elem_of_map_to_list. split.
    + intros [Hs' Hl]. apply Is_true_true in Hs'.
      assert (k' = k) as -> by (eapply Hu; eauto). congruence.
    + intros [= -> ->]. split; [by apply Is_true_true | assumption].
Qed.

Lemma matching_none cs (t : gmap Z Row) :
  (forall k r, t !! k = Some r -> satisfies sql_like cs (k, r) = false) ->
  matching sql_like cs t = [].
Proof.
  intros Hn. apply list_nil_char. intros [k r].
  unfold matching. rewrite list_elem_of_filter, elem_of_map_to_list.
  intros [Hs Hl]. apply Is_true_true in Hs. rewrite (Hn k r Hl) in Hs. discriminate.
Qed.

Lemma elem_of_matching cs (t : gmap Z Row) k r :
  (k, r) ∈ matching sql_like cs t <-> t !! k = Some r /\ satisfies sql_like cs (k, r) = true.
Proof.
  unfold matching. rewrite list_elem_of_filter, elem_of_map_to_list.
  rewrite Is_true_true. tauto.
Qed.

(** What a single-row fetch of the GORM repository answers. *)
Lemma fetch_eq cs d :
  repository.fetch sql_like cs d =
  (match next_fault d with
   | Some e => Fail (Wrapf "获取用户失败" (Driver e))
   | None => match merge_sort id_asc (matching sql_like cs (table d)) with
             | kr :: _ => Done (scan kr)
             | [] => Fail (Errorf "用户不存在")
             end
   end, logged (QSelect cs (Some OrderIdAsc) (Some 1) None) d).
Proof.
  unfold repository.fetch, gorm.First, db_select, bind, issue, ret. simpl.
  destruct (next_fault d); [reflexivity|]. simpl.
  unfold window. simpl.
  destruct (merge_sort id_asc _) as [|kr l]; reflexivity.
Qed.

(** A fetch that answers a record answers a stored row meeting the
    condition. *)
Lemma fetch_Done cs d u d' :
  repository.fetch sql_like cs d = (Done u, d') ->
  exists k r, u = scan (k, r) /\ table d !! k = Some r /\
              satisfies sql_like cs (k, r) = true.
Proof.
  rewrite fetch_eq. destruct (next_fault d); [discriminate|].
  destruct (merge_sort id_asc _) as [|[k r] l] eqn:E; [discriminate|].
  intros [= <- <-]. exists k, r. split; [reflexivity|].
  apply elem_of_matching. rewrite <- (merge_sort_Permutation id_asc), E. left.
Qed.

Lemma fetch_single cs d k r :
  next_fault d = None -> matching sql_like cs (table d) = [(k, r)] ->
  (repository.fetch sql_like cs d).1 = Done (scan (k, r)).
Proof. intros Hf Hm. rewrite fetch_eq, Hf, Hm. reflexivity. Qed.

Lemma fetch_empty cs d :
  next_fault d = None -> matching sql_like cs (table d) = [] ->
  (repository.fetch sql_like cs d).1 = Fail (Errorf "用户不存在").
Proof. intros Hf Hm. rewrite fetch_eq, Hf, Hm. reflexivity. Qed.

Lemma satisfies_UsernameEq name k r :
  satisfies sql_like [UsernameEq name] (k, r) = true <-> col_username r = name.
Proof.
  unfold satisfies. simpl. rewrite andb_true_r. apply String.eqb_eq.
Qed.

Lemma satisfies_EmailEq email k r :
  satisfies sql_like [EmailEq email] (k, r) = true <-> col_email r = email.
Proof.
  unfold satisfies. simpl. rewrite andb_true_r. apply String.eqb_eq.
Qed.

End LookupFacts.

(** What the GORM repository's [Create] does for any record. *)
Lemma repository_Create_Done user d u d' :
  repository.Create user d = (Done u, d') ->
  table d !! User_ID u = None /\
  unique_conflict (table d) (columns u) = None /\
  table d' = <[User_ID u := columns u]> (table d) /\
  Username u = Username user /\ Email u = Email user /\
  Password u = Password user /\ Status u = Status user.
Proof.
  unfold repository.Create, gorm.Create, db_insert, bind, issue, ret.
  destruct user as [[i c up] n e p s].
  unfold set_CreatedAt, set_UpdatedAt, set_ID, columns, User_ID, User_CreatedAt,
    User_UpdatedAt. simpl.
  destruct (next_fault d); [discriminate|].
  destruct (c =? 0); simpl; destruct (up =? 0); simpl; destruct (i =? 0); simpl;
    match goal with |- context [table d !! ?k] => destruct (table d !! k) eqn:Hk end;
    try discriminate;
    match goal with |- context [unique_conflict ?t ?r] =>
      destruct (unique_conflict t r) eqn:Hc end;
    try discriminate; intros [= <- <-]; simpl; auto 10.
Qed.

Section RoundTrips.
Variable sql_like : string -> string -> bool.

(** X1: a record that [Create] has stored is the one each lookup finds. *)
Theorem Create_then_lookup (user : User) (d : DB) (u : User) (d' : DB) :
  repository.Create user d = (Done u, d') ->
  next_fault d' = None ->
  (repository.GetByID sql_like (User_ID u) d').1 = Done u /\
  (repository.GetByUsername sql_like (Username u) d').1 = Done u /\
  (repository.GetByEmail sql_like (Email u) d').1 = Done u /\
  (repository.ExistsByUsername sql_like (Username u) d').1 = Done true /\
  (repository.ExistsByEmail sql_like (Email u) d').1 = Done true.
Proof.
  intros Hc Hf.
  destruct (repository_Create_Done _ _ _ _ Hc) as (Hfree & Hu & Ht & _).
  pose proof (unique_conflict_None _ _ Hu) as Hother.
  assert (table d' !! User_ID u = Some (columns u)) as Hrow
    by (rewrite Ht; apply lookup_insert_eq).
  assert (forall k r, table d' !! k = Some r -> k <> User_ID u ->
            col_username r <> Username u /\ col_email r <> Email u) as Hrest.
  { intros k r Hk Hne. rewrite Ht in Hk.
    apply lookup_insert_Some in Hk as [[<- _]|[_ Hk]]; [congruence|].
    exact (Hother k r Hk). }
  split; [|split; [|split; [|split]]].
  - rewrite GetByID_eq, Hf, Hrow. simpl. f_equal. apply scan_columns.
  - unfold repository.GetByUsername.
    rewrite (fetch_single sql_like _ d' (User_ID u) (columns u) Hf).
    + f_equal. apply scan_columns.
    + apply matching_unique; [exact Hrow|by apply satisfies_UsernameEq|].
      intros k r Hk Hs. apply satisfies_UsernameEq in Hs.
      destruct (decide (k = User_ID u)) as [|Hne]; [assumption|].
      destruct (Hrest k r Hk Hne). contradiction.
  - unfold repository.GetByEmail.
    rewrite (fetch_single sql_like _ d' (User_ID u) (columns u) Hf).
    + f_equal. apply scan_columns.
    + apply matching_unique; [exact Hrow|by apply satisfies_EmailEq|].
      intros k r Hk Hs. apply satisfies_EmailEq in Hs.
      destruct (decide (k = User_ID u)) as [|Hne]; [assumption|].
      destruct (Hrest k r Hk Hne). contradiction.
  - rewrite ExistsByUsername_eq, Hf. simpl. f_equal.
    apply count_username. exists (User_ID u), (columns u). auto.
  - rewrite ExistsByEmail_eq, Hf. simpl. f_equal.
    apply count_email. exists (User_ID u), (columns u). auto.
Qed.

Lemma merge_sort_head (R : relation (Z * Row)) `{!RelDecision R} x l :
  exists y l', merge_sort R (x :: l) = y :: l' /\ y ∈ x :: l.
Proof.
  destruct (merge_sort R (x :: l)) as [|y l'] eqn:E.
  - pose proof (merge_sort_Permutation R (x :: l)) as HP. rewrite E in HP.
    apply Permutation_nil_l in HP. discriminate.
  - exists y, l'. split; [reflexivity|].
    rewrite <- (merge_sort_Permutation R (x :: l)), E. left.
Qed.

(** X2: the existence checks and the lookups by username and by email
    agree. *)
Theorem Exists_agrees_with_Get (d : DB) :
  next_fault d = None ->
  (forall name,
     match (repository.ExistsByUsername sql_like name d).1,
           (repository.GetByUsername sql_like name d).1 with
     | Done true, Done u => Username u = name /\ stored d (User_ID u) = Some u
     | Done false, Fail e => e = Errorf "用户不存在"
     | _, _ => False
     end) /\
  (forall email,
     match (repository.ExistsByEmail sql_like email d).1,
           (repository.GetByEmail sql_like email d).1 with
     | Done true, Done u => Email u = email /\ stored d (User_ID u) = Some u
     | Done false, Fail e => e = Errorf "用户不存在"
     | _, _ => False
     end).
Proof.
  intros Hf. split.
  - intros name. rewrite ExistsByUsername_eq. unfold repository.GetByUsername.
    rewrite fetch_eq, Hf. simpl.
    destruct (matching sql_like [UsernameEq name] (table d)) as [|x l] eqn:E.
    + reflexivity.
    + destruct (merge_sort_head id_asc x l) as ([k r] & l' & -> & Hin).
      simpl. rewrite <- E in Hin. apply elem_of_matching in Hin as [Hk Hs].
      apply satisfies_UsernameEq in Hs. split; [exact Hs|].
      unfold stored, User_ID. simpl. rewrite Hk. reflexivity.
  - intros email. rewrite ExistsByEmail_eq. unfold repository.GetByEmail.
    rewrite fetch_eq, Hf. simpl.
    destruct (matching sql_like [EmailEq email] (table d)) as [|x l] eqn:E.
    + reflexivity.
    + destruct (merge_sort_head id_asc x l) as ([k r] & l' & -> & Hin).
      simpl. rewrite <- E in Hin. apply elem_of_matching in Hin as [Hk Hs].
      apply satisfies_EmailEq in Hs. split; [exact Hs|].
      unfold stored, User_ID. simpl. rewrite Hk. reflexivity.
Qed.


End RoundTrips.

(** X1, a run: "bob" is created on [store1] and then looked up. *)
Lemma Create_then_lookup_witness :
  let bob := mkUser (mkBaseModel 2 200 200) "bob" "b@x.com" "h" UserStatusActive in
  let d' := (repository.Create (fresh_user bob_request "h") store1).2 in
  (repository.GetByID pg_like 2 d').1 = Done bob /\
  (repository.GetByUsername pg_like "bob" d').1 = Done bob /\
  (repository.GetByEmail pg_like "b@x.com" d').1 = Done bob /\
  (repository.ExistsByUsername pg_like "bob" d').1 = Done true /\
  (repository.ExistsByEmail pg_like "b@x.com" d').1 = Done true.
Proof.
  assert (repository.Create (fresh_user bob_request "h") store1
          = (Done (mkUser (mkBaseModel 2 200 200) "bob" "b@x.com" "h" UserStatusActive),
             (repository.Create (fresh_user bob_request "h") store1).2)) as E
    by (vm_compute; reflexivity).
  exact (Create_then_lookup pg_like _ _ _ _ E eq_refl).
Defined.


(** X2, a run on [store1], which holds "alice". *)
Lemma Exists_agrees_with_Get_witness :
  match (repository.ExistsByUsername pg_like "alice" store1).1,
        (repository.GetByUsername pg_like "alice" store1).1 with
  | Done true, Done u => Username u = "alice"%string /\ stored store1 (User_ID u) = Some u
  | Done false, Fail e => e = Errorf "用户不存在"
  | _, _ => False
  end.
Proof. exact (proj1 (Exists_agrees_with_Get pg_like store1 eq_refl) "alice"%string). Defined.

(** ** Create: outcomes and duplicates *)

Section CreateOutcomes.
Variable sql_like : string -> string -> bool.
Variable GenerateFromPassword : string -> Z -> result string.
#[local] Abbreviation repo := (repository.NewUserRepository sql_like).

(** [service.Create] over the GORM repository, whatever the store does. *)
Lemma service_Create_cases req d :
  let (r, d') := service.Create repo GenerateFromPassword req d in
  (healthy d -> healthy d') /\ now d' = now d /\
  match r with
  | Done u =>
      ~ username_taken (create_Username req) d /\
      ~ email_taken (create_Email req) d /\
      (exists hashed,
         GenerateFromPassword (create_Password req) bcrypt.DefaultCost = Done hashed /\
         u = mkUser (mkBaseModel (users_id_seq d) (now d) (now d))
                    (create_Username req) (create_Email req) hashed UserStatusActive) /\
      table d !! users_id_seq d = None /\
      table d' = <[users_id_seq d := columns u]> (table d) /\
      users_id_seq d' = users_id_seq d + 1
  | Fail e =>
      table d' = table d /\
      (e = service.ErrUserAlreadyExists -> username_taken (create_Username req) d) /\
      (e = service.ErrEmailAlreadyUsed ->
       ~ username_taken (create_Username req) d /\ email_taken (create_Email req) d)
  end.
Proof.
  unfold service.Create, bind, ret. simpl.
  rewrite ExistsByUsername_eq.
  destruct (next_fault d) as [f|] eqn:Hf.
  { split; [intros H; by apply healthy_logged|]. split; [reflexivity|].
    split; [reflexivity|]. split; discriminate. }
  destruct (0 <? _) eqn:Hn.
  { apply count_username in Hn.
    split; [intros H; by apply healthy_logged|]. split; [reflexivity|].
    split; [reflexivity|]. split; [auto|discriminate]. }
  assert (~ username_taken (create_Username req) d) as Hfree.
  { intros H. apply (count_username sql_like) in H. congruence. }
  rewrite ExistsByEmail_eq.
  set (d1 := logged (QCount [UsernameEq (create_Username req)]) d).
  destruct (next_fault d1) as [f|] eqn:Hf1.
  { split; [intros H; by do 2 apply healthy_logged|]. split; [reflexivity|].
    split; [reflexivity|]. split; discriminate. }
  change (table d1) with (table d).
  destruct (0 <? Z.of_nat (length (matching sql_like [EmailEq _] _))) eqn:Hm.
  { apply count_email in Hm.
    split; [intros H; by do 2 apply healthy_logged|]. split; [reflexivity|].
    split; [reflexivity|]. split; [discriminate|auto]. }
  assert (~ email_taken (create_Email req) d) as Hmail.
  { intros H. apply (count_email sql_like) in H. congruence. }
  set (d2 := logged (QCount [EmailEq (create_Email req)]) d1).
  assert (healthy d -> healthy d2) as Hh2
    by (intros H; by do 2 apply healthy_logged).
  destruct (GenerateFromPassword _ _) as [h|e] eqn:Hh.
  2:{ split; [exact Hh2|]. split; [reflexivity|].
      split; [reflexivity|]. split; discriminate. }
  change (mkUser (mkBaseModel 0 0 0) _ _ h _) with (fresh_user req h).
  rewrite repository_Create_fresh. cbv zeta.
  change (table d2) with (table d). change (users_id_seq d2) with (users_id_seq d).
  change (now d2) with (now d).
  destruct (next_fault d2) as [f|] eqn:Hf2.
  { split; [intros H; by apply healthy_logged, Hh2|]. split; [reflexivity|].
    split; [reflexivity|]. split; discriminate. }
  destruct (table d !! users_id_seq d) eqn:Hk.
  { split; [intros H; by apply healthy_logged, Hh2|]. split; [reflexivity|].
    split; [reflexivity|]. split; discriminate. }
  destruct (unique_conflict _ _).
  { split; [intros H; by apply healthy_logged, Hh2|]. split; [reflexivity|].
    split; [reflexivity|]. split; discriminate. }
  split; [intros H; by apply healthy_logged, Hh2|]. split; [reflexivity|].
  split; [exact Hfree|]. split; [exact Hmail|]. split; [eauto|].
  split; [reflexivity|]. split; reflexivity.
Qed.

(** X4: what a [Create] of the service leaves behind, whatever the store
    does: a success has stored exactly the answered record, under the next
    id of the sequence, for a username and an email that were free; a
    failure has written nothing, and is [ErrUserAlreadyExists] or
    [ErrEmailAlreadyUsed] only when the name or the address is held. *)
Theorem Create_outcomes (req : CreateUserRequest) (d : DB) :
  let (r, d') := service.Create repo GenerateFromPassword req d in
  match r with
  | Done u =>
      ~ username_taken (create_Username req) d /\
      ~ email_taken (create_Email req) d /\
      (exists hashed,
         GenerateFromPassword (create_Password req) bcrypt.DefaultCost = Done hashed /\
         u = mkUser (mkBaseModel (users_id_seq d) (now d) (now d))
                    (create_Username req) (create_Email req) hashed UserStatusActive) /\
      table d !! users_id_seq d = None /\
      table d' = <[users_id_seq d := columns u]> (table d) /\
      users_id_seq d' = users_id_seq d + 1
  | Fail e =>
      table d' = table d /\
      (e = service.ErrUserAlreadyExists -> username_taken (create_Username req) d) /\
      (e = service.ErrEmailAlreadyUsed ->
       ~ username_taken (create_Username req) d /\ email_taken (create_Email req) d)
  end.
Proof.
  pose proof (service_Create_cases req d) as H.
  destruct (service.Create repo GenerateFromPassword req d) as [r d'].
  exact (proj2 (proj2 H)).
Qed.

Lemma service_Create_taken req d :
  healthy d ->
  let (r, d') := service.Create repo GenerateFromPassword req d in
  (username_taken (create_Username req) d ->
   r = Fail service.ErrUserAlreadyExists /\ table d' = table d) /\
  (email_taken (create_Email req) d ->
   (r = Fail service.ErrUserAlreadyExists \/ r = Fail service.ErrEmailAlreadyUsed) /\
   table d' = table d).
Proof.
  intros Hh. unfold service.Create, bind, ret. simpl.
  rewrite ExistsByUsername_eq, (healthy_next_fault d Hh).
  destruct (0 <? _) eqn:Hn.
  { split; intros _; auto. }
  assert (~ username_taken (create_Username req) d) as Hfree.
  { intros H. apply (count_username sql_like) in H. congruence. }
  rewrite ExistsByEmail_eq.
  rewrite (healthy_next_fault _ (healthy_logged _ d Hh)).
  change (table (logged _ d)) with (table d).
  destruct (0 <? Z.of_nat (length (matching sql_like [EmailEq _] _))) eqn:Hm.
  { split; [intros H; contradiction | auto]. }
  assert (~ email_taken (create_Email req) d) as Hmail.
  { intros H. apply (count_email sql_like) in H. congruence. }
  destruct (GenerateFromPassword _ _) as [h|e].
  - destruct (repository.Create _ _) as [[u'|e] d3];
      (split; intros H; contradiction).
  - split; intros H; contradiction.
Qed.

(** X5: once an account is created, a later [Create] under its username
    is refused with [ErrUserAlreadyExists], and one under its email with
    one of the two already-exists errors; neither writes. *)
Theorem Create_duplicate_rejected (req : CreateUserRequest) (d : DB) (u : User) (d1 : DB) :
  healthy d ->
  service.Create repo GenerateFromPassword req d = (Done u, d1) ->
  forall (req2 : CreateUserRequest) (dt : Z),
    let (r, d2) := service.Create repo GenerateFromPassword req2 (tick dt d1) in
    (create_Username req2 = create_Username req ->
     r = Fail service.ErrUserAlreadyExists /\ table d2 = table d1) /\
    (create_Email req2 = create_Email req ->
     (r = Fail service.ErrUserAlreadyExists \/ r = Fail service.ErrEmailAlreadyUsed) /\
     table d2 = table d1).
Proof.
  intros Hh Hc req2 dt.
  pose proof (service_Create_cases req d) as H. rewrite Hc in H.
  destruct H as (Hh1 & _ & _ & _ & (h & _ & Hu) & _ & Ht & _).
  assert (table d1 !! users_id_seq d = Some (columns u)) as Hrow
    by (rewrite Ht; apply lookup_insert_eq).
  assert (healthy (tick dt d1)) as Hh2 by (apply Hh1, Hh).
  pose proof (service_Create_taken req2 (tick dt d1) Hh2) as H2.
  destruct (service.Create repo GenerateFromPassword req2 (tick dt d1)) as [r d2].
  destruct H2 as [Hname Hmail]. split.
  - intros E. apply Hname. exists (users_id_seq d), (columns u).
    split; [exact Hrow|]. rewrite Hu, E. reflexivity.
  - intros E. apply Hmail. exists (users_id_seq d), (columns u).
    split; [exact Hrow|]. rewrite Hu, E. reflexivity.
Qed.

End CreateOutcomes.

(** X5, a run: "bob" is created on [store1]; five ticks later a second
    request under the same username is refused. *)
Lemma Create_duplicate_rejected_witness :
  let repo := repository.NewUserRepository pg_like in
  let d1 := (service.Create repo toy_hash bob_request store1).2 in
  (service.Create repo toy_hash (mkCreateUserRequest "bob" "c@x.com" "secret3")
     (tick 5 d1)).1 = Fail service.ErrUserAlreadyExists.
Proof.
  intros repo d1.
  assert (service.Create repo toy_hash bob_request store1
          = (Done (mkUser (mkBaseModel 2 200 200) "bob" "b@x.com"
                          "$2a$10$hash-of-secret2" UserStatusActive), d1)) as E
    by (vm_compute; reflexivity).
  pose proof (Create_duplicate_rejected pg_like toy_hash bob_request store1 _ _ eq_refl E
                (mkCreateUserRequest "bob" "c@x.com" "secret3") 5) as H.
  subst repo.
  destruct (service.Create _ toy_hash _ (tick 5 d1)) as [r d2].
  exact (proj1 (proj1 H eq_refl)).
Defined.

(** ** Update: the uniqueness checks *)

Section UpdateChecks.
Variable sql_like : string -> string -> bool.
#[local] Abbreviation repo := (repository.NewUserRepository sql_like).

Lemma update_username_eq id req user d :
  service.update_username repo id req user d =
  if String.eqb (update_Username req) "" then (Done user, d)
  else
    (match (repository.fetch sql_like [UsernameEq (update_Username req)] d).1 with
     | Done existing =>
         if negb (User_ID existing =? id) then Fail service.ErrUserAlreadyExists
         else Done (set_Username user (update_Username req))
     | Fail _ => Done (set_Username user (update_Username req))
     end, logged (by_username (update_Username req)) d).
Proof.
  unfold service.update_username, bind, ret.
  destruct (String.eqb (update_Username req) ""); [reflexivity|].
  simpl. unfold repository.GetByUsername.
  pose proof (fetch_state sql_like [UsernameEq (update_Username req)] d) as Hs.
  destruct (repository.fetch sql_like _ d) as [r d1]. simpl in *. subst d1.
  reflexivity.
Qed.

Lemma update_email_eq id req user d :
  service.update_email repo id req user d =
  if String.eqb (update_Email req) "" then (Done user, d)
  else
    (match (repository.fetch sql_like [EmailEq (update_Email req)] d).1 with
     | Done existing =>
         if negb (User_ID existing =? id) then Fail service.ErrEmailAlreadyUsed
         else Done (set_Email user (update_Email req))
     | Fail _ => Done (set_Email user (update_Email req))
     end, logged (by_email (update_Email req)) d).
Proof.
  unfold service.update_email, bind, ret.
  destruct (String.eqb (update_Email req) ""); [reflexivity|].
  simpl. unfold repository.GetByEmail.
  pose proof (fetch_state sql_like [EmailEq (update_Email req)] d) as Hs.
  destruct (repository.fetch sql_like _ d) as [r d1]. simpl in *. subst d1.
  reflexivity.
Qed.

(** The username step rejects only for a stored row of another id. *)
Lemma update_username_rejects id req user d e d1 :
  service.update_username repo id req user d = (Fail e, d1) ->
  e = service.ErrUserAlreadyExists /\
  update_Username req <> ""%string /\
  exists k r, k <> id /\ table d !! k = Some r /\ col_username r = update_Username req.
Proof.
  rewrite update_username_eq.
  destruct (String.eqb (update_Username req) "") eqn:En; [discriminate|].
  apply String.eqb_neq in En.
  destruct (repository.fetch sql_like _ d) as [[ex|e0] d2] eqn:Ef; simpl;
    [|discriminate].
  destruct (User_ID ex =? id) eqn:Eid; simpl; [discriminate|].
  intros [= <- <-]. split; [reflexivity|]. split; [exact En|].
  apply fetch_Done in Ef as (k & r & -> & Hk & Hs).
  apply satisfies_UsernameEq in Hs. apply Z.eqb_neq in Eid.
  exists k, r. auto.
Qed.

Lemma update_email_rejects id req user d e d1 :
  service.update_email repo id req user d = (Fail e, d1) ->
  e = service.ErrEmailAlreadyUsed /\
  update_Email req <> ""%string /\
  exists k r, k <> id /\ table d !! k = Some r /\ col_email r = update_Email req.
Proof.
  rewrite update_email_eq.
  destruct (String.eqb (update_Email req) "") eqn:En; [discriminate|].
  apply String.eqb_neq in En.
  destruct (repository.fetch sql_like _ d) as [[ex|e0] d2] eqn:Ef; simpl;
    [|discriminate].
  destruct (User_ID ex =? id) eqn:Eid; simpl; [discriminate|].
  intros [= <- <-]. split; [reflexivity|]. split; [exact En|].
  apply fetch_Done in Ef as (k & r & -> & Hk & Hs).
  apply satisfies_EmailEq in Hs. apply Z.eqb_neq in Eid.
  exists k, r. auto.
Qed.

(** X6: an already-exists answer of [Update] is never spurious: the
    requested username (email) is non-empty and held by a record with
    another id.  Whatever the store does. *)
Theorem Update_conflict_genuine (id : Z) (req : UpdateUserRequest) (d : DB) :
  let (r, d') := service.Update repo id req d in
  (r = Fail service.ErrUserAlreadyExists ->
   update_Username req <> ""%string /\
   exists k row, k <> id /\ table d !! k = Some row /\
                 col_username row = update_Username req) /\
  (r = Fail service.ErrEmailAlreadyUsed ->
   update_Email req <> ""%string /\
   exists k row, k <> id /\ table d !! k = Some row /\
                 col_email row = update_Email req).
Proof.
  unfold service.Update, bind, ret. simpl. rewrite GetByID_eq.
  destruct (match next_fault d with Some _ => _ | None => _ end) as [user|e0];
    [|split; discriminate].
  destruct (service.update_username repo id req user _) as [[u1|e1] d1] eqn:E1.
  2:{ apply update_username_rejects in E1 as (-> & Hne & Hex).
      split; [auto|discriminate]. }
  assert (table d1 = table d) as Ht1.
  { pose proof (update_username_cases sql_like id req user (logged (by_id id) d)) as H.
    rewrite E1 in H. apply H. }
  destruct (service.update_email repo id req u1 d1) as [[u2|e2] d2] eqn:E2.
  2:{ apply update_email_rejects in E2 as (-> & Hne & Hex). rewrite Ht1 in Hex.
      split; [discriminate|auto]. }
  destruct (repository.Update _ d2) as [[u3|e3] d3]; split; discriminate.
Qed.

End UpdateChecks.

Section UpdateConflicts.
Variable sql_like : string -> string -> bool.
#[local] Abbreviation repo := (repository.NewUserRepository sql_like).

(** Under the UNIQUE constraints a username selects the one row that
    has it. *)
Lemma matching_username_unique (t : gmap Z Row) k row :
  unique_rows t -> t !! k = Some row ->
  matching sql_like [UsernameEq (col_username row)] t = [(k, row)].
Proof.
  intros Hu Hk. apply matching_unique; [exact Hk|by apply satisfies_UsernameEq|].
  intros k' r' Hk' Hs. apply satisfies_UsernameEq in Hs.
  destruct (decide (k' = k)) as [|Hne]; [assumption|].
  destruct (Hu k' k r' row Hk' Hk Hne). contradiction.
Qed.

Lemma matching_email_unique (t : gmap Z Row) k row :
  unique_rows t -> t !! k = Some row ->
  matching sql_like [EmailEq (col_email row)] t = [(k, row)].
Proof.
  intros Hu Hk. apply matching_unique; [exact Hk|by apply satisfies_EmailEq|].
  intros k' r' Hk' Hs. apply satisfies_EmailEq in Hs.
  destruct (decide (k' = k)) as [|Hne]; [assumption|].
  destruct (Hu k' k r' row Hk' Hk Hne). contradiction.
Qed.

Lemma update_username_held id req user d k row :
  next_fault d = None -> unique_rows (table d) ->
  table d !! k = Some row -> col_username row = update_Username req ->
  update_Username req <> ""%string ->
  service.update_username repo id req user d =
  (if negb (k =? id) then Fail service.ErrUserAlreadyExists
   else Done (set_Username user (update_Username req)),
   logged (by_username (update_Username req)) d).
Proof.
  intros Hf Hu Hk Hn Hne. rewrite update_username_eq.
  apply String.eqb_neq in Hne. rewrite Hne.
  rewrite (fetch_single sql_like _ d k row Hf); [reflexivity|].
  rewrite <- Hn. by apply matching_username_unique.
Qed.

Lemma update_email_held id req user d k row :
  next_fault d = None -> unique_rows (table d) ->
  table d !! k = Some row -> col_email row = update_Email req ->
  update_Email req <> ""%string ->
  service.update_email repo id req user d =
  (if negb (k =? id) then Fail service.ErrEmailAlreadyUsed
   else Done (set_Email user (update_Email req)),
   logged (by_email (update_Email req)) d).
Proof.
  intros Hf Hu Hk Hn Hne. rewrite update_email_eq.
  apply String.eqb_neq in Hne. rewrite Hne.
  rewrite (fetch_single sql_like _ d k row Hf); [reflexivity|].
  rewrite <- Hn. by apply matching_email_unique.
Qed.

Lemma update_username_healthy id req user d :
  healthy d -> healthy (service.update_username repo id req user d).2.
Proof.
  intros Hh. rewrite update_username_eq.
  destruct (String.eqb _ _); [exact Hh|]. by apply healthy_logged.
Qed.

(** X7: on a store that executes its statements, an [Update] to a
    username held by another record is refused with [ErrUserAlreadyExists]
    and one to an email held by another record with one of the two
    already-exists errors (the username is checked first); neither
    writes. *)
Theorem Update_conflict_rejected (id : Z) (req : UpdateUserRequest) (d : DB) (u0 : User)
    (k : Z) (row : Row) :
  healthy d -> unique_rows (table d) ->
  stored d id = Some u0 ->
  table d !! k = Some row -> k <> id ->
  let (r, d') := service.Update repo id req d in
  (col_username row = update_Username req -> update_Username req <> ""%string ->
   r = Fail service.ErrUserAlreadyExists /\ table d' = table d) /\
  (col_email row = update_Email req -> update_Email req <> ""%string ->
   (r = Fail service.ErrUserAlreadyExists \/ r = Fail service.ErrEmailAlreadyUsed) /\
   table d' = table d).
Proof.
  intros Hh Hu Hst Hk Hne. unfold stored in Hst.
  destruct (table d !! id) as [r0|] eqn:Hrow; [|discriminate].
  unfold service.Update, bind, ret. simpl.
  rewrite GetByID_eq, (healthy_next_fault d Hh), Hrow.
  set (d0 := logged (by_id id) d).
  assert (healthy d0) as Hh0 by (by apply healthy_logged).
  assert ((k =? id) = false) as Hkid by (by apply Z.eqb_neq).
  pose proof (update_username_cases sql_like id req (scan (id, r0)) d0) as H1.
  pose proof (update_username_healthy id req (scan (id, r0)) d0 Hh0) as Hh1.
  destruct (service.update_username repo id req (scan (id, r0)) d0) as [r1 d1] eqn:E1.
  destruct H1 as (Hr1 & Ht1 & _). simpl in Hh1.
  change (table d0) with (table d) in Ht1.
  destruct r1 as [u1|e1].
  2:{ destruct Hr1 as [Hr1|Hr1]; [|discriminate]. injection Hr1 as ->.
      split; auto. }
  assert (col_username row = update_Username req ->
          update_Username req <> ""%string -> False) as Hno.
  { intros Hn Hnn.
    rewrite (update_username_held id req _ d0 k row) in E1;
      [|by apply healthy_next_fault|exact Hu|exact Hk|exact Hn|exact Hnn].
    rewrite Hkid in E1. discriminate. }
  pose proof (update_email_cases sql_like id req u1 d1) as H2.
  destruct (service.update_email repo id req u1 d1) as [r2 d2] eqn:E2.
  destruct H2 as (Hr2 & Ht2 & _).
  assert (col_email row = update_Email req -> update_Email req <> ""%string ->
          r2 = Fail service.ErrEmailAlreadyUsed) as Hm.
  { intros Hm Hmn.
    rewrite (update_email_held id req u1 d1 k row) in E2;
      [|by apply healthy_next_fault|by rewrite Ht1|by rewrite Ht1|exact Hm|exact Hmn].
    rewrite Hkid in E2. simpl in E2. congruence. }
  destruct r2 as [u2|e2].
  - destruct (repository.Update _ d2) as [[u3|e3] d3]; split; intros Hx Hy;
      try (exfalso; exact (Hno Hx Hy)); specialize (Hm Hx Hy); discriminate.
  - split; [intros Hx Hy; exfalso; exact (Hno Hx Hy)|].
    intros Hx Hy. specialize (Hm Hx Hy). injection Hm as ->.
    split; [auto|]. rewrite Ht2, Ht1. reflexivity.
Qed.

End UpdateConflicts.

(** Running the properties on concrete stores. *)

Lemma unique_rowsb_sound t : unique_rowsb t = true -> unique_rows t.
Proof.
  unfold unique_rowsb. rewrite forallb_forall. intros H i j ri rj Hi Hj Hne.
  assert (In (i, ri) (map_to_list t)) as Ii
    by (by apply list_elem_of_In, elem_of_map_to_list).
  assert (In (j, rj) (map_to_list t)) as Ij
    by (by apply list_elem_of_In, elem_of_map_to_list).
  specialize (H _ Ii). rewrite forallb_forall in H. specialize (H _ Ij).
  simpl in H. apply orb_true_iff in H as [H|H].
  - apply Z.eqb_eq in H. contradiction.
  - apply andb_true_iff in H as [H1 H2].
    apply negb_true_iff, String.eqb_neq in H1, H2. auto.
Qed.

Lemma consistentb_sound d : consistentb d = true -> consistent d.
Proof.
  unfold consistentb. rewrite andb_true_iff, forallb_forall. intros [Hu Hall].
  split; [by apply unique_rowsb_sound|].
  split.
  - intros k [r Hk].
    assert (In (k, r) (map_to_list (table d))) as Hin
      by (by apply list_elem_of_In, elem_of_map_to_list).
    apply Hall in Hin. apply andb_true_iff in Hin as [Hin _].
    by apply Z.ltb_lt in Hin.
  - intros k r Hk.
    assert (In (k, r) (map_to_list (table d))) as Hin
      by (by apply list_elem_of_In, elem_of_map_to_list).
    apply Hall in Hin. apply andb_true_iff in Hin as [_ Hin].
    by apply Z.leb_le in Hin.
Qed.

Lemma consistent_store2 : consistent store2.
Proof. apply consistentb_sound. vm_compute. reflexivity. Qed.

(** X7, a run on [store2]: account 2 asks for the username of account 1. *)
Lemma Update_conflict_rejected_witness :
  (service.Update (repository.NewUserRepository pg_like) 2
     (mkUpdateUserRequest "alice" "" None) store2).1
  = Fail service.ErrUserAlreadyExists.
Proof.
  pose proof (Update_conflict_rejected pg_like 2 (mkUpdateUserRequest "alice" "" None)
                store2 (scan (2, bob_row)) 1 alice_row eq_refl
                (proj1 consistent_store2) eq_refl eq_refl ltac:(lia)) as H.
  destruct (service.Update _ 2 _ store2) as [r d'].
  exact (proj1 (proj1 H eq_refl ltac:(discriminate))).
Defined.

(** ** Missing and deleted records *)

Section MissingAndDeleted.
Variable sql_like : string -> string -> bool.

(** The service's [GetByID] over either repository: the stored record,
    or [ErrUserNotFound]. *)
Lemma service_GetByID_eq repo id d :
  repo = repository.NewUserRepository sql_like \/
  repo = repository_pgx.NewUserRepository sql_like ->
  (service.GetByID repo id d).1 =
  match next_fault d, table d !! id with
  | None, Some r => Done (scan (id, r))
  | _, _ => Fail service.ErrUserNotFound
  end /\
  table (service.GetByID repo id d).2 = table d /\
  length (log (service.GetByID repo id d).2) = S (length (log d)).
Proof.
  intros [-> | ->]; unfold service.GetByID, bind, ret; simpl.
  - rewrite GetByID_eq. simpl. rewrite length_app. simpl.
    split; [|split; [reflexivity|lia]].
    destruct (next_fault d); [reflexivity|]. destruct (table d !! id); reflexivity.
  - rewrite pgx_GetByID_eq. simpl. rewrite length_app. simpl.
    split; [|split; [reflexivity|lia]].
    destruct (next_fault d); [reflexivity|]. destruct (table d !! id); reflexivity.
Qed.

Lemma service_Delete_eq repo id d :
  repo = repository.NewUserRepository sql_like \/
  repo = repository_pgx.NewUserRepository sql_like ->
  let (r, d') := service.Delete repo id d in
  match next_fault d, table d !! id with
  | None, Some _ =>
      match r with
      | None => table d' = delete id (table d)
      | Some e => table d' = table d /\ e <> service.ErrUserNotFound
      end
  | _, _ => r = Some service.ErrUserNotFound /\ table d' = table d
  end.
Proof.
  intros [-> | ->]; unfold service.Delete, bind, ret; simpl.
  - rewrite GetByID_eq.
    destruct (next_fault d) as [f|]; [auto|].
    destruct (table d !! id) as [r0|] eqn:Hrow; [|auto].
    rewrite repository_Delete_eq. change (table (logged _ d)) with (table d).
    rewrite Hrow.
    destruct (next_fault (logged (by_id id) d)); [split; [reflexivity|discriminate]|].
    reflexivity.
  - rewrite pgx_GetByID_eq.
    destruct (next_fault d) as [f|]; [auto|].
    destruct (table d !! id) as [r0|] eqn:Hrow; [|auto].
    rewrite pgx_Delete_eq. change (table (logged _ d)) with (table d).
    rewrite Hrow.
    destruct (next_fault (logged _ d)); [split; [reflexivity|discriminate]|].
    reflexivity.
Qed.

(** X8: a [Delete] that reports success has removed the record and
    nothing else, and from then on the id is unknown: [GetByID] and a
    second [Delete] answer [ErrUserNotFound]; a [Delete] that reports an
    error has written nothing.  Over either repository, whatever the store
    does. *)
Theorem Delete_removes (repo : UserRepository) (id : Z) (d : DB) :
  repo = repository.NewUserRepository sql_like \/
  repo = repository_pgx.NewUserRepository sql_like ->
  let (r, d') := service.Delete repo id d in
  match r with
  | None =>
      is_Some (table d !! id) /\
      table d' = delete id (table d) /\
      (forall dt, (service.GetByID repo id (tick dt d')).1
                  = Fail service.ErrUserNotFound) /\
      (forall dt, (service.Delete repo id (tick dt d')).1
                  = Some service.ErrUserNotFound)
  | Some e => table d' = table d
  end.
Proof.
  intros Hrepo. pose proof (service_Delete_eq repo id d Hrepo) as H.
  destruct (service.Delete repo id d) as [r d'].
  destruct (next_fault d) as [f|].
  { destruct H as [-> H]. exact H. }
  destruct (table d !! id) as [r0|] eqn:Hrow.
  2:{ destruct H as [-> H]. exact H. }
  destruct r as [e|]; [apply H|].
  assert (forall dt, table (tick dt d') !! id = None) as Hgone.
  { intros dt. simpl. rewrite H. apply lookup_delete_eq. }
  split; [eauto|]. split; [exact H|]. split.
  - intros dt. destruct (service_GetByID_eq repo id (tick dt d') Hrepo) as (-> & _).
    rewrite Hgone. destruct (next_fault _); reflexivity.
  - intros dt. pose proof (service_Delete_eq repo id (tick dt d') Hrepo) as H2.
    destruct (service.Delete repo id (tick dt d')) as [r2 d2]. rewrite Hgone in H2.
    simpl. destruct (next_fault _); apply H2.
Qed.

(** X9: an [Update] of an id the store does not hold answers
    [ErrUserNotFound] after the one lookup by id: no uniqueness check is
    made and nothing is written.  Over either repository, whatever the
    store does. *)
Theorem Update_missing_NotFound (repo : UserRepository) (id : Z)
    (req : UpdateUserRequest) (d : DB) :
  repo = repository.NewUserRepository sql_like \/
  repo = repository_pgx.NewUserRepository sql_like ->
  table d !! id = None ->
  exists d', service.Update repo id req d = (Fail service.ErrUserNotFound, d') /\
             table d' = table d /\
             length (log d') = S (length (log d)).
Proof.
  intros [-> | ->] Hrow; unfold service.Update, bind, ret; simpl.
  - rewrite GetByID_eq, Hrow. eexists.
    split; [destruct (next_fault d); reflexivity|].
    split; [reflexivity|]. simpl. rewrite length_app. simpl. lia.
  - rewrite pgx_GetByID_eq, Hrow. eexists.
    split; [destruct (next_fault d); reflexivity|].
    split; [reflexivity|]. simpl. rewrite length_app. simpl. lia.
Qed.

End MissingAndDeleted.

(** X8, a run: account 1 of [store1] is deleted. *)
Lemma Delete_removes_witness :
  let repo := repository.NewUserRepository pg_like in
  let d' := (service.Delete repo 1 store1).2 in
  (service.Delete repo 1 store1).1 = None /\
  table d' = delete 1 (table store1) /\
  (service.GetByID repo 1 (tick 5 d')).1 = Fail service.ErrUserNotFound /\
  (service.Delete repo 1 (tick 5 d')).1 = Some service.ErrUserNotFound.
Proof.
  intros repo d'.
  assert (service.Delete repo 1 store1 = (None, d')) as E by (vm_compute; reflexivity).
  pose proof (Delete_removes pg_like repo 1 store1 (or_introl eq_refl)) as H.
  rewrite E in H. destruct H as (_ & Ht & Hg & Hd).
  split; [rewrite E; reflexivity|]. split; [exact Ht|]. split; [apply Hg|apply Hd].
Defined.

(** X9, a run: [store1] holds no account 7. *)
Lemma Update_missing_NotFound_witness :
  exists d', service.Update (repository.NewUserRepository pg_like) 7
               (mkUpdateUserRequest "zed" "" None) store1
             = (Fail service.ErrUserNotFound, d') /\
             table d' = table store1 /\
             length (log d') = S (length (log store1)).
Proof.
  exact (Update_missing_NotFound pg_like _ 7 (mkUpdateUserRequest "zed" "" None) store1
           (or_introl eq_refl) eq_refl).
Defined.

(** ** The handlers' replies *)

Lemma coherent_BadRequest_bind err :
  coherent (response.BadRequest ("请求参数错误: " +:+ err)).
Proof. right. simpl. repeat split; auto; discriminate. Qed.

Lemma coherent_Success data : coherent (response.Success data).
Proof. left. split; reflexivity. Qed.

Ltac error_reply := right; simpl; repeat split; auto; discriminate.

(** X10: whatever the repository, the store and the request, each
    handler answers a reply whose HTTP status and envelope agree. *)
Theorem handler_replies_coherent (repo : UserRepository)
    (GenerateFromPassword : string -> Z -> result string) (d : DB) :
  (forall bound, coherent (handler.Create repo GenerateFromPassword bound d).1) /\
  (forall id, coherent (handler.Get repo id d).1) /\
  (forall bound, coherent (handler.List repo bound d).1) /\
  (forall id bound, coherent (handler.Update repo id bound d).1) /\
  (forall id, coherent (handler.Delete repo id d).1) /\
  coherent handler.Health /\ coherent handler.Ready.
Proof.
  split; [|split; [|split; [|split; [|split; [|split]]]]].
  - intros [req|err]; [|apply coherent_BadRequest_bind].
    unfold handler.Create, bind, ret.
    destruct (service.Create repo GenerateFromPassword req d) as [[u|e] d'];
      [apply coherent_Success|]. simpl.
    destruct (errors_Is e VarErrUserAlreadyExists); [error_reply|].
    destruct (errors_Is e VarErrEmailAlreadyUsed); error_reply.
  - intros [id|err]; [|error_reply].
    unfold handler.Get, bind, ret.
    destruct (service.GetByID repo id d) as [[u|e] d'];
      [apply coherent_Success|]. simpl.
    destruct (errors_Is e VarErrUserNotFound); error_reply.
  - intros [params|err]; [|apply coherent_BadRequest_bind].
    unfold handler.List, bind, ret.
    destruct (service.List repo params d) as [[[users total]|e] d'];
      [left; split; reflexivity|error_reply].
  - intros [id|err] bound; [|error_reply].
    destruct bound as [req|err]; [|apply coherent_BadRequest_bind].
    unfold handler.Update, bind, ret.
    destruct (service.Update repo id req d) as [[u|e] d'];
      [apply coherent_Success|]. simpl.
    destruct (errors_Is e VarErrUserNotFound); [error_reply|].
    destruct (errors_Is e VarErrUserAlreadyExists); [error_reply|].
    destruct (errors_Is e VarErrEmailAlreadyUsed); error_reply.
  - intros [id|err]; [|error_reply].
    unfold handler.Delete, bind, ret.
    destruct (service.Delete repo id d) as [[e|] d']; [|apply coherent_Success].
    simpl. destruct (errors_Is e VarErrUserNotFound); error_reply.
  - left. split; reflexivity.
  - left. split; reflexivity.
Qed.

(** X11: [Get] never answers 500.  Whatever error the repository
    reports, the reply is 404; the handler's branch for other errors
    cannot be reached. *)
Theorem Get_never_ServerError (repo : UserRepository) (d : DB) :
  (forall id, (handler.Get repo id d).1.1 <> response.StatusInternalServerError) /\
  (forall id e d', repo_GetByID repo id d = (Fail e, d') ->
     (handler.Get repo (Done id) d).1 = response.NotFound "用户不存在") /\
  (forall id u d', repo_GetByID repo id d = (Done u, d') ->
     (handler.Get repo (Done id) d).1 = response.Success (Some (marshal_User u))).
Proof.
  split; [|split].
  - intros [id|err]; [|discriminate].
    unfold handler.Get, service.GetByID, bind, ret.
    destruct (repo_GetByID repo id d) as [[u|e] d']; discriminate.
  - intros id e d' E. unfold handler.Get, service.GetByID, bind, ret.
    rewrite E. reflexivity.
  - intros id u d' E. unfold handler.Get, service.GetByID, bind, ret.
    rewrite E. reflexivity.
Qed.

Lemma all_keys_User u :
  all_keys (marshal_User u) =
  ["id"; "created_at"; "updated_at"; "username"; "email"; "status"]%string.
Proof. reflexivity. Qed.

Lemma all_keys_users users k :
  k ∈ all_keys (JArr (map marshal_User users)) ->
  k ∈ ["id"; "created_at"; "updated_at"; "username"; "email"; "status"]%string.
Proof.
  induction users as [|u users IH].
  - intros H. inversion H.
  - change (all_keys (JArr (map marshal_User (u :: users))))
      with (all_keys (marshal_User u) ++ all_keys (JArr (map marshal_User users))).
    rewrite elem_of_app, all_keys_User. intros [H|H]; [exact H|exact (IH H)].
Qed.

Lemma subset_check (l m : list string) :
  forallb (fun k => bool_decide (k ∈ m)) l = true -> forall k, k ∈ l -> k ∈ m.
Proof.
  rewrite forallb_forall. intros H k Hk. apply list_elem_of_In in Hk.
  apply H in Hk. by apply bool_decide_eq_true in Hk.
Qed.

Lemma reply_keys_no_password k : k ∈ reply_keys -> k <> "password"%string.
Proof.
  intros H ->. revert H.
  apply (proj1 (bool_decide_eq_false ("password"%string ∈ reply_keys))). reflexivity.
Qed.

Lemma within_schema_no_data reply :
  response.Data reply.2 = None -> within_schema reply.
Proof.
  destruct reply as [st [c m data]]. simpl. intros -> k Hk.
  assert (k ∈ reply_keys) as H
    by (revert k Hk; apply subset_check; reflexivity).
  split; [exact H|by apply reply_keys_no_password].
Qed.

Lemma within_schema_user st c m u :
  within_schema (st, response.mkResponse c m (Some (marshal_User u))).
Proof.
  intros k Hk.
  assert (k ∈ reply_keys) as H
    by (revert k Hk; apply subset_check; reflexivity).
  split; [exact H|by apply reply_keys_no_password].
Qed.

Lemma within_schema_page users total page pageSize :
  within_schema (response.SuccessPage (JArr (map marshal_User users)) total page pageSize).
Proof.
  intros k Hk.
  assert (k ∈ reply_keys) as H; [|split; [exact H|by apply reply_keys_no_password]].
  change (k ∈ ["code"; "message"; "data"; "list"]%string ++
              (all_keys (JArr (map marshal_User users)) ++
               ["total"; "page"; "page_size"]%string) ++ []) in Hk.
  rewrite app_nil_r, !elem_of_app in Hk. destruct Hk as [Hk|[Hk|Hk]].
  - revert k Hk. apply subset_check. reflexivity.
  - apply all_keys_users in Hk. revert k Hk. apply subset_check. reflexivity.
  - revert k Hk. apply subset_check. reflexivity.
Qed.

Ltac plain_reply := apply within_schema_no_data; reflexivity.

(** X12: whatever the repository, the store and the request, the body of
    every reply has documented keys only, at every depth; [password] is
    not among them. *)
Theorem reply_bodies_within_schema (repo : UserRepository)
    (GenerateFromPassword : string -> Z -> result string) (d : DB) :
  (forall bound, within_schema (handler.Create repo GenerateFromPassword bound d).1) /\
  (forall id, within_schema (handler.Get repo id d).1) /\
  (forall bound, within_schema (handler.List repo bound d).1) /\
  (forall id bound, within_schema (handler.Update repo id bound d).1) /\
  (forall id, within_schema (handler.Delete repo id d).1) /\
  within_schema handler.Health /\ within_schema handler.Ready.
Proof.
  split; [|split; [|split; [|split; [|split; [|split]]]]].
  - intros [req|err]; [|plain_reply].
    unfold handler.Create, bind, ret.
    destruct (service.Create repo GenerateFromPassword req d) as [[u|e] d'];
      [apply within_schema_user|]. simpl.
    destruct (errors_Is e VarErrUserAlreadyExists); [plain_reply|].
    destruct (errors_Is e VarErrEmailAlreadyUsed); plain_reply.
  - intros [id|err]; [|plain_reply].
    unfold handler.Get, bind, ret.
    destruct (service.GetByID repo id d) as [[u|e] d'];
      [apply within_schema_user|]. simpl.
    destruct (errors_Is e VarErrUserNotFound); plain_reply.
  - intros [params|err]; [|plain_reply].
    unfold handler.List, bind, ret.
    destruct (service.List repo params d) as [[[users total]|e] d'];
      [apply within_schema_page|plain_reply].
  - intros [id|err] bound; [|plain_reply].
    destruct bound as [req|err]; [|plain_reply].
    unfold handler.Update, bind, ret.
    destruct (service.Update repo id req d) as [[u|e] d'];
      [apply within_schema_user|]. simpl.
    destruct (errors_Is e VarErrUserNotFound); [plain_reply|].
    destruct (errors_Is e VarErrUserAlreadyExists); [plain_reply|].
    destruct (errors_Is e VarErrEmailAlreadyUsed); plain_reply.
  - intros [id|err]; [|plain_reply].
    unfold handler.Delete, bind, ret.
    destruct (service.Delete repo id d) as [[e|] d']; [|plain_reply].
    simpl. destruct (errors_Is e VarErrUserNotFound); plain_reply.
  - intros k Hk.
    assert (k ∈ reply_keys) as H
      by (revert k Hk; apply subset_check; reflexivity).
    split; [exact H|by apply reply_keys_no_password].
  - intros k Hk.
    assert (k ∈ reply_keys) as H
      by (revert k Hk; apply subset_check; reflexivity).
    split; [exact H|by apply reply_keys_no_password].
Qed.

(** ** Listing: filters and page lengths *)

Section ListingFacts.
Variable sql_like : string -> string -> bool.

(** What the WHERE clause of [List] asks of a row. *)
Lemma satisfies_list_conds params k r :
  satisfies sql_like (list_conds params) (k, r) = true <->
  (query_Username params <> ""%string ->
   sql_like ("%" +:+ query_Username params +:+ "%") (col_username r) = true) /\
  (query_Email params <> ""%string ->
   sql_like ("%" +:+ query_Email params +:+ "%") (col_email r) = true) /\
  (forall s, query_Status params = Some s -> col_status r = s).
Proof.
  unfold satisfies, list_conds.
  rewrite !forallb_app, !andb_true_iff.
  split.
  - intros (H1 & H2 & H3). split; [|split].
    + intros Hne. apply String.eqb_neq in Hne. rewrite Hne in H1. simpl in H1.
      by rewrite andb_true_r in H1.
    + intros Hne. apply String.eqb_neq in Hne. rewrite Hne in H2. simpl in H2.
      by rewrite andb_true_r in H2.
    + intros s Hs. rewrite Hs in H3. simpl in H3. rewrite andb_true_r in H3.
      by apply Z.eqb_eq in H3.
  - intros (H1 & H2 & H3). split; [|split].
    + destruct (String.eqb (query_Username params) "") eqn:E; [reflexivity|].
      apply String.eqb_neq in E. simpl. rewrite (H1 E). reflexivity.
    + destruct (String.eqb (query_Email params) "") eqn:E; [reflexivity|].
      apply String.eqb_neq in E. simpl. rewrite (H2 E). reflexivity.
    + destruct (query_Status params) as [s|]; [|reflexivity].
      simpl. rewrite (H3 s eq_refl), Z.eqb_refl. reflexivity.
Qed.

Lemma StronglySorted_take_drop {A} (R : relation A) (l : list A) n m :
  StronglySorted R l -> StronglySorted R (take n (drop m l)).
Proof.
  intros H. rewrite <- (take_drop m l) in H.
  apply StronglySorted_app_1_r in H.
  rewrite <- (take_drop n (drop m l)) in H.
  by apply StronglySorted_app_1_l in H.
Qed.

Lemma elem_of_take_drop {A} (l : list A) n m x :
  x ∈ take n (drop m l) -> x ∈ l.
Proof.
  intros H. rewrite <- (take_drop m l). apply elem_of_app. right.
  rewrite <- (take_drop n (drop m l)). apply elem_of_app. by left.
Qed.

(** X13: on a store that executes its statements, [List] answers stored
    records only, each meeting every filter the request carries, in
    strictly descending order of id, at most a page of them, together
    with the size of the filtered set. *)
Theorem List_respects_filter (params : UserQueryParams) (d : DB) :
  healthy d ->
  exists users total d',
    repository.List sql_like params d = (Done (users, total), d') /\
    Z.of_nat (length users) <= list_pageSize params /\
    Z.of_nat (length users) <= total /\
    StronglySorted (fun a b : User => User_ID b < User_ID a) users /\
    (forall u, u ∈ users ->
       stored d (User_ID u) = Some u /\
       (query_Username params <> ""%string ->
        sql_like ("%" +:+ query_Username params +:+ "%") (Username u) = true) /\
       (query_Email params <> ""%string ->
        sql_like ("%" +:+ query_Email params +:+ "%") (Email u) = true) /\
       (forall s, query_Status params = Some s -> Status u = s)).
Proof.
  intros Hh. rewrite (repository_List_healthy sql_like params d Hh).
  eexists _, _, _. split; [reflexivity|].
  pose proof (list_pageSize_pos params) as Hps.
  assert (length (listing sql_like params d)
          = length (matching sql_like (list_conds params) (table d))) as Hlen
    by (apply Permutation_length, listing_Permutation).
  split; [|split; [|split]].
  - rewrite length_map, length_take. lia.
  - rewrite length_map, length_take, length_drop. lia.
  - rewrite <- firstn_map, <- skipn_map.
    apply StronglySorted_take_drop, listing_sorted.
  - intros u Hu. apply list_elem_of_In, in_map_iff in Hu as ([k r] & <- & Hin).
    apply list_elem_of_In in Hin.
    apply elem_of_take_drop in Hin. rewrite listing_Permutation in Hin.
    apply elem_of_matching in Hin as [Hk Hs].
    apply satisfies_list_conds in Hs as (H1 & H2 & H3).
    split; [|auto]. unfold stored, User_ID. simpl. rewrite Hk. reflexivity.
Qed.

(** X14: the total and the length of a page.  With [N] stored records
    meeting the conditions of the listing, [List] reports the total [N],
    and page [p] of size [s] holds [min s (N - (p-1)*s)] records, and none
    once [(p-1)*s] reaches [N]: a page past the end is an empty success
    that still reports the total. *)
Theorem List_page_length (params : UserQueryParams) (d : DB) :
  healthy d -> int64_range (Page params) ->
  (list_page params - 1) * list_pageSize params <= max_int64 ->
  let N := Z.of_nat (length (filter (fun kr : Z * Row => like_filter sql_like params kr.2)
                                    (map_to_list (table d)))) in
  exists users d',
    repository.List sql_like params d = (Done (users, N), d') /\
    Z.of_nat (length users) =
      Z.max 0 (Z.min (list_pageSize params)
                     (N - (list_page params - 1) * list_pageSize params)) /\
    (N <= (list_page params - 1) * list_pageSize params -> users = []).
Proof.
  intros Hh Hp Hfit N. rewrite (repository_List_healthy sql_like params d Hh).
  subst N. rewrite <- matching_like_filter.
  eexists _, _. split; [reflexivity|].
  pose proof (list_pageSize_pos params) as Hps.
  pose proof (list_page_pos params) as Hpg.
  rewrite (list_offset_exact params Hp Hfit).
  assert (length (listing sql_like params d)
          = length (matching sql_like (list_conds params) (table d))) as Hlen
    by (apply Permutation_length, listing_Permutation).
  split.
  - rewrite length_map, length_take, length_drop, Hlen. nia.
  - intros Hpast. rewrite drop_ge; [by rewrite take_nil|]. rewrite Hlen. nia.
Qed.

End ListingFacts.

(** X13, a run on [store2]: the active accounts whose username contains
    "li" and whose email contains "x.com".  "alice" is listed, "bob" is
    not. *)
Lemma List_respects_filter_witness :
  exists d',
    repository.List pg_like (mkUserQueryParams "li" "x.com" (Some 1) 1 10) store2
      = (Done ([mkUser (mkBaseModel 1 100 100) "alice" "a@x.com"
                       "$2a$10$hash-of-secret1" 1], 1), d') /\
    stored store2 1 = Some (mkUser (mkBaseModel 1 100 100) "alice" "a@x.com"
                                   "$2a$10$hash-of-secret1" 1) /\
    pg_like "%li%" "alice" = true /\
    pg_like "%x.com%" "a@x.com" = true /\
    pg_like "%li%" "bob" = false.
Proof.
  destruct (List_respects_filter pg_like (mkUserQueryParams "li" "x.com" (Some 1) 1 10)
              store2 eq_refl)
    as (users & total & d' & E & _ & _ & _ & Hall).
  assert ((users, total) =
          ([mkUser (mkBaseModel 1 100 100) "alice" "a@x.com"
                   "$2a$10$hash-of-secret1" 1], 1)) as Hu.
  { assert ((repository.List pg_like (mkUserQueryParams "li" "x.com" (Some 1) 1 10)
               store2).1 = Done (users, total)) as H1 by (rewrite E; reflexivity).
    vm_compute in H1. injection H1 as <- <-. reflexivity. }
  injection Hu as -> ->.
  exists d'. split; [exact E|].
  destruct (Hall _ ltac:(left)) as (Hst & Hn & He & _).
  split; [exact Hst|].
  split; [apply Hn; discriminate|].
  split; [apply He; discriminate|reflexivity].
Defined.

(** X14, a run: of the 13 accounts of [big_store] whose username
    contains "user1", page 2 holds the last three. *)
Lemma List_page_length_witness :
  exists users d',
    repository.List pg_like (with_page user1_filter 2 10) big_store
      = (Done (users, 13), d') /\
    Z.of_nat (length users) = 3 /\
    map User_ID users = [11; 10; 1].
Proof.
  assert (int64_range 2) as Hp by (unfold int64_range, min_int64, max_int64; lia).
  assert ((2 - 1) * 10 <= max_int64) as Hfit by (unfold max_int64; lia).
  pose proof (List_page_length pg_like (with_page user1_filter 2 10) big_store
                eq_refl Hp Hfit) as H.
  cbv zeta in H.
  assert (Z.of_nat (length (filter (fun kr : Z * Row =>
            like_filter pg_like (with_page user1_filter 2 10) kr.2)
            (map_to_list (table big_store)))) = 13) as HN by (vm_compute; reflexivity).
  rewrite HN in H. destruct H as (users & d' & E & Hlen & _).
  exists users, d'. split; [exact E|]. split; [exact Hlen|].
  assert ((repository.List pg_like (with_page user1_filter 2 10) big_store).1
          = Done (users, 13)) as H1 by (rewrite E; reflexivity).
  vm_compute in H1. injection H1 as <-. reflexivity.
Defined.

(** ** What stays across operations *)

Lemma history_kept_same d d' : table d' = table d -> history_kept d d'.
Proof.
  intros Ht k r r' Hk Hk'. rewrite Ht, Hk in Hk'. injection Hk' as <-.
  repeat split; lia.
Qed.

Section UpdateSuccess.
Variable sql_like : string -> string -> bool.
#[local] Abbreviation repo := (repository.NewUserRepository sql_like).

Lemma update_email_healthy id req user d :
  healthy d -> healthy (service.update_email repo id req user d).2.
Proof.
  intros Hh. rewrite update_email_eq.
  destruct (String.eqb _ _); [exact Hh|]. by apply healthy_logged.
Qed.

(** A successful update has rewritten the one row. *)
Lemma service_Update_Done id req d u' d' :
  service.Update repo id req d = (Done u', d') ->
  exists r0, table d !! id = Some r0 /\
             u' = merged req (scan (id, r0)) (now d) /\
             table d' = <[id := columns u']> (table d).
Proof.
  intros Hup. unfold service.Update, bind, ret in Hup. simpl in Hup.
  rewrite GetByID_eq in Hup.
  destruct (next_fault d); [discriminate|].
  destruct (table d !! id) as [r0|] eqn:Hrow; [|discriminate].
  exists r0. split; [reflexivity|].
  pose proof (update_username_cases sql_like id req (scan (id, r0)) (logged (by_id id) d))
    as H1.
  destruct (service.update_username repo id req _ _) as [r1 d1].
  destruct H1 as ([-> | ->] & Ht1 & Hn1); [discriminate|].
  match type of Hup with context [service.update_email _ _ _ ?u _] =>
    pose proof (update_email_cases sql_like id req u d1) as H2 end.
  destruct (service.update_email repo id req _ _) as [r2 d2].
  destruct H2 as ([-> | ->] & Ht2 & Hn2); [discriminate|].
  rewrite repository_Update_eq in Hup. cbv zeta in Hup.
  assert (now d2 = now d) as Hnow by (rewrite Hn2, Hn1; reflexivity).
  assert (table d2 = table d) as Htab by (rewrite Ht2, Ht1; reflexivity).
  rewrite Hnow, Htab in Hup.
  change (set_UpdatedAt (service.update_status req _) (now d))
    with (merged req (scan (id, r0)) (now d)) in Hup.
  change (User_ID (service.update_status req _))
    with (User_ID (merged req (scan (id, r0)) 0)) in Hup.
  rewrite merged_ID in Hup. change (User_ID (scan (id, r0))) with id in Hup.
  destruct (next_fault d2); [discriminate|].
  rewrite Hrow in Hup.
  destruct (unique_conflict _ _); [discriminate|].
  injection Hup as <- <-. split; reflexivity.
Qed.

End UpdateSuccess.

Section History.
Variable sql_like : string -> string -> bool.
Variable GenerateFromPassword : string -> Z -> result string.
#[local] Abbreviation repo := (repository.NewUserRepository sql_like).

(** X15: no operation of the service rewrites history.  Whatever the
    store does, a record that is there before and after the call keeps
    its creation time and its password hash, and its [updated_at] does
    not move back. *)
Theorem service_keeps_history (d : DB) :
  consistent d ->
  (forall req, history_kept d (service.Create repo GenerateFromPassword req d).2) /\
  (forall id, history_kept d (service.GetByID repo id d).2) /\
  (forall params, history_kept d (service.List repo params d).2) /\
  (forall id req, history_kept d (service.Update repo id req d).2) /\
  (forall id, history_kept d (service.Delete repo id d).2).
Proof.
  intros (_ & _ & Hclock). split; [|split; [|split; [|split]]].
  - intros req. pose proof (service_Create_cases sql_like GenerateFromPassword req d) as H.
    destruct (service.Create repo GenerateFromPassword req d) as [[u|e] d'];
      destruct H as (_ & _ & H); simpl.
    + destruct H as (_ & _ & _ & Hfree & Ht & _).
      intros k r r' Hk Hk'. rewrite Ht in Hk'.
      rewrite lookup_insert_ne in Hk' by congruence.
      rewrite Hk in Hk'. injection Hk' as <-. repeat split; lia.
    + apply history_kept_same, H.
  - intros id. apply history_kept_same.
    apply (service_GetByID_eq sql_like repo id d). by left.
  - intros params. apply history_kept_same. unfold service.List. simpl.
    unfold repository.List, gorm.Count, gorm.Find, db_count, db_select,
      bind, issue, ret. simpl.
    destruct (next_fault d); [reflexivity|]. simpl.
    destruct (next_fault _); [reflexivity|]. simpl.
    destruct (_ || _); reflexivity.
  - intros id req.
    destruct (service.Update repo id req d) as [[u'|e] d'] eqn:E; simpl.
    + apply service_Update_Done in E as (r0 & Hrow & Hu & Ht).
      intros k r r' Hk Hk'. rewrite Ht in Hk'.
      destruct (decide (k = id)) as [->|Hne].
      * rewrite lookup_insert_eq in Hk'. injection Hk' as <-.
        rewrite Hrow in Hk. injection Hk as <-.
        specialize (Hclock id r0 Hrow). rewrite Hu.
        unfold merged, service.update_status.
        destruct (update_Status req), (String.eqb (update_Username req) ""),
          (String.eqb (update_Email req) ""); simpl;
          (split; [reflexivity|split; [reflexivity|exact Hclock]]).
      * rewrite lookup_insert_ne in Hk' by congruence.
        rewrite Hk in Hk'. injection Hk' as <-. repeat split; lia.
    + apply history_kept_same. exact (Update_failure sql_like id req d e d' E).
  - intros id. pose proof (service_Delete_eq sql_like repo id d (or_introl eq_refl)) as H.
    destruct (service.Delete repo id d) as [r d']. simpl.
    destruct (next_fault d); [apply history_kept_same, H|].
    destruct (table d !! id) eqn:Hrow; [|apply history_kept_same, H].
    destruct r as [e|]; [apply history_kept_same, H|].
    intros k r r' Hk Hk'. rewrite H in Hk'.
    apply lookup_delete_Some in Hk' as [_ Hk'].
    rewrite Hk in Hk'. injection Hk' as <-. repeat split; lia.
Qed.

(** X16: on a consistent store that executes its statements, an [Update]
    of a stored record goes through whenever no record with another id
    holds the requested username or email (an empty field asks for
    nothing, and the record's own values are no conflict) and the record
    it leaves fits the columns of the migration.  It rewrites that one
    row.  The id is not zero, which GORM takes for a record not yet
    stored. *)
Theorem Update_succeeds_unless_conflict (id : Z) (req : UpdateUserRequest) (d : DB)
    (u0 : User) :
  healthy d -> consistent d ->
  id <> 0 ->
  stored d id = Some u0 ->
  (forall k row, k <> id -> table d !! k = Some row ->
     (update_Username req = ""%string \/ col_username row <> update_Username req) /\
     (update_Email req = ""%string \/ col_email row <> update_Email req)) ->
  let u' := merged req u0 (now d) in
  fits_columns (columns u') = true ->
  exists d', service.Update repo id req d = (Done u', d') /\
             table d' = <[id := columns u']> (table d).
Proof.
  intros Hh (Hu & _ & _) _ Hst Hfree u' _. subst u'. unfold stored in Hst.
  destruct (table d !! id) as [r0|] eqn:Hrow; [|discriminate].
  simpl in Hst. injection Hst as <-.
  unfold service.Update, bind, ret. simpl.
  rewrite GetByID_eq, (healthy_next_fault d Hh), Hrow.
  set (d0 := logged (by_id id) d). set (u0 := scan (id, r0)).
  assert (healthy d0) as Hh0 by (by apply healthy_logged).
  pose proof (update_username_cases sql_like id req u0 d0) as H1.
  pose proof (update_username_healthy sql_like id req u0 d0 Hh0) as Hh1.
  destruct (service.update_username repo id req u0 d0) as [r1 d1] eqn:E1.
  destruct H1 as (Hr1 & Ht1 & Hn1). simpl in Hh1.
  change (table d0) with (table d) in Ht1. change (now d0) with (now d) in Hn1.
  destruct Hr1 as [-> | ->].
  { exfalso. apply update_username_rejects in E1 as (_ & Hne & k & row & Hk & Hl & Hn).
    destruct (Hfree k row Hk Hl) as [[?|?] _]; contradiction. }
  match goal with |- context [service.update_email _ _ _ ?u _] => set (u1 := u) end.
  pose proof (update_email_cases sql_like id req u1 d1) as H2.
  pose proof (update_email_healthy sql_like id req u1 d1 Hh1) as Hh2.
  destruct (service.update_email repo id req u1 d1) as [r2 d2] eqn:E2.
  destruct H2 as (Hr2 & Ht2 & Hn2). simpl in Hh2.
  destruct Hr2 as [-> | ->].
  { exfalso. apply update_email_rejects in E2 as (_ & Hne & k & row & Hk & Hl & Hn).
    rewrite Ht1 in Hl. destruct (Hfree k row Hk Hl) as [_ [?|?]]; contradiction. }
  rewrite repository_Update_eq. cbv zeta.
  assert (now d2 = now d) as Hnow by (rewrite Hn2, Hn1; reflexivity).
  assert (table d2 = table d) as Htab by (rewrite Ht2, Ht1; reflexivity).
  rewrite (healthy_next_fault d2 Hh2), Hnow, Htab.
  change (set_UpdatedAt (service.update_status req _) (now d))
    with (merged req u0 (now d)).
  change (User_ID (service.update_status req _))
    with (User_ID (merged req u0 0)).
  rewrite merged_ID. change (User_ID u0) with id. rewrite Hrow.
  rewrite unique_conflict_free.
  - eexists. split; reflexivity.
  - intros k row Hk. apply lookup_delete_Some in Hk as [Hne Hk].
    destruct (Hfree k row (not_eq_sym Hne) Hk) as [Hn _].
    destruct (Hu k id row r0 Hk Hrow (not_eq_sym Hne)) as [Hown _].
    unfold merged, columns, service.update_status. subst u1.
    destruct (update_Status req); simpl;
      destruct (String.eqb (update_Username req) "") eqn:En;
      destruct (String.eqb (update_Email req) "") eqn:Em; simpl;
      try exact Hown;
      apply String.eqb_neq in En; destruct Hn; congruence.
  - intros k row Hk. apply lookup_delete_Some in Hk as [Hne Hk].
    destruct (Hfree k row (not_eq_sym Hne) Hk) as [_ Hm].
    destruct (Hu k id row r0 Hk Hrow (not_eq_sym Hne)) as [_ Hown].
    unfold merged, columns, service.update_status. subst u1.
    destruct (update_Status req); simpl;
      destruct (String.eqb (update_Username req) "") eqn:En;
      destruct (String.eqb (update_Email req) "") eqn:Em; simpl;
      try exact Hown;
      apply String.eqb_neq in Em; destruct Hm; congruence.
Qed.

End History.

(** X15, on [store2]. *)
Lemma service_keeps_history_witness :
  let repo := repository.NewUserRepository pg_like in
  history_kept store2
    (service.Update repo 2 (mkUpdateUserRequest "bobby" "" (Some 2)) store2).2 /\
  history_kept store2 (service.Delete repo 1 store2).2.
Proof.
  destruct (service_keeps_history pg_like toy_hash store2 consistent_store2)
    as (_ & _ & _ & Hu & Hd).
  split; [apply Hu|apply Hd].
Defined.

(** X16, a run on [store2]: account 2 takes a username nobody has. *)
Lemma Update_succeeds_unless_conflict_witness :
  exists d',
    service.Update (repository.NewUserRepository pg_like) 2
      (mkUpdateUserRequest "bobby" "" (Some 2)) store2
    = (Done (mkUser (mkBaseModel 2 200 300) "bobby" "b@x.com"
                    "$2a$10$hash-of-secret2" UserStatusBanned), d') /\
    table d' = <[2 := mkRow "bobby" "b@x.com" "$2a$10$hash-of-secret2" 2 200 300]>
                 (table store2).
Proof.
  apply (Update_succeeds_unless_conflict pg_like 2
           (mkUpdateUserRequest "bobby" "" (Some 2)) store2 (scan (2, bob_row))
           eq_refl consistent_store2 ltac:(discriminate) eq_refl); [|reflexivity].
  intros k row Hk Hl. simpl in Hl.
  apply lookup_insert_Some in Hl as [[<- _]|[_ Hl]]; [contradiction|].
  apply lookup_singleton_Some in Hl as [_ <-].
  split; [right; discriminate|left; reflexivity].
Defined.

(** ** The two repositories *)





Section PgxFacts.
Variable sql_like : string -> string -> bool.




End PgxFacts.



Section Agreement.
Variable sql_like : string -> string -> bool.
Variable GenerateFromPassword : string -> Z -> result string.
#[local] Abbreviation g := (repository.NewUserRepository sql_like).
#[local] Abbreviation p := (repository_pgx.NewUserRepository sql_like).











End Agreement.


(** ** package config: connection strings *)

Example DSN_run :
  config.DSN (config.mkDatabaseConfig "localhost" 5432 "postgres" "secret" "peanut"
                                      "disable" 10 2 3600 1800)
  = "host=localhost port=5432 user=postgres password=secret dbname=peanut sslmode=disable"%string.
Proof. reflexivity. Qed.

Example Addr_run :
  config.Addr (config.mkRedisConfig "localhost" 6379 "" 0 10) = "localhost:6379"%string.
Proof. reflexivity. Qed.

(** Two texts that agree up to their first [c] agree before and after it. *)
Lemma append_split (c : ascii) (s1 s2 t1 t2 : string) :
  occurs c s1 = false -> occurs c s2 = false ->
  s1 +:+ String c t1 = s2 +:+ String c t2 -> s1 = s2 /\ t1 = t2.
Proof.
  revert s2. induction s1 as [|a s1 IH]; intros [|b s2]; simpl.
  - intros _ _ [= ->]. auto.
  - intros _ Hb [= <- _]. rewrite Ascii.eqb_refl in Hb. discriminate.
  - intros Ha _ [= -> _]. rewrite Ascii.eqb_refl in Ha. discriminate.
  - intros Ha Hb [= -> E].
    apply orb_false_iff in Ha as [_ Ha]. apply orb_false_iff in Hb as [_ Hb].
    destruct (IH s2 Ha Hb E) as [-> ->]. auto.
Qed.

Lemma pretty_N_go_no_space x s :
  occurs " " s = false -> occurs " " (pretty_N_go x s) = false.
Proof.
  revert s. induction (N.lt_wf_0 x) as [x _ IH]; intros s Hs.
  assert (x = 0 \/ 0 < x)%N as [->|Hx] by lia.
  - by rewrite pretty_N_go_0.
  - rewrite pretty_N_go_step by done. apply IH.
    { by apply N.div_lt. }
    simpl. rewrite Hs. unfold pretty_N_char. by repeat case_match.
Qed.

Lemma pretty_Z_no_space (z : Z) : occurs " " (pretty z) = false.
Proof.
  assert (forall q : positive, occurs " " (pretty q) = false) as Hpos.
  { intros q. unfold pretty, pretty_positive, pretty, pretty_N.
    case_decide; [reflexivity|]. by apply pretty_N_go_no_space. }
  destruct z as [|q|q]; [reflexivity|apply Hpos|].
  unfold pretty, pretty_Z. simpl. apply Hpos.
Qed.

(** X18: the address names its host and port without ambiguity when the
    host holds no colon. *)
Theorem Addr_inj (c1 c2 : config.RedisConfig) :
  occurs ":" (config.redis_Host c1) = false ->
  occurs ":" (config.redis_Host c2) = false ->
  config.Addr c1 = config.Addr c2 ->
  config.redis_Host c1 = config.redis_Host c2 /\
  config.redis_Port c1 = config.redis_Port c2.
Proof.
  intros H1 H2 E. unfold config.Addr in E.
  apply (append_split ":" _ _ _ _ H1 H2) in E as [Hh Hp].
  split; [exact Hh|]. by apply (inj pretty).
Qed.

(** X19: the connection string names every setting without ambiguity
    when host, user, password and database name hold no space. *)
Theorem DSN_inj (c1 c2 : config.DatabaseConfig) :
  spaceless c1 -> spaceless c2 ->
  config.DSN c1 = config.DSN c2 ->
  config.db_Host c1 = config.db_Host c2 /\
  config.db_Port c1 = config.db_Port c2 /\
  config.db_User c1 = config.db_User c2 /\
  config.db_Password c1 = config.db_Password c2 /\
  config.db_Name c1 = config.db_Name c2 /\
  config.db_SSLMode c1 = config.db_SSLMode c2.
Proof.
  intros (Hh1 & Hu1 & Hp1 & Hn1) (Hh2 & Hu2 & Hp2 & Hn2) E.
  unfold config.DSN in E. simpl in E. injection E as E.
  apply (append_split " " _ _ _ _ Hh1 Hh2) in E as [Hhost E].
  simpl in E. injection E as E.
  apply (append_split " " _ _ _ _ (pretty_Z_no_space _) (pretty_Z_no_space _)) in E
    as [Hport E].
  simpl in E. injection E as E.
  apply (append_split " " _ _ _ _ Hu1 Hu2) in E as [Huser E].
  simpl in E. injection E as E.
  apply (append_split " " _ _ _ _ Hp1 Hp2) in E as [Hpw E].
  simpl in E. injection E as E.
  apply (append_split " " _ _ _ _ Hn1 Hn2) in E as [Hname E].
  simpl in E. injection E as E.
  apply (inj pretty) in Hport. auto 10.
Qed.

(** A password with a space in it is not kept apart from the settings
    that follow. *)
Example DSN_space_in_password :
  config.DSN (config.mkDatabaseConfig "h" 5432 "u" "x dbname=other" "peanut" "disable" 0 0 0 0)
  = "host=h port=5432 user=u password=x dbname=other dbname=peanut sslmode=disable"%string.
Proof. reflexivity. Qed.

(** X18, a run: two configurations of the same server. *)
Lemma Addr_inj_witness :
  config.redis_Host redis_a = config.redis_Host redis_b /\
  config.redis_Port redis_a = config.redis_Port redis_b.
Proof. exact (Addr_inj redis_a redis_b eq_refl eq_refl eq_refl). Defined.

(** X19, a run: two configurations that differ in their pools only. *)
Lemma DSN_inj_witness :
  config.db_Host database_a = config.db_Host database_b /\
  config.db_Port database_a = config.db_Port database_b /\
  config.db_User database_a = config.db_User database_b /\
  config.db_Password database_a = config.db_Password database_b /\
  config.db_Name database_a = config.db_Name database_b /\
  config.db_SSLMode database_a = config.db_SSLMode database_b.
Proof.
  assert (spaceless database_a) as Ha by (repeat split).
  assert (spaceless database_b) as Hb by (repeat split).
  exact (DSN_inj database_a database_b Ha Hb eq_refl).
Defined.

(** ** package response: [Error] *)

(** X20: [Error] keeps the code it is given in the body and sends no
    data, but its HTTP status knows three values only: 400 for every code
    from 400 to 499, 500 for every code from 500 up, 200 for anything
    else.  For the codes 401, 403 and 404 it therefore answers 400 where
    [Unauthorized], [Forbidden] and [NotFound] answer 401, 403 and 404. *)
Theorem Error_status_mapping (code : Z) (message : string) :
  let reply := response.Error code message in
  reply.2 = response.mkResponse code message None /\
  (reply.1 = 400 <-> 400 <= code < 500) /\
  (reply.1 = 500 <-> 500 <= code) /\
  (reply.1 = 200 <-> code < 400) /\
  (response.Error response.CodeUnauthorized message).1 = 400 /\
  (response.Unauthorized message).1.1 = 401 /\
  (response.Error response.CodeForbidden message).1 = 400 /\
  (response.Forbidden message).1.1 = 403 /\
  (response.Error response.CodeNotFound message).1 = 400 /\
  (response.NotFound message).1 = 404.
Proof.
  unfold response.Error. simpl. split; [reflexivity|].
  destruct (400 <=? code) eqn:E1; destruct (code <? 500) eqn:E2;
    destruct (500 <=? code) eqn:E3; simpl;
    try apply Z.leb_le in E1; try apply Z.leb_gt in E1;
    try apply Z.ltb_lt in E2; try apply Z.ltb_ge in E2;
    try apply Z.leb_le in E3; try apply Z.leb_gt in E3;
    unfold response.StatusBadRequest, response.StatusInternalServerError,
      response.StatusOK;
    repeat split; intros; try lia; try reflexivity.
Qed.

(** ** Errors and encodings *)

Ltac run_repository :=
  unfold repository.Create, repository.fetch, repository.List, repository.Update,
    repository.Delete, repository.ExistsByUsername, repository.ExistsByEmail,
    gorm.Create, gorm.First, gorm.Count, gorm.Find, gorm.Save, gorm.Delete,
    repository_pgx.Create, repository_pgx.fetch, repository_pgx.List,
    repository_pgx.Update, repository_pgx.Delete,
    repository_pgx.ExistsByUsername, repository_pgx.ExistsByEmail, pgx.QueryRow,
    db_select, db_count, db_exists, db_insert, db_update, db_delete, lift_driver,
    bind, issue, ret;
  simpl; repeat case_match; simpl; intros; simplify_eq; reflexivity.

(** X21: no error of either repository is, or wraps, an error variable
    of the service: what a handler tells apart with [errors.Is] is decided
    by the service alone. *)
Theorem repository_errors_not_sentinels (sql_like : string -> string -> bool)
    (repo : UserRepository) (d : DB) :
  repo = repository.NewUserRepository sql_like \/
  repo = repository_pgx.NewUserRepository sql_like ->
  (forall u e, (repo_Create repo u d).1 = Fail e -> is_sentinel e = false) /\
  (forall id e, (repo_GetByID repo id d).1 = Fail e -> is_sentinel e = false) /\
  (forall name e, (repo_GetByUsername repo name d).1 = Fail e -> is_sentinel e = false) /\
  (forall email e, (repo_GetByEmail repo email d).1 = Fail e -> is_sentinel e = false) /\
  (forall params e, (repo_List repo params d).1 = Fail e -> is_sentinel e = false) /\
  (forall u e, (repo_Update repo u d).1 = Fail e -> is_sentinel e = false) /\
  (forall id e, (repo_Delete repo id d).1 = Some e -> is_sentinel e = false) /\
  (forall name e, (repo_ExistsByUsername repo name d).1 = Fail e ->
     is_sentinel e = false) /\
  (forall email e, (repo_ExistsByEmail repo email d).1 = Fail e ->
     is_sentinel e = false).
Proof.
  intros [-> | ->]; simpl;
    (split; [|split; [|split; [|split; [|split; [|split; [|split; [|split]]]]]]]).
  - intros u e. run_repository.
  - intros id e. unfold repository.GetByID. run_repository.
  - intros name e. unfold repository.GetByUsername. run_repository.
  - intros email e. unfold repository.GetByEmail. run_repository.
  - intros params e. run_repository.
  - intros u e. run_repository.
  - intros id e. run_repository.
  - intros name e. run_repository.
  - intros email e. run_repository.
  - intros u e. run_repository.
  - intros id e. unfold repository_pgx.GetByID. run_repository.
  - intros name e. unfold repository_pgx.GetByUsername. run_repository.
  - intros email e. unfold repository_pgx.GetByEmail. run_repository.
  - intros params e. run_repository.
  - intros u e. run_repository.
  - intros id e. run_repository.
  - intros name e. run_repository.
  - intros email e. run_repository.
Qed.

(** X22: the JSON of a record tells everything about it but the
    password: two records are written alike exactly when they differ in
    their passwords at most. *)
Theorem marshal_User_faithful (u1 u2 : User) :
  marshal_User u1 = marshal_User u2 <-> scrub u1 = scrub u2.
Proof.
  split; [|apply marshal_scrubbed].
  destruct u1 as [[i1 c1 p1] n1 e1 w1 s1], u2 as [[i2 c2 p2] n2 e2 w2 s2].
  unfold marshal_User, marshal_struct, scrub, set_Password. simpl.
  intros [= -> -> -> -> -> ->]. reflexivity.
Qed.

(** X21, on [outage_store], where every statement fails. *)
Lemma repository_errors_not_sentinels_witness :
  exists e, (repository.GetByID pg_like 1 outage_store).1 = Fail e /\
            is_sentinel e = false.
Proof.
  destruct (repository_errors_not_sentinels pg_like (repository.NewUserRepository pg_like)
              outage_store (or_introl eq_refl)) as (_ & Hget & _).
  eexists. split; [reflexivity|]. apply (Hget 1). reflexivity.
Defined.

(** ** The store invariant, run *)

(** X23, on [store1]. *)
Lemma service_keeps_consistent_witness :
  let repo := repository.NewUserRepository pg_like in
  consistent (service.Create repo toy_hash bob_request store1).2 /\
  consistent (service.Update repo 1 (mkUpdateUserRequest "" "" (Some 2)) store1).2 /\
  consistent (service.Delete repo 1 store1).2.
Proof.
  destruct (service_keeps_consistent pg_like toy_hash store1
              (consistent_store1 store1 eq_refl eq_refl eq_refl))
    as (Hc & _ & _ & Hu & Hd).
  split; [apply Hc|]. split; [apply Hu|apply Hd].
Defined.
